(** * nest-mongo-query-parser: the query compiler of [lib/query/mongo.query.ts]

    A shallow embedding of the compiler that turns a decoded query-string
    mapping into a MongoDB query descriptor, and the properties of it that the
    specification states.

    Conventions of the embedding.
    - A JavaScript string is a [string]: a sequence of 8-bit characters, each
      standing for the UTF-16 code unit of the same number (so the strings
      covered are the Latin-1 ones).
    - A JavaScript value is a [Value]; a plain object is the list of its own
      enumerable properties in the order [Object.keys] lists them.
    - A number of [parse]'s own arithmetic (a limit, a skip, a page) is a
      [float], the binary64 number of JavaScript.
    - A call either returns, or throws, or (for the fuelled recursion only)
      runs out of fuel: [Outcome].
    - The built-ins of the host whose result depends on more than the
      compiler can see ([JSON.parse], [Date], [URLSearchParams]) are the
      fields of a [Host], over which the compiler is defined.

    The embedding covers [parse] and all it calls.  The decorators
    [MongoQueryParser] and [MongoQuery] only hand the query of a request to
    [parse]; [getPopulate], [getArrayValue] and [isSimpleFilter] are called
    from nowhere. *)

From Stdlib Require Import Bool Arith ZArith QArith Lia List Ascii String.
From Stdlib Require Import DecimalString DecimalNat DecimalFacts.
From Stdlib Require Import Floats.PrimFloat.
From Stdlib Require Floats.SpecFloat Floats.FloatOps.
Import ListNotations.

Close Scope Q_scope.
Open Scope list_scope.
Open Scope string_scope.

(** ** Characters and character classes *)

Definition code (c : ascii) : N := N_of_ascii c.

(** A range [lo-hi] of a regular expression character class. *)
Definition in_range (lo hi c : ascii) : bool :=
  (code lo <=? code c)%N && (code c <=? code hi)%N.

Definition is_char (a c : ascii) : bool := Ascii.eqb a c.

(** [\d] *)
Definition is_digit (c : ascii) : bool := in_range "0" "9" c.

(** [\w], that is [[A-Za-z0-9_]]. *)
Definition is_word (c : ascii) : bool :=
  in_range "A" "Z" c || in_range "a" "z" c || is_digit c || is_char "_" c.

(** [\s] on the code units below 256: tab, line feed, vertical tab, form
    feed, carriage return, space and no-break space. *)
Definition is_space (c : ascii) : bool :=
  ((9 <=? code c)%N && (code c <=? 13)%N) || (code c =? 32)%N || (code c =? 160)%N.

(** ** Strings, as the methods of [String.prototype] use them *)

(** [s.startsWith(p)] *)
Definition startsWith (p s : string) : bool := String.prefix p s.

(** [s.endsWith(p)] *)
Definition endsWith (p s : string) : bool :=
  (String.length p <=? String.length s)%nat &&
  (String.substring (String.length s - String.length p) (String.length p) s =? p).

(** [s.indexOf(c)] for a one-character [c]: the position of the first
    occurrence, [-1] when there is none. *)
Fixpoint indexOf (c : ascii) (s : string) : Z :=
  match s with
  | EmptyString => (-1)%Z
  | String a s' =>
      if Ascii.eqb a c then 0%Z
      else let i := indexOf c s' in
           if (i <? 0)%Z then (-1)%Z else (i + 1)%Z
  end.

(** The clamping of an index argument of [substring] to [0 .. length]. *)
Definition clamp (i : Z) (s : string) : nat :=
  Nat.min (Z.to_nat i) (String.length s).

(** [s.substring(i)] *)
Definition substring_from (i : Z) (s : string) : string :=
  String.substring (clamp i s) (String.length s - clamp i s) s.

(** [s.substring(i, j)]: the characters between the two clamped indices, the
    smaller one first. *)
Definition substring (i j : Z) (s : string) : string :=
  let a := Nat.min (clamp i s) (clamp j s) in
  let b := Nat.max (clamp i s) (clamp j s) in
  String.substring a (b - a) s.

(** [s.replace(c, r)] for a one-character pattern [c]: the first occurrence
    only. *)
Fixpoint replaceFirst (c : ascii) (r : string) (s : string) : string :=
  match s with
  | EmptyString => EmptyString
  | String a s' =>
      if Ascii.eqb a c then r ++ s' else String a (replaceFirst c r s')
  end.

(** Puts a character in front of the first piece of a split. *)
Definition cons_head (a : ascii) (l : list string) : list string :=
  match l with
  | [] => [String a EmptyString]
  | h :: t => String a h :: t
  end.

(** [s.split(c)] for a one-character separator [c]. *)
Fixpoint split (c : ascii) (s : string) : list string :=
  match s with
  | EmptyString => [EmptyString]
  | String a s' =>
      if Ascii.eqb a c then EmptyString :: split c s'
      else cons_head a (split c s')
  end.

(** [s.replace(/c/g, r)]: every occurrence of the character [c] becomes [r]. *)
Fixpoint replaceAll (c : ascii) (r : string) (s : string) : string :=
  match s with
  | EmptyString => EmptyString
  | String a s' =>
      if Ascii.eqb a c then r ++ replaceAll c r s'
      else String a (replaceAll c r s')
  end.

(** [s.split(sep)] for a separator of one character or more.  [skip] counts
    the characters of a separator just recognised that are still to be
    passed over. *)
Fixpoint split_on_aux (sep : string) (skip : nat) (s : string) : list string :=
  match s with
  | EmptyString => [EmptyString]
  | String a s' =>
      match skip with
      | S k => split_on_aux sep k s'
      | O =>
          if String.prefix sep s
          then EmptyString :: split_on_aux sep (String.length sep - 1) s'
          else cons_head a (split_on_aux sep 0 s')
      end
  end.

Definition split_on (sep s : string) : list string := split_on_aux sep 0 s.

(** [l.filter(val => val !== '')] *)
Definition non_empty (s : string) : bool := negb (s =? "").

(** Membership of a character in a string. *)
Fixpoint mem_char (c : ascii) (s : string) : bool :=
  match s with
  | EmptyString => false
  | String a s' => Ascii.eqb a c || mem_char c s'
  end.

Fixpoint all_chars (p : ascii -> bool) (s : string) : bool :=
  match s with
  | EmptyString => true
  | String a s' => p a && all_chars p s'
  end.

Fixpoint filter_chars (p : ascii -> bool) (s : string) : string :=
  match s with
  | EmptyString => EmptyString
  | String a s' => if p a then String a (filter_chars p s') else filter_chars p s'
  end.

(** ** Regular expressions

    The patterns of the source are anchored at both ends and use character
    classes, sequence, option and repetition only, so [RegExp.prototype.test]
    is membership in a regular language; it is decided with derivatives. *)

Inductive RegExp : Type :=
| ReNone
| ReEps
| ReClass (p : ascii -> bool)
| ReSeq (r1 r2 : RegExp)
| ReAlt (r1 r2 : RegExp)
| ReStar (r : RegExp).

Definition ReOpt (r : RegExp) : RegExp := ReAlt r ReEps.
Definition RePlus (r : RegExp) : RegExp := ReSeq r (ReStar r).
Definition ReChar (a : ascii) : RegExp := ReClass (is_char a).

Fixpoint ReRepeat (n : nat) (r : RegExp) : RegExp :=
  match n with
  | O => ReEps
  | S n' => ReSeq r (ReRepeat n' r)
  end.

Fixpoint nullable (r : RegExp) : bool :=
  match r with
  | ReNone => false
  | ReEps => true
  | ReClass _ => false
  | ReSeq r1 r2 => nullable r1 && nullable r2
  | ReAlt r1 r2 => nullable r1 || nullable r2
  | ReStar _ => true
  end.

Fixpoint deriv (c : ascii) (r : RegExp) : RegExp :=
  match r with
  | ReNone => ReNone
  | ReEps => ReNone
  | ReClass p => if p c then ReEps else ReNone
  | ReSeq r1 r2 =>
      if nullable r1
      then ReAlt (ReSeq (deriv c r1) r2) (deriv c r2)
      else ReSeq (deriv c r1) r2
  | ReAlt r1 r2 => ReAlt (deriv c r1) (deriv c r2)
  | ReStar r1 => ReSeq (deriv c r1) (ReStar r1)
  end.

(** [/^r$/.test(s)] *)
Fixpoint re_match (r : RegExp) (s : string) : bool :=
  match s with
  | EmptyString => nullable r
  | String c s' => re_match (deriv c r) s'
  end.

(** ** Values *)

(** The values a compiled descriptor is made of.  A number is the rational
    its decimal text denotes (the rounding of [Number] to a double is not
    modelled). *)
#[warnings="-register-all"] Inductive Value : Type :=
| VNull
| VBool (b : bool)
| VNum (n : Q)
| VStr (s : string)
| VArr (l : list Value)
| VObj (o : list (string * Value)).

(** ** Plain objects

    An object is the list of its own properties, kept in the order of
    [OrdinaryOwnPropertyKeys]: the array-index keys in ascending order, then
    the other keys in the order of their creation. *)

Definition Obj (A : Type) : Type := list (string * A).

(** The number a key denotes when it is an array index: the canonical decimal
    text of an integer below [2^32 - 1]. *)
Definition array_index (k : string) : option N :=
  match NilZero.uint_of_string k with
  | Some d =>
      let n := N.of_uint d in
      if (NilZero.string_of_uint (N.to_uint n) =? k) && (n <? 4294967295)%N
      then Some n else None
  | None => None
  end.

(** [o[k]]; [None] stands for [undefined]. *)
Fixpoint obj_get {A} (o : Obj A) (k : string) : option A :=
  match o with
  | [] => None
  | (k', v) :: o' => if k' =? k then Some v else obj_get o' k
  end.

(** [Object.keys(o)] *)
Definition obj_keys {A} (o : Obj A) : list string := map fst o.

(** [delete o[k]] *)
Fixpoint obj_delete {A} (o : Obj A) (k : string) : Obj A :=
  match o with
  | [] => []
  | (k', v) :: o' => if k' =? k then obj_delete o' k else (k', v) :: obj_delete o' k
  end.

Fixpoint obj_replace {A} (o : Obj A) (k : string) (v : A) : Obj A :=
  match o with
  | [] => []
  | (k', v') :: o' => if k' =? k then (k', v) :: o' else (k', v') :: obj_replace o' k v
  end.

Fixpoint obj_insert_index {A} (o : Obj A) (n : N) (k : string) (v : A) : Obj A :=
  match o with
  | [] => [(k, v)]
  | (k', v') :: o' =>
      match array_index k' with
      | Some n' =>
          if (n' <? n)%N then (k', v') :: obj_insert_index o' n k v
          else (k, v) :: o
      | None => (k, v) :: o
      end
  end.

(** The definition of the property [k] with the value [v]: an existing
    property keeps its place, a new one goes where the key order puts it. *)
Definition obj_define {A} (o : Obj A) (k : string) (v : A) : Obj A :=
  match obj_get o k with
  | Some _ => obj_replace o k v
  | None =>
      match array_index k with
      | Some n => obj_insert_index o n k v
      | None => (o ++ [(k, v)])%list
      end
  end.

(** [o[k] = v] on an object created by [{}].  The key [__proto__] reaches the
    accessor of [Object.prototype], which creates no own property; every
    other key is defined. *)
Definition obj_set {A} (o : Obj A) (k : string) (v : A) : Obj A :=
  if k =? "__proto__" then o else obj_define o k v.

(** ** Outcomes *)

Inductive Error : Type := TypeError | RangeError | SyntaxError.

Inductive Outcome (A : Type) : Type :=
| Ok (a : A)
| Throw (e : Error)
| OutOfFuel.

Arguments Ok {A} a.
Arguments Throw {A} e.
Arguments OutOfFuel {A}.

Definition bind {A B} (m : Outcome A) (f : A -> Outcome B) : Outcome B :=
  match m with
  | Ok a => f a
  | Throw e => Throw e
  | OutOfFuel => OutOfFuel
  end.

Notation "x <- m ;; k" := (bind m (fun x => k))
  (at level 61, m at next level, right associativity).

(** [l.map(f)] when [f] may throw: the first failure ends the traversal. *)
Fixpoint mapM {A B} (f : A -> Outcome B) (l : list A) : Outcome (list B) :=
  match l with
  | [] => Ok []
  | a :: l' => b <- f a ;; bs <- mapM f l' ;; Ok (b :: bs)
  end.

(** [l.reduce(f, init)] when [f] may throw. *)
Fixpoint foldM {A B} (f : B -> A -> Outcome B) (l : list A) (init : B) : Outcome B :=
  match l with
  | [] => Ok init
  | a :: l' => b <- f init a ;; foldM f l' b
  end.

(** ** The helper classes [StringUtils] and [StringValidator] *)

Module StringUtils.

(** Modelled from the spec: [StringUtils.cleanString] of
    [utils/string.util], which is not among the sources.  The key sanitizer
    "removes every character" the pattern matches; the pattern of every
    call is a negated character class with the [g] flag, given here as the
    predicate [junk] of the characters it matches. *)
Definition cleanString (str : string) (junk : ascii -> bool) : string :=
  filter_chars (fun c => negb (junk c)) str.

(** Modelled from the spec: [StringUtils.splitString] of
    [utils/string.util]: "split the corresponding raw value on [,]". *)
Definition splitString (str : string) (separator : ascii) : list string :=
  split separator str.

(** Modelled from the spec: [StringUtils.testString] of
    [utils/string.util]: whether the token "matches the shape" the pattern
    describes. *)
Definition testString (str : string) (regex : RegExp) : bool :=
  re_match regex str.

End StringUtils.

(** The decimal digits of a text read as a number in base ten; other
    characters are passed over. *)
Fixpoint digits_value (acc : N) (s : string) : N :=
  match s with
  | EmptyString => acc
  | String c s' =>
      if is_digit c then digits_value (acc * 10 + (code c - 48))%N s'
      else digits_value acc s'
  end.

(** The number of digits after the decimal point. *)
Fixpoint fraction_digits (s : string) : nat :=
  match s with
  | EmptyString => O
  | String c s' => if is_char "." c then String.length s' else fraction_digits s'
  end.

(** The Number value of an integer: the binary64 number nearest to it, the
    one with the even significand when two are as near, and an infinity
    beyond the largest of them. *)
Definition Number_of_Z (z : Z) : float :=
  FloatOps.SF2Prim (SpecFloat.binary_normalize FloatOps.prec FloatOps.emax z 0 false).

(** [+s] for a text [StringValidator.isInt] accepts: the Number value of the
    integer its digits denote. *)
Definition to_integer (s : string) : float := Number_of_Z (Z.of_N (digits_value 0 s)).

(** [+s] for a text [StringValidator.isNumberString] accepts. *)
Definition to_number (s : string) : Q :=
  Qred (Qmake (Z.of_N (digits_value 0 s)) (Z.to_pos (10 ^ Z.of_nat (fraction_digits s)))).

Module StringValidator.

Definition digit : RegExp := ReClass is_digit.

(** Modelled from the spec: [StringValidator.isInt] of
    [utils/string.validator], which is not among the sources: the value
    "parses to an integer", taken as one decimal digit or more. *)
Definition isInt (str : string) : bool := re_match (RePlus digit) str.

(** Modelled from the spec: [StringValidator.isNumberString]: the token
    "matches a numeric-string grammar" (the examples are [42] and [3.5]),
    taken as digits with an optional fraction. *)
Definition isNumberString (str : string) : bool :=
  re_match (ReSeq (RePlus digit) (ReOpt (ReSeq (ReChar ".") (RePlus digit)))) str.

Definition date : RegExp :=
  ReSeq (ReRepeat 4 digit)
    (ReSeq (ReChar "-") (ReSeq (ReRepeat 2 digit) (ReSeq (ReChar "-") (ReRepeat 2 digit)))).

Definition time : RegExp :=
  ReSeq (ReRepeat 2 digit)
    (ReSeq (ReChar ":") (ReSeq (ReRepeat 2 digit) (ReSeq (ReChar ":")
      (ReSeq (ReRepeat 2 digit) (ReOpt (ReSeq (ReChar ".") (RePlus digit))))))).

(** Modelled from the spec: [StringValidator.isISODate]: the token "matches
    ISO-8601 date syntax", taken as [YYYY-MM-DD]. *)
Definition isISODate (str : string) : bool := re_match date str.

(** Modelled from the spec: [StringValidator.isISODateTime]: the token
    "matches ISO-8601 date-time syntax", taken as [YYYY-MM-DDThh:mm:ss],
    with an optional fraction of a second and an optional [Z]. *)
Definition isISODateTime (str : string) : bool :=
  re_match (ReSeq date (ReSeq (ReChar "T") (ReSeq time (ReOpt (ReChar "Z"))))) str.

End StringValidator.

(** ** The raw query *)

(** A value of the decoded query string: one string, the strings of a
    repeated key, or the nested mapping of a key written with brackets
    ([a[b]=c]). *)
#[warnings="-register-all"] Inductive RawValue : Type :=
| RStr (s : string)
| RArr (l : list string)
| RObj (o : list (string * RawValue)).

Definition RawQuery : Type := Obj RawValue.

(** [!v] for a property read from the raw query: an array and a mapping are
    objects, and every object is truthy. *)
Definition falsy (v : option RawValue) : bool :=
  match v with
  | None => true
  | Some (RStr s) => s =? ""
  | Some (RArr _) => false
  | Some (RObj _) => false
  end.

(** [l.join(sep)] *)
Fixpoint join (sep : string) (l : list string) : string :=
  match l with
  | [] => ""
  | [s] => s
  | s :: l' => s ++ sep ++ join sep l'
  end.

(** The text a mapping is converted to, whatever it holds. *)
Definition mapping_text : string := "[object Object]".

(** [String(v)], the text a value is converted to where a text is asked
    for: an array gives its elements with commas between them. *)
Definition to_text (v : RawValue) : string :=
  match v with
  | RStr s => s
  | RArr l => join "," l
  | RObj _ => mapping_text
  end.

(** ** [VALID_OPERATORS.queryOperators]: the comparison, logical and element
    operators *)

Definition comparison : list string :=
  ["$eq"; "$gt"; "$gte"; "$in"; "$lt"; "$lte"; "$ne"; "$nin"].

Definition logical : list string := ["$and"; "$not"; "$nor"; "$or"].

Definition element : list string := ["$exists"; "$type"].

(** ** Character classes of the patterns in the source *)

(** [/[^A-z0-9_.]/g] *)
Definition key_junk (c : ascii) : bool :=
  negb (in_range "A" "z" c || in_range "0" "9" c || is_char "_" c || is_char "." c).

(** [/[^\w\s@.-}]/g]: in the class, [.-}] is the range from [.] to [}]. *)
Definition value_junk (c : ascii) : bool :=
  negb (is_word c || is_space c || is_char "@" c || in_range "." "}" c).

(** [/^(([{\w\s@.-}]\|?){1,}[{\w@.-}])$/] *)
Definition or_pattern : RegExp :=
  ReSeq
    (RePlus (ReSeq
       (ReClass (fun c => is_char "{" c || is_word c || is_space c || is_char "@" c
                          || in_range "." "}" c))
       (ReOpt (ReChar "|"))))
    (ReClass (fun c => is_char "{" c || is_word c || is_char "@" c || in_range "." "}" c)).

(** [StringUtils.cleanString(key, /[^A-z0-9_.]/g)] *)
Definition cleanKey (key : string) : string := StringUtils.cleanString key key_junk.

(** ** The token predicates *)

Definition isComparisonFilter (filter : string) : bool :=
  startsWith "{eq}" filter || startsWith "{gt}" filter || startsWith "{gte}" filter
  || startsWith "{in}" filter || startsWith "{lt}" filter || startsWith "{lte}" filter
  || startsWith "{ne}" filter || startsWith "{nin}" filter.

Definition isElementFilter (filter : string) : bool :=
  startsWith "{exists}" filter || startsWith "{type}" filter.

Definition isElementMatchFilter (filter : string) : bool :=
  startsWith "{elemMatch}" filter.

Definition isANDFilter (filter : string) : bool :=
  if (indexOf "{" filter =? -1)%Z then false
  else (1 <? List.length (List.filter non_empty (split "{" filter)))%nat.

Definition isORFilter (filter : string) : bool :=
  if (indexOf "|" filter =? -1)%Z then false
  else StringUtils.testString filter or_pattern.

Definition isLogicalOperator (filter : string) : bool :=
  existsb (fun operator => startsWith ("{" ++ replaceFirst "$" "" operator ++ "}") filter)
    logical.

Definition getElementExists (value : string) : Value :=
  if negb (existsb (String.eqb value) ["true"; "false"]) then VNull
  else VObj [("$exists", VBool (value =? "true"))].

Definition validTypes : list string :=
  ["double"; "string"; "object"; "array"; "binData"; "objectId"; "bool"; "date";
   "null"; "regex"; "javascript"; "int"; "timestamp"; "long"; "decimal"; "minKey";
   "maxKey"].

Definition getElementType (value : string) : Value :=
  if negb (existsb (String.eqb value) validTypes) then VNull
  else VObj [("$type", VStr value)].

(** ** What [Object.keys(v)] and [v[key]] give for a classified value *)

(** The decimal text of an index. *)
Definition index_key (i : nat) : string := NilZero.string_of_uint (Nat.to_uint i).

(** The properties of a string: its characters under their positions,
    counted from [i]. *)
Fixpoint char_entries (i : nat) (s : string) : Obj Value :=
  match s with
  | EmptyString => []
  | String c s' => (index_key i, VStr (String c EmptyString)) :: char_entries (S i) s'
  end.

(** The properties of an array: its elements under their positions. *)
Fixpoint item_entries (i : nat) (l : list Value) : Obj Value :=
  match l with
  | [] => []
  | v :: l' => (index_key i, v) :: item_entries (S i) l'
  end.

(** [Object.keys(v)], each key with [v[key]].  [Object.keys(null)] throws; a
    number or a boolean has no own property. *)
Definition own_entries (v : Value) : Outcome (Obj Value) :=
  match v with
  | VNull => Throw TypeError
  | VBool _ => Ok []
  | VNum _ => Ok []
  | VStr s => Ok (char_entries 0 s)
  | VArr l => Ok (item_entries 0 l)
  | VObj o => Ok o
  end.

Definition isObjectLike (v : Value) : bool :=
  match v with
  | VArr _ | VObj _ => true
  | _ => false
  end.

Definition reserved : list string :=
  ["limit"; "skip"; "page"; "select"; "sort"; "populate"].

(** ** The compiler *)

(** The built-ins of the host that the compiler calls and whose result
    depends on more than the compiler can see.
    - [JSON_parse] is [JSON.parse]: the value a JSON text denotes, [None] when
      it throws a [SyntaxError].
    - [Date_toISOString s] is [new Date(s).toISOString()]: it depends on the
      time zone of the host; [None] when it throws a [RangeError] (a date
      that does not exist).
    - [URLSearchParams s] is the list of the entries of
      [new URLSearchParams(s)], in the order [forEach] visits them. *)
Class Host : Type := {
  JSON_parse : string -> option Value;
  Date_toISOString : string -> option string;
  URLSearchParams : string -> list (string * string)
}.

Section Compiler.

Context {host : Host}.

(** [isJson(item)] for an [item] that is a string.  An item that is no
    string is first turned into its JSON text; the one such item that
    reaches [isJson] is a nested mapping, for which see
    [getSimpleFilterValue_mapping]. *)
Definition isJson (item : string) : bool :=
  match JSON_parse item with
  | Some v => isObjectLike v
  | None => false
  end.

(** [getSimpleFilterValue(filter)] for a [filter] that is a nested mapping.
    A mapping is truthy.  [isJson] holds of it: it is no string, so it is
    turned into its JSON text first, and [JSON.parse] reads that text back
    as an object.  [JSON.parse(filter)] is then given the mapping itself,
    that is the text the mapping is converted to. *)
Definition getSimpleFilterValue_mapping : Outcome Value :=
  match JSON_parse mapping_text with
  | Some v => Ok v
  | None => Throw SyntaxError
  end.

Section Recursion.

(** The function the recursive calls go to. *)
Variable self : string -> Outcome Value.

Definition getMapOfOperatorsWithValues (filter : list string) : Outcome (list Value) :=
  mapM self filter.

Definition getImplicitANDValue (filter : list string) : Outcome Value :=
  filterValuesMap <- getMapOfOperatorsWithValues filter ;;
  acc <- foldM (fun acc filterValue =>
                  operatorArray <- own_entries filterValue ;;
                  Ok (fold_left (fun acc kv => obj_set acc (fst kv) (snd kv))
                                operatorArray acc))
               filterValuesMap [] ;;
  Ok (VObj acc).

(** [getFilter(query, def)]: the query object as the call leaves it, and
    the outcome.  The six [delete]s come first; [query] is an object, so
    [def] is never returned. *)
Definition getFilter (query : RawQuery) (def : Obj Value)
  : RawQuery * Outcome (Obj Value) :=
  let query := fold_left (fun q k => obj_delete q k) reserved query in
  (query,
   foldM (fun obj key =>
            let cleanKey := cleanKey key in
            match obj_get query key with
            | Some (RArr queryValue) =>
                v <- getImplicitANDValue queryValue ;;
                Ok (obj_set obj cleanKey v)
            | Some (RStr queryValue) =>
                value <- self queryValue ;;
                match value with
                | VNull => Ok obj
                | _ => Ok (obj_set obj cleanKey value)
                end
            | Some (RObj _) =>
                value <- getSimpleFilterValue_mapping ;;
                match value with
                | VNull => Ok obj
                | _ => Ok (obj_set obj cleanKey value)
                end
            | None => Ok obj
            end)
         (obj_keys query) []).

(** The body of [getSimpleFilterValue].  The [console.log] of the
    element-match branch writes to the console and has no part in the
    result. *)
Definition getSimpleFilterValue_body (filter : string) : Outcome Value :=
  if filter =? "" then Ok VNull
  else if isJson filter then
    match JSON_parse filter with
    | Some v => Ok v
    | None => Throw SyntaxError
    end
  else if isElementMatchFilter filter then
    let first_dot_index := indexOf "}" filter in
    let operator := substring 1 first_dot_index filter in
    let value := substring_from (first_dot_index + 1) filter in
    if value =? "" then Ok VNull
    else
      let elemMatchUrlSearchParams := URLSearchParams (replaceAll "#" "&" value) in
      let constructElemMatchFilter :=
        fold_left (fun o kv => obj_set o (fst kv) (RStr (snd kv)))
                  elemMatchUrlSearchParams ([] : RawQuery) in
      sub <- snd (getFilter constructElemMatchFilter []) ;;
      Ok (VObj [("$" ++ operator, VObj sub)])
  else if isLogicalOperator filter then
    let first_dot_index := indexOf "}" filter in
    let operator := substring 1 first_dot_index filter in
    let value := substring_from (first_dot_index + 1) filter in
    v <- self value ;;
    Ok (VObj [("$" ++ operator, v)])
  else if isORFilter filter then
    l <- getMapOfOperatorsWithValues (split "|" filter) ;;
    Ok (VObj [("$or", VArr l)])
  else if isANDFilter filter then
    let queryAndValues :=
      List.filter non_empty (split "," (replaceAll "{" ",{" filter)) in
    getImplicitANDValue queryAndValues
  else if isComparisonFilter filter then
    let first_dot_index := indexOf "}" filter in
    let operator := substring 1 first_dot_index filter in
    let value := substring_from (first_dot_index + 1) filter in
    if value =? "" then Ok VNull
    else
      v <- self value ;;
      Ok (VObj [("$" ++ operator, v)])
  else if isElementFilter filter then
    let first_dot_index := indexOf "}" filter in
    let operator := substring 1 first_dot_index filter in
    let value := substring_from (first_dot_index + 1) filter in
    if value =? "" then Ok VNull
    else if operator =? "exists" then Ok (getElementExists value)
    else Ok (getElementType value)
  else if StringValidator.isISODate filter || StringValidator.isISODateTime filter then
    match Date_toISOString filter with
    | Some iso => Ok (VStr iso)
    | None => Throw RangeError
    end
  else if StringValidator.isNumberString filter then Ok (VNum (to_number filter))
  else if (filter =? "true") || (filter =? "false") then Ok (VBool (filter =? "true"))
  else if (indexOf "*" filter =? -1)%Z && negb (startsWith "{regex}" filter) then
    Ok (VStr filter)
  else
    let filter :=
      if startsWith "{regex}" filter then nth 1 (split_on "{regex}" filter) ""
      else filter in
    let value := StringUtils.cleanString filter value_junk in
    let regex :=
      if startsWith "*" filter then
        let regex := "^" ++ value in
        if endsWith "*" filter then substring_from 1 regex else regex
      else if endsWith "*" filter then value ++ "$"
      else value in
    Ok (VObj [("$regex", VStr regex); ("$options", VStr "i")]).

End Recursion.

(** [getSimpleFilterValue]: the recursion of the source, with a bound on
    its depth. *)
Fixpoint getSimpleFilterValue (fuel : nat) (filter : string) : Outcome Value :=
  match fuel with
  | O => OutOfFuel
  | S fuel' => getSimpleFilterValue_body (getSimpleFilterValue fuel') filter
  end.

(** The value classifier: a token is given more fuel than it has
    characters (which is enough, see [classify_unfold]). *)
Definition classify (filter : string) : Outcome Value :=
  getSimpleFilterValue (S (String.length filter)) filter.

(** ** Pagination, projection and sort *)

(** [getIntKey(query, key, def)].  The value may be an array or a mapping:
    the test of [StringValidator.isInt], a test on a text, is made on the
    text the value is converted to, and [+query[key]] is the number of that
    text ([+["3"]] is 3). *)
Definition getIntKey (query : RawQuery) (key : string) (def : float) : float :=
  match obj_get query key with
  | Some v =>
      if falsy (Some v) || negb (StringValidator.isInt (to_text v)) then def
      else to_integer (to_text v)
  | None => def
  end.

(** The comparison, the difference and the product are those of binary64
    numbers. *)
Definition getSkipFromPage (query : RawQuery) (def : float) (limit : float) : float :=
  let page := getIntKey query "page" def in
  if (1 <? page)%float then ((page - 1) * limit)%float else 0%float.

(** [StringUtils.splitString] is declared on strings: a [select] or [sort]
    that is an array or a mapping has no [split] to call and the call
    throws. *)
Definition getSelect (query : RawQuery) (def : Obj Value) : Outcome (Obj Value) :=
  match obj_get query "select" with
  | Some (RStr select) =>
      if falsy (Some (RStr select)) then Ok def
      else Ok (fold_left
                 (fun obj key =>
                    let cleanKey := cleanKey key in
                    obj_set obj cleanKey (VNum (if startsWith "-" key then 0%Q else 1%Q)))
                 (StringUtils.splitString select ",") [])
  | Some (RArr _) => Throw TypeError
  | Some (RObj _) => Throw TypeError
  | None => Ok def
  end.

Definition getSort (query : RawQuery) (def : Obj Value) : Outcome (Obj Value) :=
  match obj_get query "sort" with
  | Some (RStr sort) =>
      if falsy (Some (RStr sort)) then Ok def
      else Ok (fold_left
                 (fun obj key =>
                    let cleanKey := cleanKey key in
                    obj_set obj cleanKey (VNum (if startsWith "-" key then (-1)%Q else 1%Q)))
                 (StringUtils.splitString sort ",") [])
  | Some (RArr _) => Throw TypeError
  | Some (RObj _) => Throw TypeError
  | None => Ok def
  end.

(** ** [parse] *)

Record MongoQueryModel : Type := {
  limit : float;
  skip : float;
  select : Obj Value;
  sort : Obj Value;
  filter : Obj Value
}.

(** [parse(query)]: the query object as the call leaves it, and the
    outcome.  The field [populate] of the model is never assigned. *)
Definition parse (query : RawQuery) : RawQuery * Outcome MongoQueryModel :=
  let def_limit := 100%float in
  let def_skip := 0%float in
  let def_page := 1%float in
  let result_limit := getIntKey query "limit" def_limit in
  let result_skip :=
    if negb (falsy (obj_get query "page"))
    then getSkipFromPage query def_page result_limit
    else getIntKey query "skip" def_skip in
  match getSelect query [] with
  | Ok result_select =>
      match getSort query [] with
      | Ok result_sort =>
          let (query', result_filter) := getFilter classify query [] in
          (query',
           f <- result_filter ;;
           Ok {| limit := result_limit; skip := result_skip;
                 select := result_select; sort := result_sort; filter := f |})
      | Throw e => (query, Throw e)
      | OutOfFuel => (query, OutOfFuel)
      end
  | Throw e => (query, Throw e)
  | OutOfFuel => (query, OutOfFuel)
  end.

End Compiler.

(** ** The shape of a JSON text *)

(** The white space of the JSON grammar: space, tab, line feed, carriage
    return. *)
Definition json_ws (c : ascii) : bool :=
  (code c =? 32)%N || (code c =? 9)%N || (code c =? 10)%N || (code c =? 13)%N.

Fixpoint skip_ws (s : string) : string :=
  match s with
  | EmptyString => EmptyString
  | String c s' => if json_ws c then skip_ws s' else s
  end.

Definition quote : ascii := ascii_of_nat 34.

(** How the text of a JSON array or object begins: after white space, with
    [[], or with [{] followed, after white space, by a quote or by [}]. *)
Definition json_container_prefix (s : string) : bool :=
  match skip_ws s with
  | EmptyString => false
  | String c s' =>
      is_char "[" c
      || (is_char "{" c
          && match skip_ws s' with
             | EmptyString => false
             | String d _ => is_char quote d || is_char "}" d
             end)
  end.

(** A host whose parser is only asked about the texts that begin as a JSON
    array or object does. *)
Definition guarded (host : Host) : Host := {|
  JSON_parse := fun s => if json_container_prefix s then JSON_parse s else None;
  Date_toISOString := Date_toISOString;
  URLSearchParams := URLSearchParams
|}.

(** ** What the statements are written with *)

(** An operator tag, [{op}]. *)
Definition tag (op : string) : string := "{" ++ op ++ "}".

(** The number of characters of the pieces of a split. *)
Fixpoint total_length (l : list string) : nat :=
  match l with
  | [] => 0
  | s :: l' => String.length s + total_length l'
  end.

(** The number of occurrences of a character. *)
Fixpoint count_char (c : ascii) (s : string) : nat :=
  match s with
  | EmptyString => 0
  | String a s' => (if Ascii.eqb a c then 1 else 0) + count_char c s'
  end.

(** [l.filter(val => val !== '').length] *)
Definition count_non_empty (l : list string) : nat :=
  List.length (List.filter non_empty l).

(** The pieces the implicit-AND branch classifies. *)
Definition and_pieces (t : string) : list string :=
  List.filter non_empty (split "," (replaceAll "{" ",{" t)).

(** The strings of a raw query that [getFilter] hands to the classifier. *)
Definition token_of (q : RawQuery) (s : string) : Prop :=
  exists k, In (k, RStr s) q \/ exists l, In (k, RArr l) q /\ In s l.

(** The characters of the classes a pattern names. *)
Fixpoint re_alphabet (r : RegExp) (c : ascii) : bool :=
  match r with
  | ReNone | ReEps => false
  | ReClass p => p c
  | ReSeq r1 r2 | ReAlt r1 r2 => re_alphabet r1 c || re_alphabet r2 c
  | ReStar r1 => re_alphabet r1 c
  end.

(** A pattern that visibly matches nothing. *)
Fixpoint re_dead (r : RegExp) : bool :=
  match r with
  | ReNone => true
  | ReEps | ReClass _ | ReStar _ => false
  | ReSeq r1 r2 => re_dead r1 || re_dead r2
  | ReAlt r1 r2 => re_dead r1 && re_dead r2
  end.

(** The tag of an operator symbol: [{gt}] for [$gt]. *)
Definition tag_of (operator : string) : string := tag (replaceFirst "$" "" operator).

(** The entries [getFilter] leaves in the raw query. *)
Definition not_reserved (e : string * RawValue) : bool :=
  negb (existsb (String.eqb (fst e)) reserved).

(** The characters the key sanitizer lets through. *)
Definition key_char (c : ascii) : bool :=
  in_range "A" "Z" c || in_range "a" "z" c || is_digit c || is_char "_" c
  || is_char "." c || mem_char c "[\]^`".

(** The token of a wildcard, without what the pattern
    [/[^\w\s@.-}]/g] removes (the stars among it). *)
Definition wildcard_body (t : string) : string := StringUtils.cleanString t value_junk.

(** The node of a case-insensitive pattern. *)
Definition regex_node (pattern : string) : Value :=
  VObj [("$regex", VStr pattern); ("$options", VStr "i")].

(** A group [{op}value], given by its operator name and its value. *)
Definition group_text (g : string * string) : string := "{" ++ fst g ++ "}" ++ snd g.

(** The token made of the groups, one after the other. *)
Fixpoint concat_groups (gs : list (string * string)) : string :=
  match gs with
  | [] => ""
  | g :: gs' => group_text g ++ concat_groups gs'
  end.

(** [[A-Za-z]] *)
Definition is_letter (c : ascii) : bool := in_range "A" "Z" c || in_range "a" "z" c.

(** The operator name is made of letters; the value holds no brace to open
    another group and no pipe. *)
Definition group_wf (g : string * string) : bool :=
  non_empty (fst g) && all_chars is_letter (fst g)
  && negb (mem_char "{" (snd g)) && negb (mem_char "|" (snd g)).

(** Two groups or more, each of this form. *)
Definition groups_wf (gs : list (string * string)) : bool :=
  (2 <=? List.length gs)%nat && forallb group_wf gs.

(** What [split(',')] and the filter leave of a group: the group up to its
    first comma, then the pieces of its value between the commas. *)
Definition comma_pieces (g : string * string) : list string :=
  List.filter non_empty (split "," (group_text g)).

(** The operator name is made of letters; the value holds no brace to open
    another group, no comma and no pipe. *)
Definition group_ok (g : string * string) : bool :=
  non_empty (fst g) && all_chars is_letter (fst g)
  && negb (mem_char "{" (snd g)) && negb (mem_char "," (snd g))
  && negb (mem_char "|" (snd g)).

(** Two groups or more, each well formed. *)
Definition groups_ok (gs : list (string * string)) : bool :=
  (2 <=? List.length gs)%nat && forallb group_ok gs.

(** The merge of single-operator objects, one after the other. *)
Definition merge (entries : Obj Value) : Obj Value :=
  fold_left (fun acc kv => obj_set acc (fst kv) (snd kv)) entries [].

(** What an array of plain strings is merged into. *)
Definition spread (strs : list string) : Obj Value :=
  fold_left (fun acc s =>
               fold_left (fun acc kv => obj_set acc (fst kv) (snd kv)) (char_entries 0 s) acc)
            strs [].

(** The character of [s] at position [i], as the one-character string
    [s[i]]. *)
Definition char_at (i : nat) (s : string) : option Value :=
  match String.get i s with
  | Some c => Some (VStr (String c EmptyString))
  | None => None
  end.

(** The character at position [i] of the last string that is long enough. *)
Definition last_char_at (i : nat) (strs : list string) : option Value :=
  fold_left (fun r s => match char_at i s with Some v => Some v | None => r end) strs None.

(** ** A reference host

    An instance of the three built-ins, to run the compiler on: a parser of
    JSON texts (without [\u] escapes and exponents), [Date] on a host in UTC
    (the calendar is not checked), and [URLSearchParams] on texts without
    percent escapes. *)

(** The longest prefix made of the given characters, and the rest. *)
Fixpoint span (p : ascii -> bool) (s : string) : string * string :=
  match s with
  | EmptyString => (EmptyString, EmptyString)
  | String c s' =>
      if p c then let (a, b) := span p s' in (String c a, b)
      else (EmptyString, s)
  end.

(** The character an escape sequence of one letter denotes. *)
Definition unescape (c : ascii) : option ascii :=
  if is_char quote c then Some quote
  else if is_char "\" c then Some "\"%char
  else if is_char "/" c then Some "/"%char
  else if is_char "b" c then Some (ascii_of_nat 8)
  else if is_char "f" c then Some (ascii_of_nat 12)
  else if is_char "n" c then Some (ascii_of_nat 10)
  else if is_char "r" c then Some (ascii_of_nat 13)
  else if is_char "t" c then Some (ascii_of_nat 9)
  else None.

(** A JSON string, read from behind its opening quote. *)
Fixpoint json_string (s : string) : option (string * string) :=
  match s with
  | EmptyString => None
  | String c s' =>
      if is_char quote c then Some (EmptyString, s')
      else if is_char "\" c then
        match s' with
        | String e s'' =>
            match unescape e, json_string s'' with
            | Some ch, Some (str, rest) => Some (String ch str, rest)
            | _, _ => None
            end
        | EmptyString => None
        end
      else if (code c <? 32)%N then None
      else match json_string s' with
           | Some (str, rest) => Some (String c str, rest)
           | None => None
           end
  end.

(** A JSON number without exponent: an optional minus, an integer part
    without leading zeros, an optional fraction. *)
Definition number_pattern : RegExp :=
  ReSeq (ReOpt (ReChar "-"))
    (ReSeq (ReAlt (ReChar "0") (ReSeq (ReClass (in_range "1" "9")) (ReStar StringValidator.digit)))
       (ReOpt (ReSeq (ReChar ".") (RePlus StringValidator.digit)))).

Definition json_number (s : string) : option (Value * string) :=
  let (text, rest) := span (fun c => is_digit c || is_char "-" c || is_char "." c) s in
  if re_match number_pattern text
  then Some (VNum (if startsWith "-" text then Qopp (to_number text) else to_number text), rest)
  else None.

(** A JSON value that is no array and no object. *)
Definition json_scalar (s : string) : option (Value * string) :=
  match s with
  | EmptyString => None
  | String c s' =>
      if is_char quote c then
        match json_string s' with
        | Some (str, rest) => Some (VStr str, rest)
        | None => None
        end
      else if startsWith "true" s then Some (VBool true, substring_from 4 s)
      else if startsWith "false" s then Some (VBool false, substring_from 5 s)
      else if startsWith "null" s then Some (VNull, substring_from 4 s)
      else json_number s
  end.

Fixpoint json_value (fuel : nat) (s : string) {struct fuel} : option (Value * string) :=
  match fuel with
  | O => None
  | S fuel' =>
      match skip_ws s with
      | EmptyString => None
      | String c s' =>
          if is_char "[" c then
            match skip_ws s' with
            | EmptyString => None
            | String d s'' =>
                if is_char "]" d then Some (VArr [], s'')
                else match json_elements fuel' s' with
                     | Some (l, r) => Some (VArr l, r)
                     | None => None
                     end
            end
          else if is_char "{" c then
            match skip_ws s' with
            | EmptyString => None
            | String d s'' =>
                if is_char "}" d then Some (VObj [], s'')
                else if is_char quote d then
                  match json_members fuel' s'' with
                  | Some (m, r) =>
                      Some (VObj (fold_left (fun o kv => obj_define o (fst kv) (snd kv)) m []), r)
                  | None => None
                  end
                else None
            end
          else json_scalar (String c s')
      end
  end
with json_elements (fuel : nat) (s : string) {struct fuel} : option (list Value * string) :=
  match fuel with
  | O => None
  | S fuel' =>
      match json_value fuel' s with
      | Some (v, r) =>
          match skip_ws r with
          | EmptyString => None
          | String d r' =>
              if is_char "," d then
                match json_elements fuel' r' with
                | Some (l, r'') => Some (v :: l, r'')
                | None => None
                end
              else if is_char "]" d then Some ([v], r')
              else None
          end
      | None => None
      end
  end
with json_members (fuel : nat) (s : string) {struct fuel}
  : option (list (string * Value) * string) :=
  match fuel with
  | O => None
  | S fuel' =>
      match json_string s with
      | Some (key, r) =>
          match skip_ws r with
          | EmptyString => None
          | String d r' =>
              if is_char ":" d then
                match json_value fuel' r' with
                | Some (v, r2) =>
                    match skip_ws r2 with
                    | EmptyString => None
                    | String e r3 =>
                        if is_char "," e then
                          match skip_ws r3 with
                          | EmptyString => None
                          | String q r4 =>
                              if is_char quote q then
                                match json_members fuel' r4 with
                                | Some (m, r5) => Some ((key, v) :: m, r5)
                                | None => None
                                end
                              else None
                          end
                        else if is_char "}" e then Some ([(key, v)], r3)
                        else None
                    end
                | None => None
                end
              else None
          end
      | None => None
      end
  end.

Definition JSON_parse_ref (s : string) : option Value :=
  match json_value (2 * String.length s + 2) s with
  | Some (v, r) =>
      match skip_ws r with
      | EmptyString => Some v
      | String _ _ => None
      end
  | None => None
  end.

(** The first three digits of a fraction of a second. *)
Definition milliseconds (fraction : string) : string :=
  String.substring 0 3 (fraction ++ "000").

Definition Date_toISOString_ref (s : string) : option string :=
  if StringValidator.isISODate s then Some (s ++ "T00:00:00.000Z")
  else if StringValidator.isISODateTime s then
    Some (String.substring 0 19 s ++ "."
          ++ milliseconds (fst (span is_digit (String.substring 20 (String.length s) s)))
          ++ "Z")
  else None.

(** The text before the first [c], and the text behind it. *)
Fixpoint before_char (c : ascii) (s : string) : string :=
  match s with
  | EmptyString => EmptyString
  | String a s' => if Ascii.eqb a c then EmptyString else String a (before_char c s')
  end.

Fixpoint after_char (c : ascii) (s : string) : string :=
  match s with
  | EmptyString => EmptyString
  | String a s' => if Ascii.eqb a c then s' else after_char c s'
  end.

Definition URLSearchParams_ref (s : string) : list (string * string) :=
  map (fun pair =>
         let pair := replaceAll "+" " " pair in
         (before_char "=" pair, after_char "=" pair))
      (List.filter non_empty (split "&" s)).

(** The reference host. *)
Definition reference_host : Host := {|
  JSON_parse := JSON_parse_ref;
  Date_toISOString := Date_toISOString_ref;
  URLSearchParams := URLSearchParams_ref
|}.

(** ** The functions of the source that [parse] does not reach *)

(** [getArrayValue(key, filter)], for the classifier [self].  An object
    literal with a computed key defines that key as an own property,
    whatever it is. *)
Definition getArrayValue (self : string -> Outcome Value) (key : string)
           (filter : list string) : Outcome (list Value) :=
  match filter with
  | [] => Ok []
  | _ =>
      let cleanKey := cleanKey key in
      mapM (fun item => v <- self item ;; Ok (VObj (obj_define [] cleanKey v))) filter
  end.

(** The two classes of [/^([{\w\s@.\-}]{1,}[{\w@.\-}])$/]; the dash is
    escaped and stands for itself. *)
Definition simple_class (c : ascii) : bool :=
  is_char "{" c || is_word c || is_space c || is_char "@" c || is_char "." c
  || is_char "-" c || is_char "}" c.

Definition simple_last_class (c : ascii) : bool :=
  is_char "{" c || is_word c || is_char "@" c || is_char "." c
  || is_char "-" c || is_char "}" c.

Definition simple_pattern : RegExp :=
  ReSeq (RePlus (ReClass simple_class)) (ReClass simple_last_class).

Definition isSimpleFilter (value : string) : bool :=
  StringUtils.testString value simple_pattern.

Section Populate.

Context {host : Host}.

(** [url.parse(`?${filter}`, true).query]: the decoded query object of the
    text [filter], with an array for a key that occurs more than once. *)
Variable url_query : string -> RawQuery.

(** [getPopulate({ populate }, def)] for a string [populate]: what the
    source does behind its test for an array. *)
Definition getPopulate_string (populate : string) (def : list Value) : Outcome Value :=
  if populate =? "" then Ok (VArr def)
  else
    let parts := split ";" populate in
    let path := nth 0 parts "" in
    let result := [("path", VStr path)] in
    result <-
      match nth_error parts 1 with
      | Some select =>
          if negb (select =? "") && negb (select =? "all") then
            projection <- getSelect [("select", RStr select)] [] ;;
            Ok (obj_set result "select" (VObj projection))
          else Ok result
      | None => Ok result
      end ;;
    result <-
      match nth_error parts 2 with
      | Some filter =>
          if negb (filter =? "") then
            matched <- snd (getFilter classify (url_query filter) []) ;;
            Ok (obj_set result "match" (VObj matched))
          else Ok result
      | None => Ok result
      end ;;
    Ok (VObj result).

(** [getPopulate(query, def)].  The elements of an array are strings, so the
    recursive call on each of them is [getPopulate_string]; a mapping has no
    [split] to call. *)
Definition getPopulate (query : RawQuery) (def : list Value) : Outcome Value :=
  match obj_get query "populate" with
  | None => Ok (VArr def)
  | Some (RStr populate) => getPopulate_string populate def
  | Some (RArr populates) =>
      results <- mapM (fun populate => getPopulate_string populate def) populates ;;
      Ok (VArr results)
  | Some (RObj _) => Throw TypeError
  end.

End Populate.

(** ** The language of a pattern *)

(** The texts a pattern matches. *)
Inductive re_lang : RegExp -> string -> Prop :=
| lang_eps : re_lang ReEps ""
| lang_class (p : ascii -> bool) (c : ascii) :
    p c = true -> re_lang (ReClass p) (String c "")
| lang_seq (r1 r2 : RegExp) (s1 s2 : string) :
    re_lang r1 s1 -> re_lang r2 s2 -> re_lang (ReSeq r1 r2) (s1 ++ s2)
| lang_alt_l (r1 r2 : RegExp) (s : string) :
    re_lang r1 s -> re_lang (ReAlt r1 r2) s
| lang_alt_r (r1 r2 : RegExp) (s : string) :
    re_lang r2 s -> re_lang (ReAlt r1 r2) s
| lang_star_nil (r : RegExp) : re_lang (ReStar r) ""
| lang_star_cons (r : RegExp) (s1 s2 : string) :
    re_lang r s1 -> re_lang (ReStar r) s2 -> re_lang (ReStar r) (s1 ++ s2).

(** One character or more of the first class, then one of the second. *)
Fixpoint chars_then_last (p q : ascii -> bool) (s : string) : bool :=
  match s with
  | EmptyString => false
  | String a s' =>
      match s' with
      | EmptyString => false
      | String b EmptyString => p a && q b
      | String _ (String _ _) => p a && chars_then_last p q s'
      end
  end.

(** White space, or a character from [.] to [}]. *)
Definition or_char (c : ascii) : bool := is_space c || in_range "." "}" c.

(** A field of a projection or of a sort order: whether it is written with
    a dash in front, and its name. *)
Definition field_text (f : bool * string) : string :=
  (if fst f then "-" else "") ++ snd f.

(** [fields.join(",")] *)
Definition fields_text (fields : list (bool * string)) : string :=
  join "," (map field_text fields).

(** A name the key sanitizer leaves as it is and that an assignment
    defines. *)
Definition field_name_ok (name : string) : bool :=
  all_chars key_char name && negb (name =? "__proto__").

(** A value without own properties: [Object.keys] gives the empty list. *)
Definition keyless (v : Value) : bool :=
  match own_entries v with
  | Ok [] => true
  | _ => false
  end.

(** A text the classifier has no rule for: not empty, without brace,
    bracket, pipe and star, no date, no number and no boolean. *)
Definition plain_text (t : string) : bool :=
  non_empty t
  && negb (mem_char "{" t) && negb (mem_char "[" t)
  && negb (mem_char "|" t) && negb (mem_char "*" t)
  && negb (StringValidator.isISODate t || StringValidator.isISODateTime t)
  && negb (StringValidator.isNumberString t)
  && negb ((t =? "true") || (t =? "false")).

(** The pattern of a token whose stars say where it is anchored. *)
Definition anchored (t : string) : string :=
  if startsWith "*" t
  then if endsWith "*" t then wildcard_body t else "^" ++ wildcard_body t
  else if endsWith "*" t then wildcard_body t ++ "$" else wildcard_body t.

(** The object [constructElemMatchFilter]: the entries of the parameters,
    assigned one after the other. *)
Definition params_object (params : list (string * string)) : RawQuery :=
  fold_left (fun o kv => obj_set o (fst kv) (RStr (snd kv))) params [].

(** A query without nested mappings: its values are texts and arrays of
    texts. *)
Definition flat (q : RawQuery) : Prop := forall key mapping, ~ In (key, RObj mapping) q.

(** Whether a text holds a character other than [c]. *)
Definition has_other (c : ascii) (s : string) : bool := negb (all_chars (is_char c) s).

(** * Properties *)

(** ** Strings *)

Lemma length_append (a b : string) :
  String.length (a ++ b) = String.length a + String.length b.
Proof. induction a as [|c a IH]; simpl; [reflexivity | now rewrite IH]. Qed.

Lemma prefix_app (p t : string) :
  String.prefix p t = true -> exists r, t = p ++ r.
Proof.
  revert t; induction p as [|a p IH]; intros t H.
  - exists t; reflexivity.
  - destruct t as [|b t]; simpl in H; [discriminate|].
    destruct (ascii_dec a b) as [->|]; [|discriminate].
    destruct (IH _ H) as [r ->]. exists r; reflexivity.
Qed.

Lemma substring_all (r : string) : String.substring 0 (String.length r) r = r.
Proof. induction r as [|c r IH]; simpl; [reflexivity | now rewrite IH]. Qed.

Lemma substring_skip (p r : string) (n : nat) :
  String.substring (String.length p) n (p ++ r) = String.substring 0 n r.
Proof. induction p as [|c p IH]; simpl; [reflexivity | apply IH]. Qed.

Lemma substring_take (p r : string) :
  String.substring 0 (String.length p) (p ++ r) = p.
Proof.
  induction p as [|c p IH]; simpl; [now destruct r | now rewrite IH].
Qed.

Lemma indexOf_ge (c : ascii) (s : string) : (-1 <= indexOf c s)%Z.
Proof.
  induction s as [|a s IH]; simpl; [lia|].
  destruct (Ascii.eqb a c); [lia|].
  destruct (Z.ltb_spec (indexOf c s) 0); lia.
Qed.

Lemma indexOf_mem (c : ascii) (s : string) :
  (indexOf c s =? -1)%Z = negb (mem_char c s).
Proof.
  induction s as [|a s IH]; simpl; [reflexivity|].
  destruct (Ascii.eqb a c); simpl; [reflexivity|].
  pose proof (indexOf_ge c s).
  destruct (Z.ltb_spec (indexOf c s) 0).
  - rewrite <- IH. symmetry. apply Z.eqb_eq. lia.
  - rewrite <- IH.
    destruct (Z.eqb_spec (indexOf c s + 1) (-1)); destruct (Z.eqb_spec (indexOf c s) (-1)); lia.
Qed.

Lemma indexOf_app (c : ascii) (p r : string) :
  mem_char c p = false ->
  indexOf c (p ++ String c r) = Z.of_nat (String.length p).
Proof.
  induction p as [|a p IH]; simpl; intros H.
  - now rewrite Ascii.eqb_refl.
  - apply orb_false_iff in H as [Ha Hp]. rewrite Ha, (IH Hp).
    destruct (Z.ltb_spec (Z.of_nat (String.length p)) 0); lia.
Qed.

(** A token that starts with a tag: what [indexOf('}')] and the two
    [substring]s of the source extract from it. *)
Lemma tag_split (op t : string) :
  mem_char "}" op = false ->
  startsWith (tag op) t = true ->
  exists r, t = tag op ++ r
            /\ substring 1 (indexOf "}" t) t = op
            /\ substring_from (indexOf "}" t + 1) t = r.
Proof.
  intros Hop H. destruct (prefix_app _ _ H) as [r ->]. exists r.
  split; [reflexivity|].
  assert (Hi : indexOf "}" (tag op ++ r) = Z.of_nat (S (String.length op))).
  { unfold tag. simpl.
    replace (op ++ "}" ++ r) with (op ++ String "}" r) by reflexivity.
    replace ((op ++ "}") ++ r) with (op ++ String "}" r).
    2:{ clear. induction op; simpl; [reflexivity | now rewrite IHop]. }
    rewrite (indexOf_app _ _ _ Hop).
    destruct (Z.ltb_spec (Z.of_nat (String.length op)) 0); lia. }
  rewrite Hi.
  assert (Hl : String.length (tag op ++ r) = S (S (String.length op + String.length r))).
  { unfold tag. simpl. rewrite !length_append. simpl. lia. }
  assert (Ht : tag op ++ r = String "{" (op ++ String "}" r)).
  { unfold tag. simpl. f_equal. clear. induction op; simpl; [reflexivity | now rewrite IHop]. }
  split.
  - unfold substring, clamp. rewrite Hl.
    rewrite Nat2Z.id. change (Z.to_nat 1) with 1.
    rewrite !Nat.min_l by lia. rewrite Nat.max_r by lia.
    replace (S (String.length op) - 1) with (String.length op) by lia.
    rewrite Ht. simpl. apply substring_take.
  - unfold substring_from, clamp. rewrite Hl.
    replace (Z.to_nat (Z.of_nat (S (String.length op)) + 1)) with (S (S (String.length op))) by lia.
    rewrite Nat.min_l by lia.
    replace (S (S (String.length op + String.length r)) - S (S (String.length op)))
      with (String.length r) by lia.
    rewrite Ht. simpl.
    replace (op ++ String "}" r) with ((op ++ "}") ++ r).
    2:{ clear. induction op; simpl; [reflexivity | now rewrite IHop]. }
    replace (S (String.length op)) with (String.length (op ++ "}")).
    2:{ rewrite length_append. simpl. lia. }
    rewrite substring_skip. apply substring_all.
Qed.

(** ** Splitting *)

Lemma total_length_cons_head (a : ascii) (l : list string) :
  total_length (cons_head a l) = S (total_length l).
Proof. destruct l; reflexivity. Qed.

Lemma split_not_nil (c : ascii) (t : string) : split c t <> [].
Proof.
  induction t as [|a t IH]; simpl; [discriminate|].
  destruct (Ascii.eqb a c); [discriminate|].
  destruct (split c t); [congruence | discriminate].
Qed.

Lemma split_total_length (c : ascii) (t : string) :
  total_length (split c t) + count_char c t = String.length t.
Proof.
  induction t as [|a t IH]; simpl; [reflexivity|].
  destruct (Ascii.eqb a c); simpl.
  - lia.
  - rewrite total_length_cons_head. lia.
Qed.

Lemma count_char_mem (c : ascii) (t : string) :
  mem_char c t = true -> 0 < count_char c t.
Proof.
  induction t as [|a t IH]; simpl; [discriminate|].
  destruct (Ascii.eqb a c); simpl; [lia | auto].
Qed.

Lemma In_total_length (s : string) (l : list string) :
  In s l -> String.length s <= total_length l.
Proof.
  induction l as [|x l IH]; simpl; [tauto|].
  intros [->|H]; [lia | specialize (IH H); lia].
Qed.

(** A piece of [t.split(c)] is shorter than [t] once [c] occurs in [t]. *)
Lemma split_shorter (c : ascii) (t s : string) :
  mem_char c t = true -> In s (split c t) -> String.length s < String.length t.
Proof.
  intros Hm Hin. apply In_total_length in Hin.
  pose proof (split_total_length c t). pose proof (count_char_mem _ _ Hm). lia.
Qed.

Lemma non_empty_length (s : string) :
  (if non_empty s then 1 else 0) <= String.length s.
Proof. destruct s; simpl; lia. Qed.

Lemma count_non_empty_total (l : list string) :
  count_non_empty l <= total_length l.
Proof.
  unfold count_non_empty. induction l as [|x l IH]; simpl; [lia|].
  pose proof (non_empty_length x). destruct (non_empty x); simpl in *; lia.
Qed.

Lemma In_two_non_empty (s : string) (l : list string) :
  2 <= count_non_empty l -> In s l -> String.length s < total_length l.
Proof.
  intros H2 Hin.
  enough (String.length s + count_non_empty l
          <= total_length l + (if non_empty s then 1 else 0)).
  { destruct (non_empty s); lia. }
  clear H2. induction l as [|x l IH]; simpl in *; [tauto|].
  unfold count_non_empty in *. simpl.
  destruct Hin as [->|Hin].
  - pose proof (count_non_empty_total l). unfold count_non_empty in *.
    destruct (non_empty s); simpl; lia.
  - specialize (IH Hin). pose proof (non_empty_length x).
    destruct (non_empty x); simpl in *; lia.
Qed.

Lemma and_split_total (t : string) :
  total_length (split "," (replaceAll "{" ",{" t)) + count_char "," t = String.length t.
Proof.
  induction t as [|a t IH]; [reflexivity|].
  cbn [replaceAll count_char String.length].
  destruct (Ascii.eqb_spec a "{") as [->|Hb].
  - simpl. rewrite total_length_cons_head. lia.
  - cbn [split]. destruct (Ascii.eqb a ","); simpl.
    + lia.
    + rewrite total_length_cons_head. lia.
Qed.

Lemma and_split_no_comma (t : string) :
  mem_char "," t = false ->
  split "," (replaceAll "{" ",{" t)
  = match split "{" t with
    | h :: tl => h :: map (String "{") tl
    | [] => []
    end.
Proof.
  induction t as [|a t IH]; [reflexivity|].
  cbn [mem_char replaceAll]. intros H. apply orb_false_iff in H as [Ha Ht].
  specialize (IH Ht). pose proof (split_not_nil "{" t) as Hn.
  destruct (Ascii.eqb_spec a "{") as [->|Hb].
  - simpl. rewrite IH. destruct (split "{" t); [congruence | reflexivity].
  - cbn [split]. rewrite Ha.
    destruct (Ascii.eqb_spec a "{"); [congruence|].
    rewrite IH. destruct (split "{" t); [congruence | reflexivity].
Qed.

Lemma count_non_empty_braces (h : string) (tl : list string) :
  count_non_empty (h :: tl) <= count_non_empty (h :: map (String "{") tl).
Proof.
  unfold count_non_empty. simpl.
  assert (List.length (List.filter non_empty tl)
          <= List.length (List.filter non_empty (map (String "{") tl))).
  { induction tl as [|x tl IH]; simpl; [lia|]. destruct (non_empty x); simpl; lia. }
  destruct (non_empty h); simpl; lia.
Qed.

(** Every piece of the implicit-AND split is shorter than the token. *)
Lemma and_pieces_shorter (t s : string) :
  isANDFilter t = true -> In s (and_pieces t) -> String.length s < String.length t.
Proof.
  unfold isANDFilter, and_pieces. intros Ha Hin.
  apply filter_In in Hin as [Hin _].
  destruct (indexOf "{" t =? -1)%Z; [discriminate|].
  apply Nat.ltb_lt in Ha.
  pose proof (and_split_total t) as Ht.
  destruct (mem_char "," t) eqn:Hc.
  - apply In_total_length in Hin. pose proof (count_char_mem _ _ Hc). lia.
  - rewrite (and_split_no_comma _ Hc) in *.
    pose proof (split_not_nil "{" t).
    destruct (split "{" t) as [|h tl]; [congruence|].
    pose proof (count_non_empty_braces h tl). unfold count_non_empty in *.
    enough (String.length s < total_length (h :: map (String "{") tl)) by lia.
    apply In_two_non_empty; [unfold count_non_empty; lia | assumption].
Qed.

Lemma length_replaceAll_char (c d : ascii) (s : string) :
  String.length (replaceAll c (String d EmptyString) s) = String.length s.
Proof.
  induction s as [|a s IH]; simpl; [reflexivity|].
  destruct (Ascii.eqb a c); simpl; now rewrite IH.
Qed.

(** ** Objects *)

Lemma obj_get_In {A} (o : Obj A) (k : string) (v : A) :
  obj_get o k = Some v -> In (k, v) o.
Proof.
  induction o as [|[k' v'] o IH]; simpl; [discriminate|].
  destruct (String.eqb_spec k' k) as [->|]; intros H.
  - injection H as ->. now left.
  - right; auto.
Qed.

Lemma obj_delete_In {A} (o : Obj A) (k : string) (e : string * A) :
  In e (obj_delete o k) -> In e o.
Proof.
  induction o as [|[k' v'] o IH]; simpl; [tauto|].
  destruct (k' =? k); simpl; intuition.
Qed.

Lemma obj_delete_all_In {A} (ks : list string) (o : Obj A) (e : string * A) :
  In e (fold_left (fun q k => obj_delete q k) ks o) -> In e o.
Proof.
  revert o; induction ks as [|k ks IH]; simpl; intros o H; [assumption|].
  eapply obj_delete_In, IH, H.
Qed.

Lemma obj_replace_In {A} (o : Obj A) (k : string) (v : A) (e : string * A) :
  In e (obj_replace o k v) -> e = (k, v) \/ In e o.
Proof.
  induction o as [|[k' v'] o IH]; simpl; [tauto|].
  destruct (String.eqb_spec k' k) as [->|]; simpl; intuition.
Qed.

Lemma obj_insert_index_In {A} (o : Obj A) (n : N) (k : string) (v : A) (e : string * A) :
  In e (obj_insert_index o n k v) -> e = (k, v) \/ In e o.
Proof.
  induction o as [|[k' v'] o IH]; simpl; [intuition|].
  destruct (array_index k') as [n'|]; [destruct (n' <? n)%N|]; simpl; intuition.
Qed.

Lemma obj_define_In {A} (o : Obj A) (k : string) (v : A) (e : string * A) :
  In e (obj_define o k v) -> e = (k, v) \/ In e o.
Proof.
  unfold obj_define. destruct (obj_get o k).
  - apply obj_replace_In.
  - destruct (array_index k).
    + apply obj_insert_index_In.
    + intros H. apply in_app_or in H as [H|[H|[]]]; auto.
Qed.

Lemma obj_set_In {A} (o : Obj A) (k : string) (v : A) (e : string * A) :
  In e (obj_set o k v) -> e = (k, v) \/ In e o.
Proof.
  unfold obj_set. destruct (k =? "__proto__"); [tauto | apply obj_define_In].
Qed.

(** The values of the object built from the entries of a [URLSearchParams]
    are values of these entries. *)
Lemma params_object_In (params : list (string * string)) (o : RawQuery)
      (k : string) (v : RawValue) :
  In (k, v) (fold_left (fun o kv => obj_set o (fst kv) (RStr (snd kv))) params o) ->
  In (k, v) o \/ exists s, v = RStr s /\ In (k, s) params.
Proof.
  revert o; induction params as [|[k' s'] params IH]; simpl; intros o H; [now left|].
  apply IH in H as [H|(s & -> & H)].
  - apply obj_set_In in H as [H|H]; [|now left].
    injection H as -> ->. right. exists s'. auto.
  - right. exists s. auto.
Qed.

(** ** Traversals *)

Lemma mapM_ext {A B} (f g : A -> Outcome B) (l : list A) :
  (forall a, In a l -> f a = g a) -> mapM f l = mapM g l.
Proof.
  induction l as [|a l IH]; simpl; intros H; [reflexivity|].
  rewrite (H a) by auto. rewrite IH by auto. reflexivity.
Qed.

Lemma foldM_ext {A B} (f g : B -> A -> Outcome B) (l : list A) (init : B) :
  (forall b a, In a l -> f b a = g b a) -> foldM f l init = foldM g l init.
Proof.
  revert init; induction l as [|a l IH]; simpl; intros init H; [reflexivity|].
  rewrite (H init a) by auto. destruct (g init a); simpl; auto.
Qed.

Lemma getImplicitANDValue_ext (f g : string -> Outcome Value) (l : list string) :
  (forall s, In s l -> f s = g s) -> getImplicitANDValue f l = getImplicitANDValue g l.
Proof.
  intros H. unfold getImplicitANDValue, getMapOfOperatorsWithValues.
  now rewrite (mapM_ext f g l H).
Qed.

Lemma getFilter_ext {host : Host} (f g : string -> Outcome Value) (q : RawQuery)
      (def : Obj Value) :
  (forall s, token_of q s -> f s = g s) -> getFilter f q def = getFilter g q def.
Proof.
  intros H. unfold getFilter. f_equal.
  apply foldM_ext. intros obj key _.
  destruct (obj_get _ key) as [[s|l|o]|] eqn:Hg; [| |reflexivity|reflexivity].
  - apply obj_get_In, obj_delete_all_In in Hg.
    rewrite (H s); [reflexivity|]. exists key. now left.
  - apply obj_get_In, obj_delete_all_In in Hg.
    rewrite (getImplicitANDValue_ext f g l); [reflexivity|].
    intros s Hs. apply H. exists key. right. exists l. auto.
Qed.

(** ** Regular expressions: the characters a match is made of *)

Lemma re_dead_nullable (r : RegExp) : re_dead r = true -> nullable r = false.
Proof.
  induction r; simpl; try discriminate; auto.
  - rewrite orb_true_iff. intros [H|H]; [rewrite IHr1 | rewrite IHr2]; auto.
    apply andb_false_r.
  - rewrite andb_true_iff. intros [H1 H2]. now rewrite IHr1, IHr2.
Qed.

Lemma re_dead_deriv (c : ascii) (r : RegExp) : re_dead r = true -> re_dead (deriv c r) = true.
Proof.
  induction r; simpl; try discriminate; auto.
  - rewrite orb_true_iff. intros [H|H].
    + rewrite (re_dead_nullable _ H). simpl. now rewrite IHr1.
    + destruct (nullable r1); simpl; rewrite ?IHr2, ?H, ?orb_true_r; auto.
  - rewrite andb_true_iff. intros [H1 H2]. now rewrite IHr1, IHr2.
Qed.

Lemma re_dead_match (r : RegExp) (s : string) : re_dead r = true -> re_match r s = false.
Proof.
  revert r; induction s as [|a s IH]; simpl; intros r H.
  - now apply re_dead_nullable.
  - apply IH. now apply re_dead_deriv.
Qed.

Lemma re_deriv_outside (c : ascii) (r : RegExp) :
  re_alphabet r c = false -> re_dead (deriv c r) = true.
Proof.
  induction r; simpl; auto.
  - intros ->. reflexivity.
  - rewrite orb_false_iff. intros [H1 H2].
    destruct (nullable r1); simpl; rewrite IHr1; auto.
  - rewrite orb_false_iff. intros [H1 H2]. now rewrite IHr1, IHr2.
  - intros H. now rewrite IHr.
Qed.

Lemma re_alphabet_deriv (c d : ascii) (r : RegExp) :
  re_alphabet (deriv c r) d = true -> re_alphabet r d = true.
Proof.
  induction r; simpl; auto.
  - destruct (p c); discriminate.
  - destruct (nullable r1); simpl; rewrite !orb_true_iff; intuition.
  - rewrite !orb_true_iff; intuition.
  - rewrite !orb_true_iff; intuition.
Qed.

(** Every character of a text a pattern matches is of a class the pattern
    names. *)
Lemma re_match_alphabet (r : RegExp) (s : string) (c : ascii) :
  re_match r s = true -> mem_char c s = true -> re_alphabet r c = true.
Proof.
  revert r; induction s as [|a s IH]; simpl; intros r Hm Hc; [discriminate|].
  destruct (Ascii.eqb_spec a c) as [->|Hn]; simpl in Hc.
  - destruct (re_alphabet r c) eqn:E; [reflexivity|].
    rewrite (re_dead_match _ s (re_deriv_outside _ _ E)) in Hm. discriminate.
  - eapply re_alphabet_deriv, IH; eauto.
Qed.

(** ** Objects: reading after writing *)

Lemma obj_get_replace_same {A} (o : Obj A) (k : string) (v : A) :
  obj_get o k <> None -> obj_get (obj_replace o k v) k = Some v.
Proof.
  induction o as [|[k' v'] o IH]; simpl; [congruence|].
  destruct (String.eqb_spec k' k) as [->|Hn]; simpl.
  - now rewrite String.eqb_refl.
  - intros H. destruct (String.eqb_spec k' k); [congruence | auto].
Qed.

Lemma obj_get_replace_other {A} (o : Obj A) (k k' : string) (v : A) :
  k' <> k -> obj_get (obj_replace o k v) k' = obj_get o k'.
Proof.
  intros Hn. induction o as [|[k0 v0] o IH]; simpl; [reflexivity|].
  destruct (String.eqb_spec k0 k) as [->|]; simpl.
  - destruct (String.eqb_spec k k'); [congruence | reflexivity].
  - now rewrite IH.
Qed.

Lemma obj_get_insert_same {A} (o : Obj A) (n : N) (k : string) (v : A) :
  obj_get o k = None -> obj_get (obj_insert_index o n k v) k = Some v.
Proof.
  induction o as [|[k' v'] o IH]; simpl.
  - now rewrite String.eqb_refl.
  - destruct (String.eqb_spec k' k) as [->|Hn]; [discriminate|]. intros H.
    destruct (array_index k') as [n'|]; [destruct (n' <? n)%N|]; simpl;
      rewrite ?String.eqb_refl; auto.
    destruct (String.eqb_spec k' k); [congruence | auto].
Qed.

Lemma obj_get_insert_other {A} (o : Obj A) (n : N) (k k' : string) (v : A) :
  k' <> k -> obj_get (obj_insert_index o n k v) k' = obj_get o k'.
Proof.
  intros Hn. induction o as [|[k0 v0] o IH]; simpl.
  - destruct (String.eqb_spec k k'); [congruence | reflexivity].
  - destruct (array_index k0) as [n'|]; [destruct (n' <? n)%N|]; simpl;
      rewrite ?IH; try reflexivity;
      destruct (String.eqb_spec k k'); congruence.
Qed.

Lemma obj_get_app {A} (o o' : Obj A) (k : string) :
  obj_get (o ++ o')%list k
  = match obj_get o k with Some v => Some v | None => obj_get o' k end.
Proof.
  induction o as [|[k0 v0] o IH]; simpl; [reflexivity|].
  destruct (k0 =? k); auto.
Qed.

(** [o[k] = v; o[k]] gives [v], for every key but [__proto__]. *)
Lemma obj_get_set_same {A} (o : Obj A) (k : string) (v : A) :
  k <> "__proto__" -> obj_get (obj_set o k v) k = Some v.
Proof.
  intros Hp. unfold obj_set, obj_define.
  destruct (String.eqb_spec k "__proto__"); [congruence|].
  destruct (obj_get o k) eqn:E.
  - apply obj_get_replace_same. congruence.
  - destruct (array_index k).
    + now apply obj_get_insert_same.
    + rewrite obj_get_app, E. simpl. now rewrite String.eqb_refl.
Qed.

(** [o[k] = v] leaves the other properties as they are. *)
Lemma obj_get_set_other {A} (o : Obj A) (k k' : string) (v : A) :
  k' <> k -> obj_get (obj_set o k v) k' = obj_get o k'.
Proof.
  intros Hn. unfold obj_set, obj_define.
  destruct (k =? "__proto__"); [reflexivity|].
  destruct (obj_get o k).
  - now apply obj_get_replace_other.
  - destruct (array_index k).
    + now apply obj_get_insert_other.
    + rewrite obj_get_app. simpl.
      destruct (String.eqb_spec k k'); [congruence|]. now destruct (obj_get o k').
Qed.

(** Deleting keys keeps the other entries, in their order. *)
Lemma obj_delete_filter {A} (o : Obj A) (k : string) :
  obj_delete o k = List.filter (fun e => negb (fst e =? k)) o.
Proof.
  induction o as [|[k' v'] o IH]; simpl; [reflexivity|].
  destruct (k' =? k); simpl; now rewrite IH.
Qed.

Lemma filter_filter {A} (p q : A -> bool) (l : list A) :
  List.filter p (List.filter q l) = List.filter (fun a => q a && p a) l.
Proof.
  induction l as [|a l IH]; simpl; [reflexivity|].
  destruct (q a); simpl; [destruct (p a)|]; now rewrite IH.
Qed.

Lemma obj_delete_all_filter {A} (ks : list string) (o : Obj A) :
  fold_left (fun q k => obj_delete q k) ks o
  = List.filter (fun e => negb (existsb (String.eqb (fst e)) ks)) o.
Proof.
  revert o; induction ks as [|k ks IH]; intros o; simpl.
  - induction o as [|a o IHo]; simpl; [reflexivity | now rewrite <- IHo].
  - rewrite IH, obj_delete_filter, filter_filter.
    apply filter_ext. intros [k' v']. simpl. now rewrite negb_orb.
Qed.

Lemma obj_get_filter {A} (p : string -> bool) (o : Obj A) (k : string) :
  obj_get (List.filter (fun e => p (fst e)) o) k = if p k then obj_get o k else None.
Proof.
  induction o as [|[k' v'] o IH]; simpl; [now destruct (p k)|].
  destruct (p k') eqn:Ek'; simpl.
  - destruct (String.eqb_spec k' k) as [->|]; [now rewrite Ek' | exact IH].
  - destruct (String.eqb_spec k' k) as [->|]; [now rewrite IH, Ek' | exact IH].
Qed.

(** ** [getFilter] on a query of one key *)

Lemma getFilter_one_string {host : Host} (f : string -> Outcome Value) (key s : string)
      (def : Obj Value) :
  existsb (String.eqb key) reserved = false ->
  getFilter f [(key, RStr s)] def
  = ([(key, RStr s)],
     value <- f s ;;
     match value with
     | VNull => Ok []
     | _ => Ok (obj_set [] (cleanKey key) value)
     end).
Proof.
  intros Hk. unfold getFilter. rewrite obj_delete_all_filter.
  cbn [List.filter fst]. rewrite Hk. cbn [negb obj_keys map fst foldM obj_get].
  rewrite String.eqb_refl. f_equal.
  destruct (f s) as [[]| |]; reflexivity.
Qed.

Lemma getFilter_one_array {host : Host} (f : string -> Outcome Value) (key : string)
      (l : list string) (def : Obj Value) :
  existsb (String.eqb key) reserved = false ->
  getFilter f [(key, RArr l)] def
  = ([(key, RArr l)],
     v <- getImplicitANDValue f l ;; Ok (obj_set [] (cleanKey key) v)).
Proof.
  intros Hk. unfold getFilter. rewrite obj_delete_all_filter.
  cbn [List.filter fst]. rewrite Hk. cbn [negb obj_keys map fst foldM obj_get].
  rewrite String.eqb_refl. f_equal.
  destruct (getImplicitANDValue f l); reflexivity.
Qed.

(** ** The query without its [page]; tokens without brace and bracket *)

Lemma obj_get_delete_other {A} (o : Obj A) (k k' : string) :
  k' <> k -> obj_get (obj_delete o k) k' = obj_get o k'.
Proof.
  intros Hn. rewrite obj_delete_filter.
  rewrite (obj_get_filter (fun x => negb (x =? k)) o k').
  destruct (String.eqb_spec k' k); [congruence | reflexivity].
Qed.

Lemma delete_reserved_after_page (q : RawQuery) :
  fold_left (fun q k => obj_delete q k) reserved (obj_delete q "page")
  = fold_left (fun q k => obj_delete q k) reserved q.
Proof.
  rewrite !obj_delete_all_filter, obj_delete_filter, filter_filter.
  apply filter_ext. intros [k v]. cbn [fst].
  destruct (String.eqb_spec k "page") as [->|]; reflexivity.
Qed.

Lemma getFilter_after_page {host : Host} (f : string -> Outcome Value) (q : RawQuery)
      (def : Obj Value) :
  getFilter f (obj_delete q "page") def = getFilter f q def.
Proof. unfold getFilter. now rewrite delete_reserved_after_page. Qed.

Lemma skip_ws_mem (t : string) (c : ascii) (s : string) :
  skip_ws t = String c s -> mem_char c t = true.
Proof.
  induction t as [|a t IH]; simpl; [discriminate|].
  destruct (json_ws a).
  - intros H. rewrite (IH H). apply orb_true_r.
  - intros H. injection H as -> _. now rewrite Ascii.eqb_refl.
Qed.

Lemma no_bracket_no_json (t : string) :
  mem_char "{" t = false -> mem_char "[" t = false -> json_container_prefix t = false.
Proof.
  intros Hb Hk. unfold json_container_prefix.
  destruct (skip_ws t) as [|c s] eqn:E; [reflexivity|].
  apply skip_ws_mem in E. unfold is_char.
  destruct (Ascii.eqb_spec "[" c) as [<-|]; [congruence|].
  destruct (Ascii.eqb_spec "{" c) as [<-|]; [congruence|]. reflexivity.
Qed.

Lemma startsWith_first (c : ascii) (p t : string) :
  mem_char c t = false -> startsWith (String c p) t = false.
Proof.
  unfold startsWith. destruct t as [|a t]; simpl; [reflexivity|].
  destruct (ascii_dec c a) as [->|]; [|reflexivity].
  now rewrite Ascii.eqb_refl.
Qed.

Lemma substring_from_1 (c : ascii) (s : string) : substring_from 1 (String c s) = s.
Proof.
  unfold substring_from, clamp. change (Z.to_nat 1) with 1. simpl.
  rewrite Nat.sub_0_r. apply substring_all.
Qed.

Lemma no_match_outside (r : RegExp) (t : string) (c : ascii) :
  mem_char c t = true -> re_alphabet r c = false -> re_match r t = false.
Proof.
  intros Hm Ha. destruct (re_match r t) eqn:E; [|reflexivity].
  rewrite (re_match_alphabet r t c E Hm) in Ha. discriminate.
Qed.

(** ** Tokens of groups, and the merge *)

Lemma mem_char_app (c : ascii) (a b : string) :
  mem_char c (a ++ b) = mem_char c a || mem_char c b.
Proof. induction a as [|x a IH]; simpl; [reflexivity | now rewrite IH, orb_assoc]. Qed.

Lemma all_chars_mem (p : ascii -> bool) (s : string) (c : ascii) :
  all_chars p s = true -> p c = false -> mem_char c s = false.
Proof.
  induction s as [|a s IH]; simpl; [reflexivity|].
  rewrite andb_true_iff. intros [Ha Hs] Hc. rewrite (IH Hs Hc), orb_false_r.
  destruct (Ascii.eqb_spec a c); congruence.
Qed.

Lemma append_nil_r (s : string) : s ++ "" = s.
Proof. induction s; simpl; congruence. Qed.

Lemma append_assoc (a b c : string) : (a ++ b) ++ c = a ++ b ++ c.
Proof. induction a; simpl; congruence. Qed.

Lemma split_app_no (c : ascii) (x y : string) :
  mem_char c x = false ->
  split c (x ++ y) = match split c y with
                     | h :: tl => (x ++ h) :: tl
                     | [] => [x]
                     end.
Proof.
  pose proof (split_not_nil c y) as Hy.
  induction x as [|a x IH]; simpl; intros H.
  - destruct (split c y); [congruence | reflexivity].
  - apply orb_false_iff in H as [Ha Hx]. rewrite Ha, (IH Hx).
    destruct (split c y); [congruence | reflexivity].
Qed.

Lemma cons_head_app (a : ascii) (l l' : list string) :
  l <> [] -> (cons_head a (l ++ l') = cons_head a l ++ l')%list.
Proof. destruct l; [congruence | reflexivity]. Qed.

Lemma split_app_sep (c : ascii) (x y : string) :
  (split c (x ++ String c y) = split c x ++ split c y)%list.
Proof.
  induction x as [|a x IH]; cbn [append split].
  - now rewrite Ascii.eqb_refl.
  - rewrite IH. destruct (Ascii.eqb a c); [reflexivity|].
    apply cons_head_app, split_not_nil.
Qed.

Lemma replaceAll_app (c : ascii) (r x y : string) :
  replaceAll c r (x ++ y) = replaceAll c r x ++ replaceAll c r y.
Proof.
  induction x as [|a x IH]; cbn [append replaceAll]; [reflexivity|].
  rewrite IH. destruct (Ascii.eqb a c); [now rewrite append_assoc | reflexivity].
Qed.

Lemma replaceAll_no (c : ascii) (r x : string) :
  mem_char c x = false -> replaceAll c r x = x.
Proof.
  induction x as [|a x IH]; cbn [mem_char replaceAll]; [reflexivity|].
  intros H. apply orb_false_iff in H as [Ha Hx]. rewrite Ha, (IH Hx). reflexivity.
Qed.

Lemma group_wf_spec (g : string * string) :
  group_wf g = true ->
  fst g <> "" /\ all_chars is_letter (fst g) = true
  /\ mem_char "{" (snd g) = false /\ mem_char "|" (snd g) = false.
Proof.
  unfold group_wf. rewrite !andb_true_iff, !negb_true_iff.
  intros [[[H1 H2] H3] H4]. repeat split; auto.
  destruct (fst g); [discriminate | discriminate].
Qed.

Lemma group_ok_wf (g : string * string) : group_ok g = true -> group_wf g = true.
Proof.
  unfold group_ok, group_wf. rewrite !andb_true_iff.
  intros [[[[H1 H2] H3] _] H5]. auto.
Qed.

Lemma forallb_group_wf (gs : list (string * string)) :
  forallb group_ok gs = true -> forallb group_wf gs = true.
Proof. rewrite !forallb_forall. intros H g Hin. apply group_ok_wf, H, Hin. Qed.

Lemma forallb_group_no_pipe (gs : list (string * string)) :
  forallb group_wf gs = true ->
  forallb (fun g => negb (mem_char "|" (snd g))) gs = true.
Proof.
  rewrite !forallb_forall. intros H g Hin.
  apply H, group_wf_spec in Hin as (_ & _ & _ & Hp). now rewrite Hp.
Qed.

Lemma group_ok_spec (g : string * string) :
  group_ok g = true ->
  fst g <> "" /\ all_chars is_letter (fst g) = true
  /\ mem_char "{" (snd g) = false /\ mem_char "," (snd g) = false
  /\ mem_char "|" (snd g) = false.
Proof.
  unfold group_ok. rewrite !andb_true_iff, !negb_true_iff.
  intros [[[[H1 H2] H3] H4] H5]. repeat split; auto.
  destruct (fst g); [discriminate | discriminate].
Qed.

Lemma group_text_mem (c : ascii) (g : string * string) :
  group_wf g = true -> is_letter c = false -> c <> "{"%char -> c <> "}"%char ->
  mem_char c (group_text g) = mem_char c (snd g).
Proof.
  intros Hg Hl H1 H2. apply group_wf_spec in Hg as (_ & Ha & _).
  unfold group_text. cbn [append mem_char]. rewrite mem_char_app. cbn [mem_char].
  rewrite (all_chars_mem _ _ _ Ha Hl).
  destruct (Ascii.eqb_spec "{" c); [congruence|].
  destruct (Ascii.eqb_spec "}" c); [congruence|]. reflexivity.
Qed.

Lemma concat_groups_mem (c : ascii) (gs : list (string * string)) :
  forallb group_wf gs = true -> is_letter c = false -> c <> "{"%char -> c <> "}"%char ->
  forallb (fun g => negb (mem_char c (snd g))) gs = true ->
  mem_char c (concat_groups gs) = false.
Proof.
  intros Hg Hl H1 H2. induction gs as [|g gs IH]; cbn [concat_groups forallb] in *;
    [reflexivity|].
  apply andb_true_iff in Hg as [Hg Hgs]. rewrite andb_true_iff, negb_true_iff.
  intros [Hc Hcs]. rewrite mem_char_app, (group_text_mem c g Hg Hl H1 H2), Hc. auto.
Qed.

Lemma forallb_group_no (c : ascii) (gs : list (string * string)) :
  forallb group_ok gs = true -> (c = "," \/ c = "|")%char ->
  forallb (fun g => negb (mem_char c (snd g))) gs = true.
Proof.
  intros Hg Hc. apply forallb_forall. intros g Hin.
  rewrite forallb_forall in Hg. apply Hg, group_ok_spec in Hin as (_ & _ & _ & H1 & H2).
  destruct Hc as [->| ->]; now rewrite ?H1, ?H2.
Qed.

(** The pieces between the opening braces of a token of groups. *)
Lemma split_groups (gs : list (string * string)) :
  forallb group_wf gs = true ->
  split "{" (concat_groups gs) = "" :: map (fun g => fst g ++ "}" ++ snd g) gs.
Proof.
  induction gs as [|g gs IH]; cbn [concat_groups map forallb]; intros Hg; [reflexivity|].
  apply andb_true_iff in Hg as [Hg Hgs]. specialize (IH Hgs).
  apply group_wf_spec in Hg as (_ & Ha & Hb & _).
  unfold group_text. cbn [append split]. rewrite Ascii.eqb_refl.
  rewrite split_app_no, IH, append_nil_r; [reflexivity|].
  rewrite mem_char_app. cbn [mem_char]. rewrite Hb.
  rewrite (all_chars_mem _ _ _ Ha); reflexivity.
Qed.

Lemma filter_non_empty_pieces (gs : list (string * string)) (pre : string -> string) :
  (forall g, In g gs -> non_empty (pre (fst g ++ "}" ++ snd g)) = true) ->
  List.filter non_empty (map (fun g => pre (fst g ++ "}" ++ snd g)) gs)
  = map (fun g => pre (fst g ++ "}" ++ snd g)) gs.
Proof.
  induction gs as [|g gs IH]; cbn [List.filter map]; intros H; [reflexivity|].
  rewrite (H g) by (now left). rewrite IH; [reflexivity|].
  intros g' Hg'. apply H. now right.
Qed.

Lemma non_empty_piece (a b : string) : non_empty (a ++ "}" ++ b) = true.
Proof. destruct a; reflexivity. Qed.

(** The text of a group gets a comma in front, and nothing else. *)
Lemma replace_group (g : string * string) :
  group_wf g = true -> replaceAll "{" ",{" (group_text g) = String "," (group_text g).
Proof.
  intros Hg. apply group_wf_spec in Hg as (_ & Ha & Hb & _).
  unfold group_text. cbn [append replaceAll]. rewrite Ascii.eqb_refl. cbn [append].
  rewrite replaceAll_no; [reflexivity|].
  rewrite mem_char_app. cbn [mem_char]. rewrite Hb.
  rewrite (all_chars_mem _ _ _ Ha); reflexivity.
Qed.

Lemma replace_groups_head (g : string * string) (gs : list (string * string)) :
  forallb group_wf (g :: gs) = true ->
  replaceAll "{" ",{" (concat_groups (g :: gs))
  = String "," (group_text g ++ replaceAll "{" ",{" (concat_groups gs)).
Proof.
  cbn [forallb concat_groups]. intros Hg. apply andb_true_iff in Hg as [Hg _].
  rewrite replaceAll_app, (replace_group g Hg). reflexivity.
Qed.

(** The pieces of a token of groups: those of its groups, in order. *)
Lemma and_pieces_groups (gs : list (string * string)) :
  forallb group_wf gs = true -> and_pieces (concat_groups gs) = flat_map comma_pieces gs.
Proof.
  unfold and_pieces. induction gs as [|g gs IH]; intros Hg; [reflexivity|].
  rewrite (replace_groups_head g gs Hg).
  cbn [forallb] in Hg. apply andb_true_iff in Hg as [_ Hgs]. specialize (IH Hgs).
  cbn [split flat_map]. rewrite Ascii.eqb_refl.
  cbn [List.filter non_empty String.eqb negb].
  destruct gs as [|g' gs'].
  - cbn [concat_groups replaceAll flat_map]. rewrite append_nil_r, List.app_nil_r. reflexivity.
  - rewrite (replace_groups_head g' gs' Hgs) in *.
    rewrite split_app_sep, filter_app. f_equal.
    rewrite <- IH. cbn [split]. rewrite Ascii.eqb_refl. reflexivity.
Qed.

Lemma letter_plain (c : ascii) :
  is_letter c = true -> json_ws c = false /\ is_char quote c = false /\ is_char "}" c = false.
Proof.
  destruct c as [[] [] [] [] [] [] [] []]; vm_compute; intros H;
    first [discriminate H | repeat split].
Qed.

Lemma groups_no_json (gs : list (string * string)) :
  gs <> [] -> forallb group_wf gs = true -> json_container_prefix (concat_groups gs) = false.
Proof.
  destruct gs as [|g gs]; [congruence|]. intros _ Hg. simpl in Hg.
  apply andb_true_iff in Hg as [Hg _]. apply group_wf_spec in Hg as (Hn & Ha & _).
  unfold json_container_prefix. cbn [concat_groups]. unfold group_text.
  destruct (fst g) as [|c op]; [congruence|]. cbn [all_chars] in Ha.
  apply andb_true_iff in Ha as [Hc _]. apply letter_plain in Hc as (H1 & H2 & H3).
  cbn [append skip_ws]. change (json_ws "{") with false. cbv iota.
  change (is_char "[" "{") with false. change (is_char "{" "{") with true.
  cbn [skip_ws orb andb]. rewrite H1, H2, H3. reflexivity.
Qed.

Lemma merge_lookup (entries o : Obj Value) (k : string) :
  k <> "__proto__" ->
  obj_get (fold_left (fun acc kv => obj_set acc (fst kv) (snd kv)) entries o) k
  = match obj_get (rev entries) k with
    | Some v => Some v
    | None => obj_get o k
    end.
Proof.
  intros Hk. revert o; induction entries as [|[k1 v1] entries IH]; intros o; simpl;
    [reflexivity|].
  rewrite IH, obj_get_app. destruct (obj_get (rev entries) k); [reflexivity|].
  simpl. destruct (String.eqb_spec k1 k) as [->|Hn].
  - now apply obj_get_set_same.
  - apply obj_get_set_other. congruence.
Qed.

Lemma index_key_parse (i : nat) :
  NilZero.uint_of_string (index_key i) = Some (Nat.to_uint i).
Proof.
  apply NilZero.usu. rewrite <- (DecimalNat.Unsigned.of_to i) at 1.
  rewrite DecimalNat.Unsigned.to_of. apply unorm_nonnil.
Qed.

Lemma index_key_inj (i j : nat) : index_key i = index_key j -> i = j.
Proof.
  intros H. pose proof (index_key_parse i) as Hi. rewrite H, index_key_parse in Hi.
  injection Hi as Hi. symmetry. now apply DecimalNat.Unsigned.to_uint_inj.
Qed.

Lemma index_key_not_proto (i : nat) : index_key i <> "__proto__".
Proof.
  intros H. pose proof (index_key_parse i) as Hi. rewrite H in Hi. discriminate.
Qed.

Lemma char_entries_lookup (s : string) (j i : nat) (acc : Obj Value) :
  obj_get (fold_left (fun acc kv => obj_set acc (fst kv) (snd kv)) (char_entries j s) acc)
          (index_key i)
  = if (j <=? i)%nat
    then match char_at (i - j) s with
         | Some v => Some v
         | None => obj_get acc (index_key i)
         end
    else obj_get acc (index_key i).
Proof.
  revert j acc; induction s as [|c s IH]; intros j acc; simpl.
  - unfold char_at. simpl. now destruct (j <=? i)%nat.
  - rewrite IH. unfold char_at.
    destruct (Nat.leb_spec (S j) i) as [H1|H1].
    + destruct (Nat.leb_spec j i); [|lia].
      replace (i - j) with (S (i - S j)) by lia. simpl.
      destruct (String.get (i - S j) s); [reflexivity|].
      apply obj_get_set_other. intros E. apply index_key_inj in E. lia.
    + destruct (Nat.leb_spec j i) as [H2|H2].
      * assert (i = j) as -> by lia. rewrite Nat.sub_diag. simpl.
        apply obj_get_set_same, index_key_not_proto.
      * apply obj_get_set_other. intros E. apply index_key_inj in E. lia.
Qed.

Lemma spread_lookup_acc (strs : list string) (acc : Obj Value) (i : nat) :
  obj_get (fold_left (fun acc s =>
             fold_left (fun acc kv => obj_set acc (fst kv) (snd kv)) (char_entries 0 s) acc)
           strs acc) (index_key i)
  = fold_left (fun r s => match char_at i s with Some v => Some v | None => r end)
      strs (obj_get acc (index_key i)).
Proof.
  revert acc; induction strs as [|s strs IH]; intros acc; simpl; [reflexivity|].
  rewrite IH, char_entries_lookup. simpl. now rewrite Nat.sub_0_r.
Qed.

Lemma char_entries_In (s : string) (j : nat) (k : string) (v : Value) :
  In (k, v) (char_entries j s) ->
  exists i c, String.get i s = Some c /\ k = index_key (j + i) /\ v = VStr (String c "").
Proof.
  revert j; induction s as [|a s IH]; intros j; simpl; [tauto|].
  intros [E|H].
  - injection E as <- <-. exists 0, a. rewrite Nat.add_0_r. auto.
  - apply IH in H as (i & c & Hg & -> & ->). exists (S i), c. simpl.
    rewrite Nat.add_succ_r. auto.
Qed.

Lemma fold_set_In (entries o : Obj Value) (e : string * Value) :
  In e (fold_left (fun acc kv => obj_set acc (fst kv) (snd kv)) entries o) ->
  In e o \/ In e entries.
Proof.
  revert o; induction entries as [|[k v] entries IH]; intros o; simpl; [auto|].
  intros H. apply IH in H as [H|H]; [|auto].
  apply obj_set_In in H as [->|H]; auto.
Qed.

Lemma spread_In_acc (strs : list string) (acc : Obj Value) (k : string) (v : Value) :
  In (k, v) (fold_left (fun acc s =>
               fold_left (fun acc kv => obj_set acc (fst kv) (snd kv)) (char_entries 0 s) acc)
             strs acc) ->
  In (k, v) acc
  \/ exists s i c, In s strs /\ String.get i s = Some c
                   /\ k = index_key i /\ v = VStr (String c "").
Proof.
  revert acc; induction strs as [|s strs IH]; intros acc; simpl; [auto|].
  intros H. apply IH in H as [H|(s' & i & c & Hs & Hr)].
  - apply fold_set_In in H as [H|H]; [auto|].
    apply char_entries_In in H as (i & c & Hg & -> & ->).
    right. exists s, i, c. auto.
  - right. exists s', i, c. auto.
Qed.

Lemma mapM_Forall2 {A B} (f : A -> Outcome B) (l : list A) (l' : list B) :
  Forall2 (fun a b => f a = Ok b) l l' -> mapM f l = Ok l'.
Proof.
  induction 1 as [|a b l l' H _ IH]; simpl; [reflexivity|]. now rewrite H, IH.
Qed.

Lemma getImplicitANDValue_merge (f : string -> Outcome Value) (tokens : list string)
      (values : list Value) (entries : list (Obj Value)) :
  Forall2 (fun t v => f t = Ok v) tokens values ->
  Forall2 (fun v es => own_entries v = Ok es) values entries ->
  getImplicitANDValue f tokens
  = Ok (VObj (fold_left (fun acc es =>
                fold_left (fun acc kv => obj_set acc (fst kv) (snd kv)) es acc)
              entries [])).
Proof.
  intros Hf He. unfold getImplicitANDValue, getMapOfOperatorsWithValues.
  rewrite (mapM_Forall2 _ _ _ Hf). cbn [bind]. clear Hf.
  generalize (@nil (string * Value)) as acc.
  induction He as [|v es values entries H _ IH]; intros acc; simpl; [reflexivity|].
  rewrite H. cbn [bind]. apply IH.
Qed.

Lemma Forall2_map_r {A B C} (P : A -> C -> Prop) (g : B -> C) (l : list A) (l' : list B) :
  Forall2 (fun a b => P a (g b)) l l' -> Forall2 P l (map g l').
Proof. induction 1; simpl; constructor; auto. Qed.

Lemma Forall2_map_same {A B C} (P : B -> C -> Prop) (g : A -> B) (h : A -> C) (l : list A) :
  (forall a, P (g a) (h a)) -> Forall2 P (map g l) (map h l).
Proof. intros H. induction l; simpl; constructor; auto. Qed.

Lemma fold_singletons (entries : Obj Value) (acc : Obj Value) :
  fold_left (fun acc es =>
               fold_left (fun acc kv => obj_set acc (fst kv) (snd kv)) es acc)
            (map (fun kv => [kv]) entries) acc
  = fold_left (fun acc kv => obj_set acc (fst kv) (snd kv)) entries acc.
Proof.
  revert acc; induction entries as [|kv entries IH]; intros acc; simpl; [reflexivity|].
  apply IH.
Qed.

Lemma foldM_invariant {A B} (P : B -> Prop) (f : B -> A -> Outcome B) (l : list A) :
  (forall b a b', In a l -> P b -> f b a = Ok b' -> P b') ->
  forall init r, P init -> foldM f l init = Ok r -> P r.
Proof.
  induction l as [|a l IH]; simpl; intros Hf init r Hi Hr.
  - injection Hr as <-. exact Hi.
  - destruct (f init a) as [b| |] eqn:E; try discriminate. simpl in Hr.
    apply (IH (fun b0 a0 b' H => Hf b0 a0 b' (or_intror H)) b r); [|exact Hr].
    apply (Hf init a b); auto.
Qed.

(** Every key of a compiled filter is the sanitized key of an entry that
    [getFilter] left in the query. *)
Lemma getFilter_keys {host : Host} (f : string -> Outcome Value) (q q' : RawQuery)
      (def o : Obj Value) :
  getFilter f q def = (q', Ok o) ->
  forall k v, In (k, v) o ->
  exists key raw, In (key, raw) q /\ not_reserved (key, raw) = true /\ k = cleanKey key.
Proof.
  unfold getFilter. rewrite obj_delete_all_filter. intros H. injection H as <- H.
  refine (foldM_invariant
            (fun obj : Obj Value => forall k v, In (k, v) obj ->
               exists key raw, In (key, raw) q /\ not_reserved (key, raw) = true
                               /\ k = cleanKey key) _ _ _ [] o _ H).
  - intros obj key obj' Hin Hobj Hstep k v Hk.
    apply in_map_iff in Hin as ([key' raw] & <- & Hin). cbn [fst] in *.
    apply filter_In in Hin as [Hin Hres].
    assert (Hset : forall value, In (k, v) (obj_set obj (cleanKey key') value) ->
              exists key raw, In (key, raw) q /\ not_reserved (key, raw) = true
                              /\ k = cleanKey key).
    { intros value Hv. apply obj_set_In in Hv as [Hv|Hv]; [|eauto].
      injection Hv as -> _. exists key', raw. auto. }
    destruct (obj_get _ key') as [[s|l|m]|]; [| | |injection Hstep as <-; eauto].
    + destruct (f s) as [value| |]; try discriminate. cbn [bind] in Hstep.
      destruct value; injection Hstep as <-; eauto.
    + destruct (getImplicitANDValue f l) as [value| |]; try discriminate.
      cbn [bind] in Hstep. injection Hstep as <-. eauto.
    + destruct getSimpleFilterValue_mapping as [value| |]; try discriminate.
      cbn [bind] in Hstep. destruct value; injection Hstep as <-; eauto.
  - intros k v [].
Qed.

(** The merge throws as soon as one of the classified values is [null]. *)
Lemma getImplicitANDValue_null (f : string -> Outcome Value) (tokens : list string)
      (values : list Value) :
  Forall2 (fun t v => f t = Ok v) tokens values ->
  In VNull values ->
  getImplicitANDValue f tokens = Throw TypeError.
Proof.
  intros Hf Hn. unfold getImplicitANDValue, getMapOfOperatorsWithValues.
  rewrite (mapM_Forall2 _ _ _ Hf). cbn [bind]. clear Hf.
  generalize (@nil (string * Value)) as acc.
  induction values as [|v values IH]; intros acc; [destruct Hn|].
  cbn [foldM]. destruct Hn as [->|Hn]; [reflexivity|].
  destruct v; cbn [own_entries bind]; try (now apply IH); reflexivity.
Qed.

Lemma fold_left_mapped {A B C} (f : A -> C -> A) (g : B -> C) (l : list B) (a : A) :
  fold_left f (map g l) a = fold_left (fun a b => f a (g b)) l a.
Proof. revert a; induction l as [|b l IH]; intros a; simpl; [reflexivity | apply IH]. Qed.

(** ** The reference host is a host as the claims assume it *)

Lemma json_scalar_scalar (s : string) (v : Value) (r : string) :
  json_scalar s = Some (v, r) -> isObjectLike v = false.
Proof.
  unfold json_scalar, json_number. destruct s as [|c s]; [discriminate|].
  destruct (is_char quote c).
  { destruct (json_string s) as [[str rest]|]; [|discriminate].
    intros H. injection H as <- _. reflexivity. }
  repeat match goal with
         | |- (if ?b then _ else _) = _ -> _ =>
             destruct b; [intros H; injection H as <- _; reflexivity|]
         end.
  destruct (span _ _) as [text rest].
  destruct (re_match _ _); [|discriminate].
  intros H. injection H as <- _. reflexivity.
Qed.

Lemma JSON_parse_ref_container (s : string) (v : Value) :
  JSON_parse_ref s = Some v -> isObjectLike v = true -> json_container_prefix s = true.
Proof.
  unfold JSON_parse_ref, json_container_prefix.
  replace (2 * String.length s + 2) with (S (2 * String.length s + 1)) by lia.
  cbn [json_value]. destruct (skip_ws s) as [|c s']; [discriminate|].
  destruct (is_char "[" c); [reflexivity|].
  destruct (is_char "{" c).
  - destruct (skip_ws s') as [|d s'']; [discriminate|].
    destruct (is_char "}" d); [now rewrite orb_true_r|].
    destruct (is_char quote d); [reflexivity | discriminate].
  - destruct (json_scalar (String c s')) as [[v' r]|] eqn:E; [|discriminate].
    destruct (skip_ws r); [|discriminate].
    intros H Hv. injection H as ->. rewrite (json_scalar_scalar _ _ _ E) in Hv. discriminate.
Qed.

Lemma length_after_char (c : ascii) (s : string) :
  String.length (after_char c s) <= String.length s.
Proof.
  induction s as [|a s IH]; simpl; [lia|]. destruct (Ascii.eqb a c); lia.
Qed.

Lemma split_In_length (c : ascii) (t s : string) :
  In s (split c t) -> String.length s <= String.length t.
Proof.
  intros H. apply In_total_length in H. pose proof (split_total_length c t). lia.
Qed.

Lemma URLSearchParams_ref_length (s k v : string) :
  In (k, v) (URLSearchParams_ref s) -> String.length v <= String.length s.
Proof.
  unfold URLSearchParams_ref. rewrite in_map_iff. intros (p & E & Hin).
  injection E as _ <-. apply filter_In in Hin as [Hin _].
  apply split_In_length in Hin.
  pose proof (length_after_char "=" (replaceAll "+" " " p)) as H.
  rewrite length_replaceAll_char in H. lia.
Qed.

Section Termination.

(** ** The recursion of the classifier *)

Context {host : Host}.

(** Decoding can only shorten: a value of [new URLSearchParams(s)] has at
    most the length of [s]. *)
Hypothesis URLSearchParams_length :
  forall s k v, In (k, v) (URLSearchParams s) -> String.length v <= String.length s.

Lemma tag_value_shorter (op t : string) :
  mem_char "}" op = false -> startsWith (tag op) t = true ->
  String.length (substring_from (indexOf "}" t + 1) t) < String.length t.
Proof.
  intros Hop H. destruct (tag_split op t Hop H) as (r & -> & _ & ->).
  unfold tag. rewrite !length_append. simpl. lia.
Qed.

Lemma logical_value_shorter (t : string) :
  isLogicalOperator t = true ->
  String.length (substring_from (indexOf "}" t + 1) t) < String.length t.
Proof.
  unfold isLogicalOperator, logical. cbn [existsb replaceFirst Ascii.eqb Bool.eqb].
  simpl. rewrite !orb_true_iff.
  intros [H|[H|[H|[H|H]]]]; try discriminate;
    [apply (tag_value_shorter "and") | apply (tag_value_shorter "not")
     | apply (tag_value_shorter "nor") | apply (tag_value_shorter "or")];
    auto.
Qed.

Lemma comparison_value_shorter (t : string) :
  isComparisonFilter t = true ->
  String.length (substring_from (indexOf "}" t + 1) t) < String.length t.
Proof.
  unfold isComparisonFilter. rewrite !orb_true_iff.
  intros [[[[[[[H|H]|H]|H]|H]|H]|H]|H];
    [apply (tag_value_shorter "eq") | apply (tag_value_shorter "gt")
     | apply (tag_value_shorter "gte") | apply (tag_value_shorter "in")
     | apply (tag_value_shorter "lt") | apply (tag_value_shorter "lte")
     | apply (tag_value_shorter "ne") | apply (tag_value_shorter "nin")];
    auto.
Qed.

(** The classifier calls itself on strictly shorter tokens only: what it
    returns for [t] depends on the recursive calls for the tokens shorter
    than [t] and on no other. *)
Lemma body_shorter (f g : string -> Outcome Value) (t : string) :
  (forall s, String.length s < String.length t -> f s = g s) ->
  getSimpleFilterValue_body f t = getSimpleFilterValue_body g t.
Proof.
  intros H. unfold getSimpleFilterValue_body.
  destruct (t =? ""); [reflexivity|].
  destruct (isJson t); [reflexivity|].
  destruct (isElementMatchFilter t) eqn:Hem.
  { destruct (_ =? ""); [reflexivity|].
    rewrite (getFilter_ext f g); [reflexivity|].
    pose proof (tag_value_shorter "elemMatch" t eq_refl Hem) as Hlt.
    assert (Hv : forall k v,
               In (k, v) (fold_left (fun o kv => obj_set o (fst kv) (RStr (snd kv)))
                 (URLSearchParams (replaceAll "#" "&"
                    (substring_from (indexOf "}" t + 1) t))) ([] : RawQuery)) ->
               exists s, v = RStr s /\ String.length s < String.length t).
    { intros k v Hin. apply params_object_In in Hin as [[]|(s & -> & Hin)].
      exists s. split; [reflexivity|].
      apply URLSearchParams_length in Hin.
      rewrite length_replaceAll_char in Hin. lia. }
    intros s [k [Hin|(l & Hin & _)]]; apply Hv in Hin as (s' & E & Hs).
    - injection E as ->. auto.
    - discriminate. }
  destruct (isLogicalOperator t) eqn:Hlo.
  { rewrite (H _ (logical_value_shorter t Hlo)). reflexivity. }
  destruct (isORFilter t) eqn:Hor.
  { unfold getMapOfOperatorsWithValues.
    rewrite (mapM_ext f g); [reflexivity|].
    intros s Hs. apply H. apply (split_shorter "|" t s); [|assumption].
    unfold isORFilter in Hor. rewrite indexOf_mem in Hor.
    destruct (mem_char "|" t); [reflexivity | discriminate]. }
  destruct (isANDFilter t) eqn:Hand.
  { apply getImplicitANDValue_ext. intros s Hs. apply H.
    now apply and_pieces_shorter. }
  destruct (isComparisonFilter t) eqn:Hc.
  { destruct (_ =? ""); [reflexivity|].
    rewrite (H _ (comparison_value_shorter t Hc)). reflexivity. }
  reflexivity.
Qed.

(** Fuel beyond the length of the token changes nothing. *)
Lemma fuel_irrelevant (n m : nat) (t : string) :
  String.length t < n -> String.length t < m -> getSimpleFilterValue n t = getSimpleFilterValue m t.
Proof.
  revert m t; induction n as [|n IH]; intros m t Hn Hm; [lia|].
  destruct m as [|m]; [lia|]. simpl.
  apply body_shorter. intros s Hs. apply IH; lia.
Qed.

(** The equation of the source: [classify] is [getSimpleFilterValue] with
    [classify] at its recursive calls. *)
Lemma classify_unfold (t : string) : classify t = getSimpleFilterValue_body classify t.
Proof.
  unfold classify at 1. simpl.
  apply body_shorter. intros s Hs. apply fuel_irrelevant; lia.
Qed.

Lemma mapM_fuel {A B} (f : A -> Outcome B) (l : list A) :
  (forall a, In a l -> f a <> OutOfFuel) -> mapM f l <> OutOfFuel.
Proof.
  induction l as [|a l IH]; simpl; intros H; [discriminate|].
  pose proof (H a (or_introl eq_refl)). destruct (f a); simpl; try congruence.
  assert (mapM f l <> OutOfFuel) by auto. destruct (mapM f l); simpl; congruence.
Qed.

Lemma foldM_fuel {A B} (f : B -> A -> Outcome B) (l : list A) (init : B) :
  (forall b a, In a l -> f b a <> OutOfFuel) -> foldM f l init <> OutOfFuel.
Proof.
  revert init; induction l as [|a l IH]; simpl; intros init H; [discriminate|].
  pose proof (H init a (or_introl eq_refl)). destruct (f init a); simpl; try congruence.
  auto.
Qed.

Lemma getImplicitANDValue_fuel (f : string -> Outcome Value) (l : list string) :
  (forall s, In s l -> f s <> OutOfFuel) -> getImplicitANDValue f l <> OutOfFuel.
Proof.
  intros H. unfold getImplicitANDValue, getMapOfOperatorsWithValues.
  pose proof (mapM_fuel f l H). destruct (mapM f l) as [vs| |]; simpl; try congruence.
  match goal with |- bind ?m _ <> _ => assert (m <> OutOfFuel) as Hm end.
  { apply foldM_fuel. intros b v _. destruct v; simpl; discriminate. }
  match goal with |- bind ?m _ <> _ => destruct m end; simpl; congruence.
Qed.

Lemma getFilter_fuel (f : string -> Outcome Value) (q : RawQuery) (def : Obj Value) :
  (forall s, token_of q s -> f s <> OutOfFuel) -> snd (getFilter f q def) <> OutOfFuel.
Proof.
  intros H. unfold getFilter. cbn [snd].
  apply foldM_fuel. intros obj key _.
  destruct (obj_get _ key) as [[s|l|m]|] eqn:Hg; [| | |discriminate].
  - apply obj_get_In, obj_delete_all_In in Hg.
    assert (f s <> OutOfFuel) by (apply H; exists key; now left).
    destruct (f s) as [[]| |]; simpl; congruence.
  - apply obj_get_In, obj_delete_all_In in Hg.
    assert (getImplicitANDValue f l <> OutOfFuel).
    { apply getImplicitANDValue_fuel. intros s Hs. apply H. exists key. right. eauto. }
    destruct (getImplicitANDValue f l); simpl; congruence.
  - unfold getSimpleFilterValue_mapping.
    destruct (JSON_parse mapping_text) as [[]|]; simpl; congruence.
Qed.

Lemma body_fuel (f : string -> Outcome Value) (t : string) :
  (forall s, f s <> OutOfFuel) -> getSimpleFilterValue_body f t <> OutOfFuel.
Proof.
  intros H. unfold getSimpleFilterValue_body.
  destruct (t =? ""); [discriminate|].
  destruct (isJson t); [destruct (JSON_parse t); discriminate|].
  destruct (isElementMatchFilter t).
  { destruct (_ =? ""); [discriminate|].
    match goal with |- bind (snd (getFilter f ?q ?d)) _ <> _ =>
      pose proof (getFilter_fuel f q d (fun s _ => H s)) as Hq;
      destruct (snd (getFilter f q d)) end; simpl; congruence. }
  destruct (isLogicalOperator t).
  { match goal with |- bind (f ?s) _ <> _ =>
      pose proof (H s); destruct (f s) end; simpl; congruence. }
  destruct (isORFilter t).
  { unfold getMapOfOperatorsWithValues.
    pose proof (mapM_fuel f (split "|" t) (fun s _ => H s)).
    destruct (mapM f _); simpl; congruence. }
  destruct (isANDFilter t).
  { apply getImplicitANDValue_fuel. auto. }
  destruct (isComparisonFilter t).
  { destruct (_ =? ""); [discriminate|].
    match goal with |- bind (f ?s) _ <> _ =>
      pose proof (H s); destruct (f s) end; simpl; congruence. }
  destruct (isElementFilter t).
  { destruct (_ =? ""); [discriminate|]. destruct (_ =? "exists"); discriminate. }
  destruct (_ || _).
  { destruct (Date_toISOString t); discriminate. }
  destruct (StringValidator.isNumberString t); [discriminate|].
  destruct (_ || _); [discriminate|].
  destruct (_ && _); discriminate.
Qed.

(** The classifier never runs out of fuel: every token is classified or
    makes the classifier throw. *)
Lemma classify_fuel (t : string) : classify t <> OutOfFuel.
Proof.
  remember (String.length t) as n eqn:Hn.
  revert t Hn. induction n as [n IH] using lt_wf_ind. intros t ->.
  rewrite classify_unfold.
  rewrite (body_shorter classify
             (fun s => match classify s with OutOfFuel => Ok VNull | r => r end)).
  - apply body_fuel. intros s. destruct (classify s); discriminate.
  - intros s Hs. specialize (IH _ Hs s eq_refl). destruct (classify s); congruence.
Qed.

End Termination.

Section Evaluation.

(** ** Classification without a look at [JSON.parse] *)

Context {host : Host}.

(** The text of a JSON array or object begins as one. *)
Hypothesis JSON_parse_container :
  forall s v, JSON_parse s = Some v -> isObjectLike v = true ->
              json_container_prefix s = true.

Lemma isJson_prefix (s : string) :
  json_container_prefix s = false -> isJson s = false.
Proof.
  intros H. unfold isJson. destruct (JSON_parse s) as [v|] eqn:E; [|reflexivity].
  destruct (isObjectLike v) eqn:Ev; [|reflexivity].
  rewrite (JSON_parse_container _ _ E Ev) in H. discriminate.
Qed.

Lemma body_ext (f g : string -> Outcome Value) (t : string) :
  (forall s, f s = g s) -> getSimpleFilterValue_body f t = getSimpleFilterValue_body g t.
Proof.
  intros H. unfold getSimpleFilterValue_body.
  rewrite (getFilter_ext f g) by auto.
  unfold getMapOfOperatorsWithValues.
  rewrite (mapM_ext f g (split "|" t)) by auto.
  rewrite (getImplicitANDValue_ext f g) by auto.
  rewrite !H. reflexivity.
Qed.

Lemma body_guard (f : string -> Outcome Value) (t : string) :
  @getSimpleFilterValue_body (guarded host) f t
  = getSimpleFilterValue_body f t.
Proof.
  unfold getSimpleFilterValue_body, isJson, guarded.
  cbn [JSON_parse Date_toISOString URLSearchParams].
  destruct (t =? ""); [reflexivity|].
  destruct (json_container_prefix t) eqn:Hp; [reflexivity|].
  pose proof (isJson_prefix t Hp) as Hj. unfold isJson in Hj. rewrite Hj. reflexivity.
Qed.

Lemma getSimpleFilterValue_guard (n : nat) (t : string) :
  @getSimpleFilterValue (guarded host) n t
  = getSimpleFilterValue n t.
Proof.
  revert t; induction n as [|n IH]; intros t; [reflexivity|].
  simpl. rewrite body_guard. apply body_ext. exact IH.
Qed.

(** Tokens that do not begin as a JSON array or object are classified
    without a look at what [JSON.parse] makes of them. *)
Lemma classify_guard (t : string) : classify t = @classify (guarded host) t.
Proof. unfold classify. now rewrite getSimpleFilterValue_guard. Qed.

Lemma getFilter_guard (q : RawQuery) (def : Obj Value) :
  getFilter classify q def = getFilter (@classify (guarded host)) q def.
Proof. apply getFilter_ext. intros s _. apply classify_guard. Qed.

End Evaluation.

(** ** The claims of the specification *)

Section Claims.

Context {host : Host}.

(** The text of a JSON array or object begins as one. *)
Hypothesis JSON_parse_container :
  forall s v, JSON_parse s = Some v -> isObjectLike v = true ->
              json_container_prefix s = true.

(** Decoding can only shorten: a value of [new URLSearchParams(s)] has at
    most the length of [s]. *)
Hypothesis URLSearchParams_length :
  forall s k v, In (k, v) (URLSearchParams s) -> String.length v <= String.length s.

(** A closed example is evaluated on the guarded host, where the tokens at
    hand never reach the parser of the host. *)
Ltac evaluate :=
  rewrite ?(getFilter_guard JSON_parse_container),
          ?(classify_guard JSON_parse_container);
  vm_compute; reflexivity.

(** C1: compiling a filter can throw.  A malformed element of a multi-valued
    key, such as [{gt}], is classified to [null], and the merge of
    [getImplicitANDValue] then calls [Object.keys(null)], which throws a
    [TypeError]; so does a brace-concatenated token with a malformed
    segment.  Only for a scalar value is the [null] tested and the key
    dropped.  The same holds for every array whose elements are all
    classified, one of them to [null]. *)
Theorem C1_null_element_throws :
  snd (getFilter classify [("a", RArr ["{gt}"])] []) = Throw TypeError
  /\ snd (getFilter classify [("a", RStr "{gt}{lt}5")] []) = Throw TypeError
  /\ snd (getFilter classify [("a", RStr "{gt}")] []) = Ok []
  /\ (forall key tokens values,
        existsb (String.eqb key) reserved = false ->
        Forall2 (fun t v => classify t = Ok v) tokens values ->
        In VNull values ->
        snd (getFilter classify [(key, RArr tokens)] []) = Throw TypeError).
Proof.
  split; [evaluate|]. split; [evaluate|]. split; [evaluate|].
  intros key tokens values Hk Hv Hn.
  rewrite (getFilter_one_array _ _ _ _ Hk). cbn [snd].
  now rewrite (getImplicitANDValue_null classify tokens values Hv Hn).
Qed.


(** C3: the key sanitizer lets more through than letters, digits, underscore
    and dot.  The range [A-z] of its pattern [/[^A-z0-9_.]/g] also holds the
    five characters between [Z] and [a], so brackets, backslash, caret and
    backquote survive: the key [a[0]] is left as it is, in the filter, in the
    projection and in the sort. *)
Theorem C3_cleanKey_keeps_more :
  (forall key, cleanKey key = filter_chars key_char key)
  /\ cleanKey "a[0]" = "a[0]"
  /\ getSelect [("select", RStr "a[0]")] [] = Ok [("a[0]", VNum 1)]
  /\ getSort [("sort", RStr "-a^b")] [] = Ok [("a^b", VNum (-1))]
  /\ snd (getFilter (fun s => Ok (VStr s)) [("a[0]", RStr "x")] [])
     = Ok [("a[0]", VStr "x")].
Proof.
  split; [|repeat split; vm_compute; reflexivity].
  intros key. unfold cleanKey, StringUtils.cleanString.
  induction key as [|c key IH]; simpl; [reflexivity|]. rewrite IH.
  replace (negb (key_junk c)) with (key_char c); [reflexivity|].
  unfold key_junk, key_char. rewrite negb_involutive.
  destruct c as [[] [] [] [] [] [] [] []]; vm_compute; reflexivity.
Qed.

(** C4, as amended: the raw filter with [name: "*jo"],
    [age: "{gte}18{lte}65"] and [status: "a|b"] compiles to [name] with the
    case-insensitive pattern [^jo] (a leading star anchors at the start),
    [age] with [$gte: 18] and [$lte: 65], and [status] with
    [$or: ["a", "b"]]. *)
Theorem C4_compiled_example :
  snd (getFilter classify
         [("name", RStr "*jo"); ("age", RStr "{gte}18{lte}65"); ("status", RStr "a|b")] [])
  = Ok [("name", VObj [("$regex", VStr "^jo"); ("$options", VStr "i")]);
        ("age", VObj [("$gte", VNum 18); ("$lte", VNum 65)]);
        ("status", VObj [("$or", VArr [VStr "a"; VStr "b"])])].
Proof. evaluate. Qed.

(** C5: a tag with an empty value is classified to [null], and its key
    omitted, for the comparison tags, the element tags and [{elemMatch}];
    but not for the logical tags: [{and}], [{not}], [{nor}] and [{or}] have
    no test for the empty value, are classified to the operator with the
    value [null], and their key is kept. *)
Theorem C5_empty_operand :
  (forall operator key,
     In operator (comparison ++ element ++ ["$elemMatch"])%list ->
     existsb (String.eqb key) reserved = false ->
     classify (tag_of operator) = Ok VNull
     /\ snd (getFilter classify [(key, RStr (tag_of operator))] []) = Ok [])
  /\ (forall operator key,
        In operator logical ->
        existsb (String.eqb key) reserved = false ->
        classify (tag_of operator) = Ok (VObj [(operator, VNull)])
        /\ snd (getFilter classify [(key, RStr (tag_of operator))] [])
           = Ok (obj_set [] (cleanKey key) (VObj [(operator, VNull)])))
  /\ snd (getFilter classify [("key", RStr "{and}")] [])
     = Ok [("key", VObj [("$and", VNull)])].
Proof.
  split; [|split; [|evaluate]]; intros operator key Hin Hk;
    rewrite (getFilter_one_string _ _ _ _ Hk); cbn [snd]; simpl in Hin;
    repeat (destruct Hin as [E|Hin];
            [subst operator;
             match goal with
             | |- ?c = ?r /\ _ => assert (Hc : c = r) by evaluate; rewrite Hc
             end; split; reflexivity|]);
    destruct Hin.
Qed.

(** A token of groups goes to the implicit-AND branch. *)
Lemma body_and_groups (f : string -> Outcome Value) (gs : list (string * string)) :
  groups_wf gs = true ->
  isElementMatchFilter (concat_groups gs) = false ->
  isLogicalOperator (concat_groups gs) = false ->
  getSimpleFilterValue_body f (concat_groups gs)
  = getImplicitANDValue f (and_pieces (concat_groups gs)).
Proof.
  unfold groups_wf. rewrite andb_true_iff. intros [Hlen Hg] Hem Hlo.
  apply Nat.leb_le in Hlen.
  assert (Hne : gs <> []) by (destruct gs; [simpl in Hlen; lia | discriminate]).
  assert (Hpipe : mem_char "|" (concat_groups gs) = false).
  { apply concat_groups_mem; try easy. now apply forallb_group_no_pipe. }
  unfold getSimpleFilterValue_body.
  assert (E0 : (concat_groups gs =? "") = false).
  { destruct gs as [|g gs]; [congruence | reflexivity]. }
  rewrite E0, (isJson_prefix JSON_parse_container _ (groups_no_json gs Hne Hg)), Hem, Hlo.
  assert (Eor : isORFilter (concat_groups gs) = false).
  { unfold isORFilter. now rewrite indexOf_mem, Hpipe. }
  assert (Eand : isANDFilter (concat_groups gs) = true).
  { unfold isANDFilter. rewrite indexOf_mem.
    replace (mem_char "{" (concat_groups gs)) with true
      by (destruct gs as [|g gs]; [congruence | reflexivity]).
    rewrite (split_groups gs Hg). cbn [List.filter non_empty String.eqb negb].
    rewrite (filter_non_empty_pieces gs (fun x => x)) by (intros; apply non_empty_piece).
    rewrite length_map. apply Nat.ltb_lt. lia. }
  rewrite Eor, Eand. reflexivity.
Qed.

Lemma groups_ok_wf (gs : list (string * string)) : groups_ok gs = true -> groups_wf gs = true.
Proof.
  unfold groups_ok, groups_wf. rewrite !andb_true_iff.
  intros [Hlen Hg]. split; [assumption | now apply forallb_group_wf].
Qed.

(** Without a comma in the values, the pieces are the groups. *)
Lemma and_pieces_groups_ok (gs : list (string * string)) :
  forallb group_ok gs = true -> and_pieces (concat_groups gs) = map group_text gs.
Proof.
  intros Hg. pose proof (forallb_group_wf gs Hg) as Hw.
  assert (Hcomma : mem_char "," (concat_groups gs) = false).
  { apply concat_groups_mem; try easy. apply forallb_group_no; auto. }
  unfold and_pieces. rewrite (and_split_no_comma _ Hcomma), (split_groups gs Hw).
  cbn [List.filter non_empty String.eqb negb]. rewrite map_map.
  apply (filter_non_empty_pieces gs (String "{")). reflexivity.
Qed.

(** C6: a token of two or more concatenated [{op}value] groups, which is
    neither an element-match nor a logical-operator token, is split at its
    opening braces and at its commas: each group gives the group up to its
    first comma, then the pieces of its value between the commas, and the
    token is classified as the merge of all these.  When no value holds a
    comma, these are the groups, one substring per group.  When each piece
    is classified to a single-operator object, the merge is the object that
    holds their operators, with no [$and] around it, and the value of an
    operator is the one of the last piece that gives it.  So [{gt}5{lt}10]
    is classified to [$gt: 5, $lt: 10] and [{gt}5{gt}7] to [$gt: 7].  The
    token [{in}a,b{nin}c,d] of the two groups [{in}a,b] and [{nin}c,d] is
    split into the four pieces [{in}a], [b], [{nin}c] and [d], and is
    classified to [0: d, $in: a, $nin: c], where the merge of its two groups
    is [$in: a,b, $nin: c,d]. *)
Theorem C6_implicit_and :
  (forall gs,
     groups_wf gs = true ->
     isElementMatchFilter (concat_groups gs) = false ->
     isLogicalOperator (concat_groups gs) = false ->
     classify (concat_groups gs)
     = getImplicitANDValue classify (flat_map comma_pieces gs))
  /\ (forall gs,
        groups_ok gs = true ->
        isElementMatchFilter (concat_groups gs) = false ->
        isLogicalOperator (concat_groups gs) = false ->
        classify (concat_groups gs) = getImplicitANDValue classify (map group_text gs))
  /\ (forall tokens entries,
        Forall2 (fun t kv => classify t = Ok (VObj [kv])) tokens entries ->
        getImplicitANDValue classify tokens = Ok (VObj (merge entries))
        /\ forall k, k <> "__proto__" -> obj_get (merge entries) k = obj_get (rev entries) k)
  /\ classify "{gt}5{lt}10" = Ok (VObj [("$gt", VNum 5); ("$lt", VNum 10)])
  /\ classify "{gt}5{gt}7" = Ok (VObj [("$gt", VNum 7)])
  /\ concat_groups [("in", "a,b"); ("nin", "c,d")] = "{in}a,b{nin}c,d"
  /\ flat_map comma_pieces [("in", "a,b"); ("nin", "c,d")] = ["{in}a"; "b"; "{nin}c"; "d"]
  /\ classify "{in}a,b{nin}c,d"
     = Ok (VObj [("0", VStr "d"); ("$in", VStr "a"); ("$nin", VStr "c")])
  /\ classify "{in}a,b" = Ok (VObj [("$in", VStr "a,b")])
  /\ classify "{nin}c,d" = Ok (VObj [("$nin", VStr "c,d")])
  /\ merge [("$in", VStr "a,b"); ("$nin", VStr "c,d")]
     = [("$in", VStr "a,b"); ("$nin", VStr "c,d")].
Proof.
  split; [|split; [|split; [|repeat split; try reflexivity; evaluate]]].
  - intros gs Hg Hem Hlo.
    rewrite (classify_unfold URLSearchParams_length), (body_and_groups _ gs Hg Hem Hlo).
    f_equal. apply and_pieces_groups.
    unfold groups_wf in Hg. now apply andb_true_iff in Hg as [_ Hg].
  - intros gs Hg Hem Hlo.
    rewrite (classify_unfold URLSearchParams_length),
      (body_and_groups _ gs (groups_ok_wf gs Hg) Hem Hlo).
    f_equal. apply and_pieces_groups_ok.
    unfold groups_ok in Hg. now apply andb_true_iff in Hg as [_ Hg].
  - intros tokens entries H. split.
    + rewrite (getImplicitANDValue_merge classify tokens
                 (map (fun kv => VObj [kv]) entries) (map (fun kv => [kv]) entries)).
      * unfold merge. now rewrite fold_singletons.
      * now apply Forall2_map_r.
      * apply Forall2_map_same. reflexivity.
    + intros k Hk. unfold merge. rewrite (merge_lookup entries [] k Hk).
      now destruct (obj_get (rev entries) k).
Qed.

Lemma classify_step (t : string) :
  classify t = getSimpleFilterValue_body (getSimpleFilterValue (String.length t)) t.
Proof. reflexivity. Qed.

Lemma substring_one_mem (c : ascii) (s : string) (n : nat) :
  String.substring n 1 s = String c "" -> mem_char c s = true.
Proof.
  revert n. induction s as [|a s IH]; intros n; [destruct n; discriminate|].
  destruct n as [|n]; cbn [String.substring mem_char].
  - intros H. injection H as -> _. now rewrite Ascii.eqb_refl.
  - intros H. rewrite (IH n H). apply orb_true_r.
Qed.

Lemma endsWith_mem (c : ascii) (t : string) :
  endsWith (String c "") t = true -> mem_char c t = true.
Proof.
  unfold endsWith. rewrite andb_true_iff. intros [_ H].
  apply String.eqb_eq in H. now apply substring_one_mem in H.
Qed.

Lemma startsWith_head (c : ascii) (t : string) :
  startsWith (String c "") t = true -> exists s, t = String c s.
Proof.
  unfold startsWith. destruct t as [|a t]; simpl; [discriminate|].
  destruct (ascii_dec c a) as [->|]; [|discriminate]. intros _. now exists t.
Qed.

(** A token with a star that none of the earlier branches takes. *)
Lemma body_wildcard (f : string -> Outcome Value) (t : string) :
  mem_char "*" t = true ->
  isJson t = false -> isElementMatchFilter t = false -> isLogicalOperator t = false ->
  isANDFilter t = false -> isComparisonFilter t = false -> isElementFilter t = false ->
  startsWith "{regex}" t = false ->
  getSimpleFilterValue_body f t
  = Ok (regex_node
          (if startsWith "*" t
           then if endsWith "*" t then wildcard_body t else "^" ++ wildcard_body t
           else if endsWith "*" t then wildcard_body t ++ "$" else wildcard_body t)).
Proof.
  intros Hs Hj Hem Hlo Hand Hc He Hr. unfold getSimpleFilterValue_body.
  assert (E0 : (t =? "") = false) by (destruct t; [discriminate | reflexivity]).
  rewrite E0, Hj, Hem, Hlo.
  assert (Eor : isORFilter t = false).
  { unfold isORFilter. destruct (_ =? _)%Z; [reflexivity|].
    apply (no_match_outside _ _ "*" Hs). reflexivity. }
  rewrite Eor, Hand, Hc, He.
  unfold StringValidator.isISODate, StringValidator.isISODateTime,
    StringValidator.isNumberString.
  rewrite !(fun r H => no_match_outside r t "*" Hs H) by reflexivity.
  cbn [orb].
  assert (Et : (t =? "true") = false)
    by (destruct (String.eqb_spec t "true") as [->|]; [discriminate | reflexivity]).
  assert (Ef : (t =? "false") = false)
    by (destruct (String.eqb_spec t "false") as [->|]; [discriminate | reflexivity]).
  rewrite Et, Ef, indexOf_mem, Hs, Hr. cbn [orb negb andb].
  unfold regex_node, wildcard_body.
  destruct (startsWith "*" t); [|reflexivity].
  destruct (endsWith "*" t); [|reflexivity].
  cbn [append]. now rewrite substring_from_1.
Qed.

(** Of the earlier branches, only the implicit-AND one can take a token that
    starts with a star. *)
Lemma body_star_first (f : string -> Outcome Value) (t : string) :
  startsWith "*" t = true -> isANDFilter t = false ->
  getSimpleFilterValue_body f t
  = Ok (regex_node (if endsWith "*" t then wildcard_body t else "^" ++ wildcard_body t)).
Proof.
  intros Hs Hand. pose proof Hs as Ht. apply startsWith_head in Ht as [s ->].
  rewrite (body_wildcard f (String "*" s)); try reflexivity; try assumption.
  - now rewrite Hs.
  - now apply (isJson_prefix JSON_parse_container).
Qed.

(** C7: a token with a star that no earlier branch takes is classified to a
    case-insensitive regex node.  Its pattern is the token without the
    characters the value pattern removes, the stars among them, anchored
    with [^] in front when the token starts with a star, with [$] behind
    when it ends with one, and not anchored when it does both.  Of the
    earlier branches, the implicit-AND one alone can take a token that
    starts with a star.  So [*abc] gives [^abc], [abc*] gives [abc$] and
    [*abc*] gives [abc]; the token [*a{b], whose anchored pattern is
    [^a{b], goes to the implicit-AND branch, is split into [*a] and [{b],
    and is classified to [0: {, 1: b, $regex: ^a, $options: i]. *)
Theorem C7_wildcard_anchors :
  (forall t,
     startsWith "*" t = true -> isANDFilter t = false ->
     (endsWith "*" t = false -> classify t = Ok (regex_node ("^" ++ wildcard_body t)))
     /\ (endsWith "*" t = true -> classify t = Ok (regex_node (wildcard_body t))))
  /\ (forall t,
        startsWith "*" t = false -> endsWith "*" t = true ->
        isJson t = false -> isElementMatchFilter t = false ->
        isLogicalOperator t = false -> isANDFilter t = false ->
        isComparisonFilter t = false -> isElementFilter t = false ->
        startsWith "{regex}" t = false ->
        classify t = Ok (regex_node (wildcard_body t ++ "$")))
  /\ classify "*abc" = Ok (VObj [("$regex", VStr "^abc"); ("$options", VStr "i")])
  /\ classify "abc*" = Ok (VObj [("$regex", VStr "abc$"); ("$options", VStr "i")])
  /\ classify "*abc*" = Ok (VObj [("$regex", VStr "abc"); ("$options", VStr "i")])
  /\ startsWith "*" "*a{b" = true
  /\ isANDFilter "*a{b" = true
  /\ regex_node ("^" ++ wildcard_body "*a{b")
     = VObj [("$regex", VStr "^a{b"); ("$options", VStr "i")]
  /\ and_pieces "*a{b" = ["*a"; "{b"]
  /\ classify "*a{b"
     = Ok (VObj [("0", VStr "{"); ("1", VStr "b");
                 ("$regex", VStr "^a"); ("$options", VStr "i")]).
Proof.
  split; [|split; [|repeat split; try reflexivity; evaluate]].
  - intros t Hs Hand. rewrite classify_step, (body_star_first _ t Hs Hand).
    split; intros ->; reflexivity.
  - intros t Hs He Hj Hem Hlo Hand Hc Hel Hr.
    rewrite classify_step, (body_wildcard _ t (endsWith_mem _ _ He) Hj Hem Hlo Hand Hc Hel Hr).
    now rewrite Hs, He.
Qed.

Lemma getIntKey_after_page (q : RawQuery) (key : string) (def : float) :
  key <> "page" -> getIntKey (obj_delete q "page") key def = getIntKey q key def.
Proof. intros H. unfold getIntKey. now rewrite obj_get_delete_other. Qed.

Lemma getSelect_after_page (q : RawQuery) (def : Obj Value) :
  getSelect (obj_delete q "page") def = getSelect q def.
Proof. unfold getSelect. now rewrite obj_get_delete_other. Qed.

Lemma getSort_after_page (q : RawQuery) (def : Obj Value) :
  getSort (obj_delete q "page") def = getSort q def.
Proof. unfold getSort. now rewrite obj_get_delete_other. Qed.

(** A value whose text is that of an integer is truthy. *)
Lemma isInt_truthy (v : RawValue) :
  StringValidator.isInt (to_text v) = true -> falsy (Some v) = false.
Proof. destruct v as [[|c s]|l|m]; [discriminate | reflexivity..]. Qed.

(** C8: when the text of [page] is that of an integer (one decimal digit
    or more) whose number is greater than 1 and [parse] returns, the
    descriptor has the resolved [limit] and [skip = (page - 1) * limit],
    whatever [skip] the query gives; the numbers, the difference and the
    product are those of JavaScript, binary64.  The descriptor has no [page]
    field, and [page] reaches nothing but [skip]: without the [page] entry,
    [parse] returns the same [limit], [select], [sort] and [filter], and the
    [skip] of the query; and every key of the filter is the sanitized key of
    an entry that is not reserved. *)
Theorem C8_page_overrides_skip (query : RawQuery) (page : RawValue)
        (result : MongoQueryModel) :
  obj_get query "page" = Some page ->
  StringValidator.isInt (to_text page) = true ->
  (1 <? to_integer (to_text page))%float = true ->
  snd (parse query) = Ok result ->
  limit result = getIntKey query "limit" 100
  /\ skip result = ((to_integer (to_text page) - 1) * limit result)%float
  /\ snd (parse (obj_delete query "page"))
     = Ok {| limit := limit result; skip := getIntKey query "skip" 0;
             select := select result; sort := sort result; filter := filter result |}
  /\ (forall k v, In (k, v) (filter result) ->
        exists key raw, In (key, raw) query /\ not_reserved (key, raw) = true
                        /\ k = cleanKey key).
Proof.
  intros Hp Hi H1 Hr.
  assert (Hne : falsy (obj_get query "page") = false)
    by (rewrite Hp; now apply isInt_truthy).
  assert (Hdel : obj_get (obj_delete query "page") "page" = None).
  { rewrite obj_delete_filter.
    rewrite (obj_get_filter (fun x => negb (x =? "page")) query "page"). reflexivity. }
  unfold parse in *. rewrite Hne in Hr. rewrite Hdel.
  rewrite getSelect_after_page, getSort_after_page.
  rewrite !getIntKey_after_page by discriminate. rewrite getFilter_after_page.
  destruct (getSelect query []) as [sel|e|]; try discriminate.
  destruct (getSort query []) as [srt|e|]; try discriminate.
  destruct (getFilter classify query []) as [q' [f|e|]] eqn:Hf; try discriminate.
  cbn [snd bind negb falsy] in *. injection Hr as <-. cbn [limit skip select sort filter].
  split; [reflexivity|]. split; [|split; [reflexivity | exact (getFilter_keys _ _ _ _ _ Hf)]].
  assert (Hpage : getIntKey query "page" 1 = to_integer (to_text page)).
  { unfold getIntKey. rewrite Hp, (isInt_truthy page Hi), Hi. reflexivity. }
  unfold getSkipFromPage. rewrite Hpage, H1. reflexivity.
Qed.

(** The example of the specification: [limit: "10"] and [page: "3"] resolve
    to the limit 10 and the skip 20, also next to an explicit [skip] and for
    a [page] given as the array of one text.  Beyond [2^53] the numbers are
    rounded as they are read: the page [9007199254740993] is read as
    [9007199254740992]. *)
Example parse_limit_page :
  snd (parse [("limit", RStr "10"); ("page", RStr "3")])
  = Ok {| limit := 10; skip := 20; select := []; sort := []; filter := [] |}
  /\ snd (parse [("limit", RStr "10"); ("skip", RStr "7"); ("page", RStr "3")])
     = Ok {| limit := 10; skip := 20; select := []; sort := []; filter := [] |}
  /\ snd (parse [("limit", RStr "10"); ("page", RArr ["3"])])
     = Ok {| limit := 10; skip := 20; select := []; sort := []; filter := [] |}
  /\ snd (parse [("limit", RStr "1"); ("page", RStr "9007199254740993")])
     = Ok {| limit := 1; skip := 9007199254740991; select := []; sort := [];
             filter := [] |}.
Proof. repeat split; vm_compute; reflexivity. Qed.

(** C9: value classification terminates on every token.  What
    [getSimpleFilterValue] returns for a token depends on its recursive calls
    for strictly shorter strings only (the element-match, logical-operator,
    comparison-operator, pipe-split and brace-split calls are all of these);
    so [classify] satisfies the equation of the source, a fuel above the
    length of the token always gives the same outcome, and that outcome is a
    value or an exception, never a lack of fuel.  The empty token gives
    [null] and a token without brace and pipe is classified with no
    recursive call at all. *)
Theorem C9_classification_terminates :
  (forall f g t,
     (forall s, String.length s < String.length t -> f s = g s) ->
     getSimpleFilterValue_body f t = getSimpleFilterValue_body g t)
  /\ (forall t, classify t = getSimpleFilterValue_body classify t)
  /\ (forall t fuel,
        String.length t < fuel ->
        getSimpleFilterValue fuel t = classify t /\ classify t <> OutOfFuel)
  /\ (forall f, getSimpleFilterValue_body f "" = Ok VNull)
  /\ (forall f g t,
        mem_char "{" t = false -> mem_char "|" t = false ->
        getSimpleFilterValue_body f t = getSimpleFilterValue_body g t).
Proof.
  split; [|split; [|split; [|split]]].
  - intros f g t H. now apply body_shorter.
  - intros t. now apply classify_unfold.
  - intros t fuel H. split.
    + apply fuel_irrelevant; [assumption | assumption | lia].
    + now apply classify_fuel.
  - reflexivity.
  - intros f g t Hb Hp. unfold getSimpleFilterValue_body.
    unfold isElementMatchFilter, isLogicalOperator, isComparisonFilter.
    cbn [existsb logical replaceFirst Ascii.eqb Bool.eqb append].
    rewrite !(startsWith_first "{" _ t Hb). cbn [orb].
    unfold isORFilter, isANDFilter. rewrite !indexOf_mem, Hb, Hp. reflexivity.
Qed.

(** C10: when every token of an array value is classified to a string, the
    key is given an object, not an array and not a string: the merge
    enumerates the own keys of each string, so every property of that object
    has the decimal position of a character as its key and that one character
    as its value, and position [i] holds the character of the last string
    that is long enough.  So [key: ["ab"]] compiles to
    [key: { "0": "a", "1": "b" }]. *)
Theorem C10_array_of_plain_strings :
  (forall key tokens strs,
     existsb (String.eqb key) reserved = false ->
     Forall2 (fun t s => classify t = Ok (VStr s)) tokens strs ->
     snd (getFilter classify [(key, RArr tokens)] [])
     = Ok (obj_set [] (cleanKey key) (VObj (spread strs)))
     /\ (forall k v, In (k, v) (spread strs) ->
           exists s i c, In s strs /\ String.get i s = Some c
                         /\ k = index_key i /\ v = VStr (String c ""))
     /\ (forall i, obj_get (spread strs) (index_key i) = last_char_at i strs))
  /\ snd (getFilter classify [("key", RArr ["ab"])] [])
     = Ok [("key", VObj [("0", VStr "a"); ("1", VStr "b")])].
Proof.
  split; [|evaluate].
  intros key tokens strs Hk H. split; [|split].
  - rewrite (getFilter_one_array _ _ _ _ Hk). cbn [snd].
    rewrite (getImplicitANDValue_merge classify tokens
               (map VStr strs) (map (char_entries 0) strs)).
    + cbn [bind]. unfold spread. now rewrite fold_left_mapped.
    + now apply Forall2_map_r.
    + apply Forall2_map_same. reflexivity.
  - intros k v Hin. unfold spread in Hin.
    apply spread_In_acc in Hin as [[]|Hin]. exact Hin.
  - intros i. unfold spread, last_char_at. now rewrite spread_lookup_acc.
Qed.

End Claims.

(** ** The claims on the reference host *)

Lemma C1_witness :
  snd (@getFilter reference_host (@classify reference_host) [("a", RArr ["{gt}"; "{lt}5"])] [])
  = Throw TypeError.
Proof.
  apply (proj2 (proj2 (proj2
           (@C1_null_element_throws reference_host JSON_parse_ref_container)))
         "a" ["{gt}"; "{lt}5"] [VNull; VObj [("$lt", VNum 5)]]).
  - vm_compute. reflexivity.
  - repeat constructor.
  - simpl. auto.
Defined.



Lemma C4_counterexample :
  snd (@getFilter reference_host (@classify reference_host)
         [("name", RStr "*jo"); ("age", RStr "{gte}18{lte}65"); ("status", RStr "a|b")] [])
  <> Ok [("name", VObj [("$regex", VStr "jo$"); ("$options", VStr "i")]);
         ("age", VObj [("$gte", VNum 18); ("$lte", VNum 65)]);
         ("status", VObj [("$or", VArr [VStr "a"; VStr "b"])])].
Proof. vm_compute. discriminate. Qed.

Lemma C4_witness :
  snd (@getFilter reference_host (@classify reference_host)
         [("name", RStr "*jo"); ("age", RStr "{gte}18{lte}65"); ("status", RStr "a|b")] [])
  = Ok [("name", VObj [("$regex", VStr "^jo"); ("$options", VStr "i")]);
        ("age", VObj [("$gte", VNum 18); ("$lte", VNum 65)]);
        ("status", VObj [("$or", VArr [VStr "a"; VStr "b"])])].
Proof. exact (@C4_compiled_example reference_host JSON_parse_ref_container). Defined.

Lemma C5_witness :
  (@classify reference_host "{gt}" = Ok VNull
   /\ snd (@getFilter reference_host (@classify reference_host) [("key", RStr "{gt}")] []) = Ok [])
  /\ (@classify reference_host "{and}" = Ok (VObj [("$and", VNull)])
      /\ snd (@getFilter reference_host (@classify reference_host) [("key", RStr "{and}")] [])
         = Ok [("key", VObj [("$and", VNull)])]).
Proof.
  split.
  - apply (proj1 (@C5_empty_operand reference_host JSON_parse_ref_container) "$gt" "key").
    + simpl. auto.
    + reflexivity.
  - apply (proj1 (proj2 (@C5_empty_operand reference_host JSON_parse_ref_container))
             "$and" "key").
    + simpl. auto.
    + reflexivity.
Defined.

Lemma C6_witness :
  @classify reference_host (concat_groups [("in", "a,b"); ("nin", "c,d")])
  = getImplicitANDValue (@classify reference_host)
      (flat_map comma_pieces [("in", "a,b"); ("nin", "c,d")])
  /\ @classify reference_host (concat_groups [("gt", "5"); ("lt", "10")])
     = getImplicitANDValue (@classify reference_host)
         (map group_text [("gt", "5"); ("lt", "10")]).
Proof.
  split.
  - apply (proj1 (@C6_implicit_and reference_host
                    JSON_parse_ref_container URLSearchParams_ref_length)
             [("in", "a,b"); ("nin", "c,d")]); vm_compute; reflexivity.
  - apply (proj1 (proj2 (@C6_implicit_and reference_host
                           JSON_parse_ref_container URLSearchParams_ref_length))
             [("gt", "5"); ("lt", "10")]); vm_compute; reflexivity.
Defined.

Lemma C7_witness :
  @classify reference_host "*abc" = Ok (regex_node ("^" ++ wildcard_body "*abc"))
  /\ @classify reference_host "abc*" = Ok (regex_node (wildcard_body "abc*" ++ "$")).
Proof.
  split.
  - apply (proj1 (@C7_wildcard_anchors reference_host JSON_parse_ref_container) "*abc");
      vm_compute; reflexivity.
  - apply (proj1 (proj2 (@C7_wildcard_anchors reference_host JSON_parse_ref_container))
             "abc*"); vm_compute; reflexivity.
Defined.

Lemma C8_witness :
  limit {| limit := 10; skip := 20; select := []; sort := []; filter := [] |}
  = getIntKey [("limit", RStr "10"); ("skip", RStr "7"); ("page", RStr "3")] "limit" 100
  /\ skip {| limit := 10; skip := 20; select := []; sort := []; filter := [] |}
     = ((to_integer (to_text (RStr "3")) - 1)
        * limit {| limit := 10; skip := 20; select := []; sort := []; filter := [] |})%float.
Proof.
  split;
    apply (@C8_page_overrides_skip reference_host
             [("limit", RStr "10"); ("skip", RStr "7"); ("page", RStr "3")] (RStr "3")
             {| limit := 10; skip := 20; select := []; sort := []; filter := [] |});
    vm_compute; reflexivity.
Defined.

Lemma C9_witness :
  @getSimpleFilterValue reference_host 40 "{elemMatch}a={gt}5#b={or}x|y"
  = @classify reference_host "{elemMatch}a={gt}5#b={or}x|y"
  /\ @classify reference_host "{elemMatch}a={gt}5#b={or}x|y" <> OutOfFuel.
Proof.
  apply (proj1 (proj2 (proj2
           (@C9_classification_terminates reference_host URLSearchParams_ref_length)))).
  vm_compute. lia.
Defined.

Lemma C10_witness :
  snd (@getFilter reference_host (@classify reference_host) [("key", RArr ["ab"; "c"])] [])
  = Ok (obj_set [] (cleanKey "key") (VObj (spread ["ab"; "c"]))).
Proof.
  apply (proj1 (@C10_array_of_plain_strings reference_host JSON_parse_ref_container)
           "key" ["ab"; "c"] ["ab"; "c"]).
  - vm_compute. reflexivity.
  - repeat constructor.
Defined.

(** * Further properties of the compiler *)

(** ** Sanitized keys *)

Lemma key_char_junk (c : ascii) : negb (key_junk c) = key_char c.
Proof.
  unfold key_junk, key_char. rewrite negb_involutive.
  destruct c as [[] [] [] [] [] [] [] []]; vm_compute; reflexivity.
Qed.

Lemma cleanKey_chars (key : string) : all_chars key_char (cleanKey key) = true.
Proof.
  unfold cleanKey, StringUtils.cleanString.
  induction key as [|c key IH]; cbn [filter_chars all_chars]; [reflexivity|].
  rewrite key_char_junk. destruct (key_char c) eqn:E; [|exact IH].
  cbn [all_chars]. now rewrite E, IH.
Qed.

Lemma cleanKey_clean (key : string) : all_chars key_char key = true -> cleanKey key = key.
Proof.
  unfold cleanKey, StringUtils.cleanString.
  induction key as [|c key IH]; cbn [filter_chars all_chars]; [reflexivity|].
  rewrite key_char_junk. intros H. apply andb_true_iff in H as [-> H].
  now rewrite IH.
Qed.

Lemma cleanKey_dash (key : string) : cleanKey (String "-" key) = cleanKey key.
Proof. reflexivity. Qed.

Lemma obj_set_In_defined {A} (o : Obj A) (k : string) (v : A) (k' : string) (v' : A) :
  In (k', v') (obj_set o k v) ->
  (k' = k /\ v' = v /\ k <> "__proto__") \/ In (k', v') o.
Proof.
  unfold obj_set. destruct (String.eqb_spec k "__proto__") as [->|Hn]; [auto|].
  intros H. apply obj_define_In in H as [H|H]; [|auto].
  injection H as -> ->. auto.
Qed.

Lemma obj_get_NoDup {A} (o : Obj A) (k : string) (v : A) :
  NoDup (map fst o) -> In (k, v) o -> obj_get o k = Some v.
Proof.
  induction o as [|[k1 v1] o IH]; cbn [map fst obj_get]; intros Hd Hin; [destruct Hin|].
  inversion Hd as [|? ? Hn Hd']; subst.
  destruct Hin as [E|Hin].
  - injection E as -> ->. now rewrite String.eqb_refl.
  - destruct (String.eqb_spec k1 k) as [->|_]; [|now apply IH].
    exfalso. apply Hn. apply in_map_iff. now exists (k, v).
Qed.

(** ** Splitting what was joined *)

Lemma split_no (c : ascii) (s : string) : mem_char c s = false -> split c s = [s].
Proof.
  intros H. rewrite <- (append_nil_r s) at 1. rewrite (split_app_no c s "" H).
  cbn [split]. now rewrite append_nil_r.
Qed.

Lemma split_join (c : ascii) (l : list string) :
  l <> [] -> Forall (fun s => mem_char c s = false) l ->
  split c (join (String c "") l) = l.
Proof.
  induction l as [|s l IH]; [congruence|]. intros _ H.
  inversion H as [|? ? Hs Hl]; subst. destruct l as [|s' l].
  - cbn [join]. now apply split_no.
  - change (join (String c "") (s :: s' :: l))
      with (s ++ String c (join (String c "") (s' :: l))).
    rewrite (split_app_no c s _ Hs). cbn [split]. rewrite Ascii.eqb_refl.
    rewrite IH by (auto; discriminate). now rewrite append_nil_r.
Qed.

(** ** Projections and sort orders *)

Lemma field_text_key (f : bool * string) :
  field_name_ok (snd f) = true -> cleanKey (field_text f) = snd f.
Proof.
  unfold field_name_ok, field_text. intros H. apply andb_true_iff in H as [H _].
  destruct f as [[] name]; cbn [fst snd append]; [rewrite cleanKey_dash|];
    now apply cleanKey_clean.
Qed.

Lemma field_text_dash (f : bool * string) :
  field_name_ok (snd f) = true -> startsWith "-" (field_text f) = fst f.
Proof.
  unfold field_name_ok, field_text. intros H. apply andb_true_iff in H as [H _].
  destruct f as [[] name]; cbn [fst snd append].
  - unfold startsWith. cbn [String.prefix]. now destruct name.
  - apply startsWith_first. now apply (all_chars_mem key_char).
Qed.

Lemma field_text_comma (f : bool * string) :
  field_name_ok (snd f) = true -> mem_char "," (field_text f) = false.
Proof.
  unfold field_name_ok, field_text. intros H. apply andb_true_iff in H as [H _].
  rewrite mem_char_app, (all_chars_mem key_char _ "," H eq_refl).
  now destruct (fst f).
Qed.

(** The object that the fold of [getSelect] and of [getSort] builds from
    well-formed fields: [other] is the number of a field with a dash. *)
Lemma fields_fold (other : Q) (fields : list (bool * string)) (acc : Obj Value) :
  Forall (fun f => field_name_ok (snd f) = true) fields ->
  fold_left (fun (obj : Obj Value) (key : string) =>
               obj_set obj (cleanKey key)
                       (VNum (if startsWith "-" key then other else 1%Q)))
            (map field_text fields) acc
  = fold_left (fun acc kv => obj_set acc (fst kv) (snd kv))
              (map (fun f : bool * string => (snd f, VNum (if fst f then other else 1%Q)))
                   fields) acc.
Proof.
  intros H. revert acc. induction H as [|f fields Hf _ IH]; intros acc; [reflexivity|].
  cbn [map fold_left fst snd]. rewrite (field_text_key f Hf), (field_text_dash f Hf).
  apply IH.
Qed.

Lemma fields_lookup (other : Q) (fields : list (bool * string)) :
  Forall (fun f => field_name_ok (snd f) = true) fields ->
  NoDup (map snd fields) ->
  let o := fold_left (fun acc kv => obj_set acc (fst kv) (snd kv))
             (map (fun f : bool * string => (snd f, VNum (if fst f then other else 1%Q)))
                  fields) [] in
  (forall neg name, In (neg, name) fields ->
     obj_get o name = Some (VNum (if neg then other else 1%Q)))
  /\ (forall k v, In (k, v) o ->
        exists neg, In (neg, k) fields /\ v = VNum (if neg then other else 1%Q)).
Proof.
  intros Hok Hd o. split.
  - intros neg name Hin. unfold o. rewrite merge_lookup.
    + rewrite (obj_get_NoDup _ name (VNum (if neg then other else 1%Q))); [reflexivity| |].
      * rewrite map_rev, map_map. cbn [fst]. now apply NoDup_rev.
      * apply in_rev. rewrite rev_involutive. apply in_map_iff. now exists (neg, name).
    + rewrite Forall_forall in Hok. specialize (Hok _ Hin). cbn [snd] in Hok.
      unfold field_name_ok in Hok. apply andb_true_iff in Hok as [_ Hn].
      destruct (String.eqb_spec name "__proto__"); [discriminate | assumption].
  - intros k v Hin. unfold o in Hin. apply fold_set_In in Hin as [[]|Hin].
    apply in_map_iff in Hin as ([neg name] & E & Hin). cbn [fst snd] in E.
    injection E as <- <-. now exists neg.
Qed.

Lemma fields_split (fields : list (bool * string)) :
  fields_text fields <> "" ->
  Forall (fun f => field_name_ok (snd f) = true) fields ->
  StringUtils.splitString (fields_text fields) "," = map field_text fields.
Proof.
  intros Hne Hok. unfold StringUtils.splitString, fields_text. apply split_join.
  - destruct fields; [now elim Hne | discriminate].
  - apply Forall_map. revert Hok. apply Forall_impl. exact field_text_comma.
Qed.

(** X1: the projection of a list of fields.  When [select] is the
    comma-separated list of distinct well-formed names, some of them with a
    dash in front, the projection has exactly these names, with 0 under a
    name written with a dash and 1 under the others. *)
Theorem X1_getSelect_fields (query : RawQuery) (def : Obj Value)
        (fields : list (bool * string)) :
  obj_get query "select" = Some (RStr (fields_text fields)) ->
  fields_text fields <> "" ->
  Forall (fun f => field_name_ok (snd f) = true) fields ->
  NoDup (map snd fields) ->
  exists o,
    getSelect query def = Ok o
    /\ (forall neg name, In (neg, name) fields ->
          obj_get o name = Some (VNum (if neg then 0%Q else 1%Q)))
    /\ (forall k v, In (k, v) o ->
          exists neg, In (neg, k) fields /\ v = VNum (if neg then 0%Q else 1%Q)).
Proof.
  intros Hq Hne Hok Hd. unfold getSelect. rewrite Hq. cbn [falsy].
  destruct (String.eqb_spec (fields_text fields) "") as [E|_]; [contradiction|].
  rewrite (fields_split _ Hne Hok), (fields_fold 0%Q _ _ Hok).
  eexists. split; [reflexivity|]. now apply fields_lookup.
Qed.

(** X2: the sort order of a list of fields.  When [sort] is the
    comma-separated list of distinct well-formed names, some of them with a
    dash in front, the sort order has exactly these names, with -1 under a
    name written with a dash and 1 under the others. *)
Theorem X2_getSort_fields (query : RawQuery) (def : Obj Value)
        (fields : list (bool * string)) :
  obj_get query "sort" = Some (RStr (fields_text fields)) ->
  fields_text fields <> "" ->
  Forall (fun f => field_name_ok (snd f) = true) fields ->
  NoDup (map snd fields) ->
  exists o,
    getSort query def = Ok o
    /\ (forall neg name, In (neg, name) fields ->
          obj_get o name = Some (VNum (if neg then (-1)%Q else 1%Q)))
    /\ (forall k v, In (k, v) o ->
          exists neg, In (neg, k) fields /\ v = VNum (if neg then (-1)%Q else 1%Q)).
Proof.
  intros Hq Hne Hok Hd. unfold getSort. rewrite Hq. cbn [falsy].
  destruct (String.eqb_spec (fields_text fields) "") as [E|_]; [contradiction|].
  rewrite (fields_split _ Hne Hok), (fields_fold (-1)%Q _ _ Hok).
  eexists. split; [reflexivity|]. now apply fields_lookup.
Qed.

Lemma keys_fold_In (g : string -> Value) (keys : list string) (acc : Obj Value)
      (k : string) (v : Value) :
  In (k, v) (fold_left (fun (obj : Obj Value) (key : string) =>
                          obj_set obj (cleanKey key) (g key)) keys acc) ->
  In (k, v) acc
  \/ (k <> "__proto__" /\ exists key, In key keys /\ k = cleanKey key /\ v = g key).
Proof.
  revert acc. induction keys as [|key keys IH]; intros acc; cbn [fold_left]; [auto|].
  intros H. apply IH in H as [H|(Hp & key' & Hin & E)].
  - apply obj_set_In_defined in H as [(-> & -> & Hp)|H]; [right|now left].
    split; [assumption|]. exists key. cbn [In]. auto.
  - right. split; [assumption|]. exists key'. cbn [In]. auto.
Qed.

(** X3: what a projection and a sort order hold, for any text.  Every
    entry comes from a segment of the text between commas: its key is the
    sanitized segment, made of the characters the sanitizer lets through and
    never [__proto__], and its value tells whether the segment starts with
    a dash, with 0 or 1 in a projection and -1 or 1 in a sort order. *)
Theorem X3_getSelect_getSort_entries (query : RawQuery) (def : Obj Value) (text : string) :
  text <> "" ->
  (obj_get query "select" = Some (RStr text) ->
   exists o,
     getSelect query def = Ok o
     /\ forall k v, In (k, v) o ->
          k <> "__proto__" /\ all_chars key_char k = true
          /\ exists segment,
               In segment (split "," text) /\ k = cleanKey segment
               /\ v = VNum (if startsWith "-" segment then 0%Q else 1%Q))
  /\ (obj_get query "sort" = Some (RStr text) ->
      exists o,
        getSort query def = Ok o
        /\ forall k v, In (k, v) o ->
             k <> "__proto__" /\ all_chars key_char k = true
             /\ exists segment,
                  In segment (split "," text) /\ k = cleanKey segment
                  /\ v = VNum (if startsWith "-" segment then (-1)%Q else 1%Q)).
Proof.
  intros Hn. apply String.eqb_neq in Hn.
  split; intros Hq; [unfold getSelect | unfold getSort]; rewrite Hq; cbn [falsy];
    rewrite Hn; eexists; (split; [reflexivity|]); intros k v Hin;
    unfold StringUtils.splitString in Hin;
    apply keys_fold_In in Hin as [[]|(Hp & segment & Hs & -> & ->)];
    (split; [assumption|]); (split; [apply cleanKey_chars|]); now exists segment.
Qed.

(** ** What a compiled filter holds *)

Lemma getImplicitANDValue_object (f : string -> Outcome Value) (tokens : list string)
      (v : Value) :
  getImplicitANDValue f tokens = Ok v -> exists o, v = VObj o.
Proof.
  unfold getImplicitANDValue. destruct (getMapOfOperatorsWithValues f tokens); try discriminate.
  cbn [bind]. destruct (foldM _ _ _) as [acc| |]; try discriminate.
  cbn [bind]. intros H. injection H as <-. now exists acc.
Qed.

(** No condition of a compiled filter is [null], no key is [__proto__]. *)
Lemma getFilter_defined {host : Host} (f : string -> Outcome Value) (q q' : RawQuery)
      (def o : Obj Value) :
  getFilter f q def = (q', Ok o) ->
  forall k v, In (k, v) o -> v <> VNull /\ k <> "__proto__".
Proof.
  unfold getFilter. intros H. injection H as _ H.
  refine (foldM_invariant
            (fun obj : Obj Value => forall k v, In (k, v) obj ->
               v <> VNull /\ k <> "__proto__") _ _ _ [] o _ H).
  - intros obj key obj' _ Hobj Hstep k v Hk.
    destruct (obj_get _ key) as [[s|l|m]|]; [| | |injection Hstep as <-; auto].
    + destruct (f s) as [value| |]; try discriminate. cbn [bind] in Hstep.
      destruct value; injection Hstep as <-; auto;
        (apply obj_set_In_defined in Hk as [(-> & -> & Hp)|Hk];
         [split; [discriminate | assumption] | auto]).
    + destruct (getImplicitANDValue f l) as [value| |] eqn:E; try discriminate.
      cbn [bind] in Hstep. injection Hstep as <-.
      apply obj_set_In_defined in Hk as [(-> & -> & Hp)|Hk]; auto.
      apply getImplicitANDValue_object in E as [acc ->].
      split; [discriminate | assumption].
    + destruct getSimpleFilterValue_mapping as [value| |]; try discriminate.
      cbn [bind] in Hstep.
      destruct value; injection Hstep as <-; auto;
        (apply obj_set_In_defined in Hk as [(-> & -> & Hp)|Hk];
         [split; [discriminate | assumption] | auto]).
  - intros k v [].
Qed.

(** X4: what a compiled filter holds, whatever the classifier returns.
    No condition is [null], no key is [__proto__], and every key is the
    sanitized key of an entry of the query that is not a reserved one, so it
    is made of the characters the sanitizer lets through. *)
Theorem X4_getFilter_entries {host : Host} (f : string -> Outcome Value)
        (q q' : RawQuery) (def o : Obj Value) (k : string) (v : Value) :
  getFilter f q def = (q', Ok o) ->
  In (k, v) o ->
  v <> VNull /\ k <> "__proto__" /\ all_chars key_char k = true
  /\ exists key raw, In (key, raw) q /\ not_reserved (key, raw) = true /\ k = cleanKey key.
Proof.
  intros H Hin.
  destruct (getFilter_defined f q q' def o H k v Hin) as [Hv Hp].
  destruct (getFilter_keys f q q' def o H k v Hin) as (key & raw & Hq & Hr & ->).
  repeat split; auto; [apply cleanKey_chars|]. now exists key, raw.
Qed.

(** ** Pagination *)

(** X5: a page that is not above 1.  When the query has a [page] that is
    truthy (a text that is not empty, an array, a mapping) and the text it
    is converted to is not that of an integer above 1, the skip of the
    result is 0, whatever [skip] the query has. *)
Theorem X5_parse_page_not_above_one {host : Host} (query : RawQuery)
        (result : MongoQueryModel) :
  falsy (obj_get query "page") = false ->
  (forall page, obj_get query "page" = Some page ->
     StringValidator.isInt (to_text page) = true ->
     (1 <? to_integer (to_text page))%float = false) ->
  snd (parse query) = Ok result ->
  skip result = 0%float.
Proof.
  intros Hp Hi. unfold parse. rewrite Hp. cbn [negb].
  assert (E : getSkipFromPage query 1 (getIntKey query "limit" 100) = 0%float).
  { unfold getSkipFromPage, getIntKey at 1.
    destruct (obj_get query "page") as [page|] eqn:Eq; [|discriminate Hp].
    rewrite Hp. cbn [orb].
    destruct (StringValidator.isInt (to_text page)) eqn:Ei; [|reflexivity]. cbn [negb].
    now rewrite (Hi page eq_refl Ei). }
  rewrite E.
  destruct (getSelect query []); try discriminate.
  destruct (getSort query []); try discriminate.
  destruct (getFilter classify query []) as [q' r]. cbn [snd].
  destruct r; try discriminate. cbn [bind]. intros H. injection H as <-. reflexivity.
Qed.

(** ** Matching is membership in the language of the pattern *)

Lemma append_nil_inv (a b : string) : a ++ b = "" -> a = "" /\ b = "".
Proof. destruct a; [auto | discriminate]. Qed.

Lemma nullable_lang (r : RegExp) : nullable r = true <-> re_lang r "".
Proof.
  split.
  - induction r; cbn [nullable]; intros H; try discriminate.
    + constructor.
    + apply andb_true_iff in H as [H1 H2].
      change "" with ("" ++ ""). constructor; auto.
    + apply orb_true_iff in H as [H|H]; [apply lang_alt_l | apply lang_alt_r]; auto.
    + constructor.
  - remember "" as s eqn:Es. induction 1; cbn [nullable]; try reflexivity.
    + discriminate.
    + apply append_nil_inv in Es as [-> ->]. now rewrite IHre_lang1, IHre_lang2.
    + now rewrite IHre_lang.
    + rewrite IHre_lang by assumption. apply orb_true_r.
Qed.

Lemma lang_star_inv (r : RegExp) (c : ascii) (s : string) :
  re_lang (ReStar r) (String c s) ->
  exists s1 s2, s = s1 ++ s2 /\ re_lang r (String c s1) /\ re_lang (ReStar r) s2.
Proof.
  remember (ReStar r) as r' eqn:Er. remember (String c s) as t eqn:Et.
  intros H. revert Er Et. induction H; try discriminate.
  intros Er Et. injection Er as ->.
  destruct s1 as [|a s1].
  - apply IHre_lang2; auto.
  - cbn [append] in Et. injection Et as -> <-. now exists s1, s2.
Qed.

Lemma lang_seq_inv (r1 r2 : RegExp) (s : string) :
  re_lang (ReSeq r1 r2) s ->
  exists s1 s2, s = s1 ++ s2 /\ re_lang r1 s1 /\ re_lang r2 s2.
Proof. inversion 1; subst. now exists s1, s2. Qed.

Lemma lang_class_inv (p : ascii -> bool) (s : string) :
  re_lang (ReClass p) s -> exists c, s = String c "" /\ p c = true.
Proof. inversion 1; subst. now exists c. Qed.

Lemma deriv_lang (c : ascii) (r : RegExp) (s : string) :
  re_lang (deriv c r) s <-> re_lang r (String c s).
Proof.
  revert s. induction r as [| |p|r1 IH1 r2 IH2|r1 IH1 r2 IH2|r1 IH1]; intros s; cbn [deriv].
  - split; inversion 1.
  - split; inversion 1.
  - split.
    + destruct (p c) eqn:E; inversion 1; subst. now constructor.
    + inversion 1; subst. rewrite H2. constructor.
  - split.
    + intros H.
      assert (Hl : forall t, re_lang (ReSeq (deriv c r1) r2) t ->
                             re_lang (ReSeq r1 r2) (String c t)).
      { intros t Ht. inversion Ht; subst.
        change (String c (s1 ++ s2)) with (String c s1 ++ s2).
        constructor; [now apply IH1 | assumption]. }
      destruct (nullable r1) eqn:En; [|now apply Hl].
      inversion H; subst; [now apply Hl|].
      change (String c s) with ("" ++ String c s).
      constructor; [now apply nullable_lang | now apply IH2].
    + intros H. apply lang_seq_inv in H as (s1 & s2 & E & H1 & H2).
      destruct s1 as [|a s1].
      * cbn [append] in E. subst s2.
        apply nullable_lang in H1. rewrite H1. apply lang_alt_r. now apply IH2.
      * cbn [append] in E. injection E as <- ->.
        assert (Hs : re_lang (ReSeq (deriv c r1) r2) (s1 ++ s2))
          by (constructor; [now apply IH1 | assumption]).
        destruct (nullable r1); [now apply lang_alt_l | assumption].
  - split.
    + inversion 1; subst; [apply lang_alt_l; now apply IH1 | apply lang_alt_r; now apply IH2].
    + inversion 1; subst; [apply lang_alt_l; now apply IH1 | apply lang_alt_r; now apply IH2].
  - split.
    + inversion 1; subst.
      change (String c (s1 ++ s2)) with (String c s1 ++ s2).
      constructor; [now apply IH1 | assumption].
    + intros H. apply lang_star_inv in H as (s1 & s2 & -> & H1 & H2).
      constructor; [now apply IH1 | assumption].
Qed.

Lemma re_match_lang (r : RegExp) (s : string) : re_match r s = true <-> re_lang r s.
Proof.
  revert r. induction s as [|c s IH]; intros r; cbn [re_match].
  - apply nullable_lang.
  - rewrite IH. apply deriv_lang.
Qed.

(** ** The patterns of the source, read as conditions on the characters *)

Lemma all_chars_app (p : ascii -> bool) (a b : string) :
  all_chars p (a ++ b) = all_chars p a && all_chars p b.
Proof.
  induction a as [|c a IH]; cbn [append all_chars]; [reflexivity|].
  now rewrite IH, andb_assoc.
Qed.

Lemma lang_star_chars (r : RegExp) (p : ascii -> bool) (s : string) :
  (forall t, re_lang r t -> all_chars p t = true) ->
  re_lang (ReStar r) s -> all_chars p s = true.
Proof.
  intros Hr. remember (ReStar r) as r' eqn:Er. intros H. revert Er.
  induction H; try discriminate; intros Er; injection Er as ->; [reflexivity|].
  rewrite all_chars_app, (Hr _ H). now apply IHre_lang2.
Qed.

Lemma lang_star_of_chars (r : RegExp) (p : ascii -> bool) (s : string) :
  (forall c, p c = true -> re_lang r (String c "")) ->
  all_chars p s = true -> re_lang (ReStar r) s.
Proof.
  intros Hr. induction s as [|c s IH]; cbn [all_chars]; intros H; [constructor|].
  apply andb_true_iff in H as [Hc Hs].
  change (String c s) with (String c "" ++ s). constructor; auto.
Qed.

Lemma chars_then_last_spec (p q : ascii -> bool) (s : string) :
  chars_then_last p q s = true
  <-> exists m b, s = m ++ String b "" /\ m <> "" /\ all_chars p m = true /\ q b = true.
Proof.
  split.
  - induction s as [|a s IH]; [discriminate|].
    destruct s as [|b [|c s]]; cbn [chars_then_last]; [discriminate| |].
    + intros H. apply andb_true_iff in H as [Ha Hb].
      exists (String a ""), b. cbn [all_chars]. rewrite Ha. repeat split; auto. discriminate.
    + intros H. apply andb_true_iff in H as [Ha Hs].
      destruct (IH Hs) as (m & d & E & _ & Hm & Hd).
      exists (String a m), d. cbn [append all_chars]. rewrite E, Ha, Hm.
      repeat split; auto. discriminate.
  - intros (m & b & -> & Hne & Hm & Hb). induction m as [|a m IH]; [congruence|].
    cbn [all_chars] in Hm. apply andb_true_iff in Hm as [Ha Hm].
    destruct m as [|c m].
    + cbn [append chars_then_last]. now rewrite Ha, Hb.
    + assert (Hr : chars_then_last p q (String c m ++ String b "") = true)
        by (apply IH; [discriminate | assumption]).
      cbn [append] in *. destruct (m ++ String b "") eqn:E.
      * destruct m; discriminate.
      * cbn [chars_then_last]. cbn [chars_then_last] in Hr. now rewrite Ha, Hr.
Qed.

Lemma chars_then_last_ext (p p' q q' : ascii -> bool) (s : string) :
  (forall c, p c = p' c) -> (forall c, q c = q' c) ->
  chars_then_last p q s = chars_then_last p' q' s.
Proof.
  intros Hp Hq. induction s as [|a s IH]; [reflexivity|].
  destruct s as [|b [|c s]]; cbn [chars_then_last]; [reflexivity| |].
  - now rewrite Hp, Hq.
  - rewrite Hp. f_equal. exact IH.
Qed.

(** A repetition of a pattern [r] whose matches are made of the characters
    of [p], one of which is enough for a match, and then one
    character of [q]. *)
Lemma lang_plus_last (r : RegExp) (p q : ascii -> bool) (s : string) :
  (forall t, re_lang r t -> t <> "" /\ all_chars p t = true) ->
  (forall c, p c = true -> re_lang r (String c "")) ->
  re_match (ReSeq (RePlus r) (ReClass q)) s = chars_then_last p q s.
Proof.
  intros Hr Hc. apply eq_true_iff_eq. rewrite re_match_lang, chars_then_last_spec. split.
  - intros H. apply lang_seq_inv in H as (s12 & s3 & -> & H12 & H3).
    apply lang_seq_inv in H12 as (s1 & s2 & -> & H1 & H2).
    apply lang_class_inv in H3 as (c & -> & Hq). exists (s1 ++ s2), c.
    destruct (Hr _ H1) as [Hne Hp]. repeat split; auto.
    + intros E. apply append_nil_inv in E as [E _]. contradiction.
    + rewrite all_chars_app, Hp. apply (lang_star_chars r p); [|assumption].
      intros t Ht. now apply Hr.
  - intros (m & b & -> & Hne & Hm & Hb). destruct m as [|a m]; [congruence|].
    cbn [all_chars] in Hm. apply andb_true_iff in Hm as [Ha Hm].
    constructor; [|now constructor].
    change (String a m) with (String a "" ++ m). constructor; [now apply Hc|].
    now apply (lang_star_of_chars r p).
Qed.

Lemma or_class_char (c : ascii) :
  is_char "{" c || is_word c || is_space c || is_char "@" c || in_range "." "}" c
  = or_char c.
Proof. destruct c as [[] [] [] [] [] [] [] []]; vm_compute; reflexivity. Qed.

Lemma or_last_class_char (c : ascii) :
  is_char "{" c || is_word c || is_char "@" c || in_range "." "}" c = in_range "." "}" c.
Proof. destruct c as [[] [] [] [] [] [] [] []]; vm_compute; reflexivity. Qed.

Lemma or_pattern_chars (t : string) :
  re_match or_pattern t = chars_then_last or_char (in_range "." "}") t.
Proof.
  unfold or_pattern.
  rewrite (lang_plus_last _ or_char).
  - apply chars_then_last_ext; [reflexivity | exact or_last_class_char].
  - intros s H. apply lang_seq_inv in H as (s1 & s2 & -> & H1 & H2).
    apply lang_class_inv in H1 as (c & -> & Hc). rewrite or_class_char in Hc.
    split; [discriminate|]. cbn [append all_chars]. rewrite Hc.
    inversion H2 as [| | |? ? ? Hb|? ? ? He| |]; subst; [|inversion He; reflexivity].
    apply lang_class_inv in Hb as (b & -> & Hb). unfold is_char in Hb.
    apply Ascii.eqb_eq in Hb as <-. reflexivity.
  - intros c Hc. change (String c "") with (String c "" ++ "").
    constructor; [constructor; now rewrite or_class_char|].
    apply lang_alt_r. constructor.
Qed.

(** X6: the tokens [isORFilter] accepts.  A token is an OR filter exactly
    when it holds a pipe, has two characters or more, each of them white
    space or a character from [.] to [}], and does not end with white
    space: the optional pipe of the pattern adds nothing, a pipe being in
    the range, and a character below [.] that is not white space, a dash
    among them, makes the token no OR filter. *)
Theorem X6_isORFilter_chars (filter : string) :
  isORFilter filter
  = mem_char "|" filter && chars_then_last or_char (in_range "." "}") filter.
Proof.
  unfold isORFilter, StringUtils.testString. rewrite indexOf_mem, or_pattern_chars.
  now destruct (mem_char "|" filter).
Qed.

(** X7: the values [isSimpleFilter] accepts: two characters or more, each
    of them a word character, white space or one of [{], [}], [@], [.] and
    [-], the last one not white space. *)
Theorem X7_isSimpleFilter_chars (value : string) :
  isSimpleFilter value = chars_then_last simple_class simple_last_class value.
Proof.
  unfold isSimpleFilter, StringUtils.testString, simple_pattern.
  apply lang_plus_last.
  - intros t H. apply lang_class_inv in H as (c & -> & Hc).
    cbn [all_chars]. rewrite Hc. split; [discriminate | reflexivity].
  - intros c Hc. now constructor.
Qed.

(** ** Traversals, once more *)

Lemma foldM_app {A B} (f : B -> A -> Outcome B) (l1 l2 : list A) (init : B) :
  foldM f (l1 ++ l2)%list init = (b <- foldM f l1 init ;; foldM f l2 b).
Proof.
  revert init. induction l1 as [|a l1 IH]; intros init; cbn [app foldM bind]; [reflexivity|].
  destruct (f init a); cbn [bind]; auto.
Qed.

Lemma bind_no_throw {A B} (e : Error) (m : Outcome A) (k : A -> Outcome B) :
  m <> Throw e -> (forall a, k a <> Throw e) -> (x <- m ;; k x) <> Throw e.
Proof.
  intros Hm Hk. destruct m as [a|e'| ]; cbn [bind]; [apply Hk | | discriminate].
  intros E. apply Hm. now injection E as ->.
Qed.

Lemma mapM_no_throw {A B} (e : Error) (f : A -> Outcome B) (l : list A) :
  (forall a, In a l -> f a <> Throw e) -> mapM f l <> Throw e.
Proof.
  induction l as [|a l IH]; cbn [mapM]; intros H; [discriminate|].
  apply bind_no_throw; [apply H; now left|]. intros b.
  apply bind_no_throw; [|discriminate]. apply IH. intros; apply H; now right.
Qed.

Lemma foldM_no_throw {A B} (e : Error) (f : B -> A -> Outcome B) (l : list A) (init : B) :
  (forall b a, In a l -> f b a <> Throw e) -> foldM f l init <> Throw e.
Proof.
  revert init. induction l as [|a l IH]; cbn [foldM]; intros init H; [discriminate|].
  apply bind_no_throw; [apply H; now left|]. intros b.
  apply IH. intros; apply H; now right.
Qed.

(** The merge passes on what the classifier throws and throws a
    [TypeError] of its own. *)
Lemma getImplicitANDValue_no_SyntaxError (f : string -> Outcome Value) (l : list string) :
  (forall s, In s l -> f s <> Throw SyntaxError) ->
  getImplicitANDValue f l <> Throw SyntaxError.
Proof.
  intros H. unfold getImplicitANDValue, getMapOfOperatorsWithValues.
  apply bind_no_throw; [now apply mapM_no_throw|]. intros values.
  apply bind_no_throw; [|discriminate].
  apply foldM_no_throw. intros acc v _. now destruct v.
Qed.

Lemma getFilter_no_throw {host : Host} (e : Error) (f : string -> Outcome Value)
      (q : RawQuery) (def : Obj Value) :
  (forall s, token_of q s -> f s <> Throw e) ->
  (forall key l, In (key, RArr l) q -> getImplicitANDValue f l <> Throw e) ->
  flat q ->
  snd (getFilter f q def) <> Throw e.
Proof.
  intros Hf Ha Hm. unfold getFilter. cbn [snd]. apply foldM_no_throw. intros obj key _.
  destruct (obj_get _ key) as [[s|l|m]|] eqn:Hg; [| | |discriminate].
  - apply obj_get_In, obj_delete_all_In in Hg.
    apply bind_no_throw; [apply Hf; exists key; now left|]. now intros [].
  - apply obj_get_In, obj_delete_all_In in Hg.
    apply bind_no_throw; [now apply (Ha key)|]. discriminate.
  - apply obj_get_In, obj_delete_all_In in Hg. now apply Hm in Hg.
Qed.

Lemma getFilter_no_SyntaxError {host : Host} (f : string -> Outcome Value) (q : RawQuery)
      (def : Obj Value) :
  (forall s, f s <> Throw SyntaxError) -> flat q ->
  snd (getFilter f q def) <> Throw SyntaxError.
Proof.
  intros H Hm. apply getFilter_no_throw; [auto| |exact Hm].
  intros key l _. apply getImplicitANDValue_no_SyntaxError. auto.
Qed.

(** The object made of the parameters of an element match holds texts
    only. *)
Lemma params_flat (params : list (string * string)) :
  flat (fold_left (fun o kv => obj_set o (fst kv) (RStr (snd kv))) params []).
Proof.
  intros key mapping Hin. apply params_object_In in Hin as [[]|(s & E & _)]. discriminate.
Qed.



Lemma split_mem (c d : ascii) (t s : string) :
  In s (split c t) -> mem_char d s = true -> mem_char d t = true.
Proof.
  revert s. induction t as [|a t IH]; intros s; cbn [split mem_char].
  - intros [<-|[]]. discriminate.
  - destruct (Ascii.eqb a c).
    + intros [<-|Hin] Hs; [discriminate|]. rewrite (IH s Hin Hs). apply orb_true_r.
    + pose proof (split_not_nil c t) as Hn.
      destruct (split c t) as [|h tl]; [congruence|]. cbn [cons_head].
      intros [<-|Hin] Hs.
      * cbn [mem_char] in Hs. apply orb_true_iff in Hs as [->|Hs]; [reflexivity|].
        rewrite (IH h (or_introl eq_refl) Hs). apply orb_true_r.
      * rewrite (IH s (or_intror Hin) Hs). apply orb_true_r.
Qed.

Lemma getSelect_no_SyntaxError (query : RawQuery) (def : Obj Value) :
  getSelect query def <> Throw SyntaxError.
Proof.
  unfold getSelect. destruct (obj_get query "select") as [[s|l|m]|]; try discriminate.
  destruct (falsy _); discriminate.
Qed.

Lemma getSort_no_SyntaxError (query : RawQuery) (def : Obj Value) :
  getSort query def <> Throw SyntaxError.
Proof.
  unfold getSort. destruct (obj_get query "sort") as [[s|l|m]|]; try discriminate.
  destruct (falsy _); discriminate.
Qed.

Section Errors.

(** ** What the compiler throws *)

Context {host : Host}.

(** The error of a step is the error of the whole. *)
Ltac same_error H :=
  let E := fresh "E" in
  cbn [snd]; intros E; apply H; injection E as ->; reflexivity.

Lemma body_no_SyntaxError (f : string -> Outcome Value) (t : string) :
  (forall s, f s <> Throw SyntaxError) ->
  getSimpleFilterValue_body f t <> Throw SyntaxError.
Proof.
  intros Hf. unfold getSimpleFilterValue_body.
  destruct (t =? ""); [discriminate|].
  destruct (isJson t) eqn:Ej.
  { unfold isJson in Ej. destruct (JSON_parse t); [discriminate | discriminate Ej]. }
  destruct (isElementMatchFilter t).
  { destruct (_ =? ""); [discriminate|].
    apply bind_no_throw; [|discriminate].
    apply getFilter_no_SyntaxError; [assumption | apply params_flat]. }
  destruct (isLogicalOperator t).
  { apply bind_no_throw; [apply Hf | discriminate]. }
  destruct (isORFilter t).
  { apply bind_no_throw; [|discriminate]. apply mapM_no_throw. auto. }
  destruct (isANDFilter t).
  { apply getImplicitANDValue_no_SyntaxError. auto. }
  destruct (isComparisonFilter t).
  { destruct (_ =? ""); [discriminate|].
    apply bind_no_throw; [apply Hf | discriminate]. }
  destruct (isElementFilter t).
  { destruct (_ =? ""); [discriminate|]. destruct (_ =? "exists"); discriminate. }
  destruct (_ || _).
  { destruct (Date_toISOString t); discriminate. }
  destruct (StringValidator.isNumberString t); [discriminate|].
  destruct (_ || _); [discriminate|].
  destruct (_ && _); discriminate.
Qed.

Lemma getSimpleFilterValue_no_SyntaxError (fuel : nat) (t : string) :
  getSimpleFilterValue fuel t <> Throw SyntaxError.
Proof.
  revert t. induction fuel as [|fuel IH]; intros t; cbn [getSimpleFilterValue];
    [discriminate|].
  now apply body_no_SyntaxError.
Qed.

Lemma parse_not_SyntaxError (query : RawQuery) :
  flat query -> snd (parse query) <> Throw SyntaxError.
Proof.
  intros Hm. unfold parse.
  pose proof (getSelect_no_SyntaxError query []) as Hs.
  pose proof (getSort_no_SyntaxError query []) as Ho.
  destruct (getSelect query []) as [s|e|]; [|same_error Hs|discriminate].
  destruct (getSort query []) as [o|e|]; [|same_error Ho|discriminate].
  pose proof (getFilter_no_SyntaxError classify query []
                (fun s => getSimpleFilterValue_no_SyntaxError _ s) Hm) as Hf.
  destruct (getFilter classify query []) as [q' r]. cbn [snd] in *.
  now apply bind_no_throw.
Qed.


Lemma body_brace_free (f : string -> Outcome Value) (t : string) :
  mem_char "{" t = false ->
  (forall s, mem_char "{" s = false -> f s <> Throw TypeError) ->
  getSimpleFilterValue_body f t <> Throw TypeError.
Proof.
  intros Hb Hf. unfold getSimpleFilterValue_body.
  destruct (t =? ""); [discriminate|].
  destruct (isJson t) eqn:Ej.
  { unfold isJson in Ej. destruct (JSON_parse t); [discriminate | discriminate Ej]. }
  unfold isElementMatchFilter, isLogicalOperator, isComparisonFilter, isElementFilter.
  cbn [existsb logical replaceFirst Ascii.eqb Bool.eqb append].
  rewrite !(startsWith_first "{" _ t Hb). cbn [orb].
  destruct (isORFilter t).
  { apply bind_no_throw; [|discriminate]. apply mapM_no_throw. intros s Hs. apply Hf.
    destruct (mem_char "{" s) eqn:E; [|reflexivity].
    rewrite <- Hb. symmetry. exact (split_mem _ _ _ _ Hs E). }
  assert (Eand : isANDFilter t = false).
  { unfold isANDFilter. rewrite indexOf_mem, Hb. reflexivity. }
  rewrite Eand.
  destruct (_ || _).
  { destruct (Date_toISOString t); discriminate. }
  destruct (StringValidator.isNumberString t); [discriminate|].
  destruct (_ || _); [discriminate|].
  destruct (_ && _); discriminate.
Qed.

Lemma getSimpleFilterValue_brace_free (fuel : nat) (t : string) :
  mem_char "{" t = false -> getSimpleFilterValue fuel t <> Throw TypeError.
Proof.
  revert t. induction fuel as [|fuel IH]; intros t Hb; cbn [getSimpleFilterValue];
    [discriminate|].
  now apply body_brace_free.
Qed.

Lemma texts_flat (query : RawQuery) :
  (forall key raw, In (key, raw) query ->
     exists s, raw = RStr s /\ mem_char "{" s = false) ->
  flat query.
Proof. intros Hq key mapping Hin. apply Hq in Hin as (s & E & _). discriminate. Qed.

Lemma parse_not_TypeError (query : RawQuery) :
  (forall key raw, In (key, raw) query ->
     exists s, raw = RStr s /\ mem_char "{" s = false) ->
  snd (parse query) <> Throw TypeError.
Proof.
  intros Hq. unfold parse.
  assert (Hs : getSelect query [] <> Throw TypeError).
  { unfold getSelect.
    destruct (obj_get query "select") as [[s|l|m]|] eqn:E; try discriminate.
    - destruct (falsy _); discriminate.
    - apply obj_get_In, Hq in E as (s & E & _). discriminate.
    - apply obj_get_In, Hq in E as (s & E & _). discriminate. }
  assert (Ho : getSort query [] <> Throw TypeError).
  { unfold getSort.
    destruct (obj_get query "sort") as [[s|l|m]|] eqn:E; try discriminate.
    - destruct (falsy _); discriminate.
    - apply obj_get_In, Hq in E as (s & E & _). discriminate.
    - apply obj_get_In, Hq in E as (s & E & _). discriminate. }
  destruct (getSelect query []) as [s|e|]; [|same_error Hs|discriminate].
  destruct (getSort query []) as [o|e|]; [|same_error Ho|discriminate].
  assert (Hf : snd (getFilter classify query []) <> Throw TypeError).
  { apply getFilter_no_throw; [| |now apply texts_flat].
    - intros t (key & [Hin|(l & Hin & _)]).
      + apply Hq in Hin as (s' & E & Hb). injection E as <-.
        now apply getSimpleFilterValue_brace_free.
      + apply Hq in Hin as (s' & E & _). discriminate.
    - intros key l Hin. apply Hq in Hin as (s' & E & _). discriminate. }
  destruct (getFilter classify query []) as [q' r]. cbn [snd] in *.
  now apply bind_no_throw.
Qed.

(** Decoding can only shorten: a value of [new URLSearchParams(s)] has at
    most the length of [s]. *)
Hypothesis URLSearchParams_length :
  forall s k v, In (k, v) (URLSearchParams s) -> String.length v <= String.length s.

Lemma parse_fuel (query : RawQuery) : snd (parse query) <> OutOfFuel.
Proof.
  unfold parse.
  assert (Hs : getSelect query [] <> OutOfFuel).
  { unfold getSelect. destruct (obj_get query "select") as [[s|l|m]|]; try discriminate.
    destruct (falsy _); discriminate. }
  assert (Ho : getSort query [] <> OutOfFuel).
  { unfold getSort. destruct (obj_get query "sort") as [[s|l|m]|]; try discriminate.
    destruct (falsy _); discriminate. }
  destruct (getSelect query []) as [s|e|]; [|discriminate|congruence].
  destruct (getSort query []) as [o|e|]; [|discriminate|congruence].
  pose proof (getFilter_fuel classify query []
                (fun s _ => classify_fuel URLSearchParams_length s)) as Hf.
  destruct (getFilter classify query []) as [q' r]. cbn [snd] in *.
  destruct r; cbn [bind]; [discriminate | discriminate | congruence].
Qed.

(** X9: what [parse] does with texts without a brace.  When every value
    of the query is a text without [{] (no parameter is repeated), [parse]
    returns a descriptor, unless a date makes [Date] throw a [RangeError]:
    it throws no [TypeError], the merge of an implicit AND, the only place
    where one is thrown for a text, being reached for no token. *)
Theorem X9_parse_scalar_outcome (query : RawQuery) :
  (forall key raw, In (key, raw) query ->
     exists s, raw = RStr s /\ mem_char "{" s = false) ->
  (exists result, snd (parse query) = Ok result)
  \/ snd (parse query) = Throw RangeError.
Proof.
  intros Hq.
  pose proof (parse_not_TypeError query Hq) as Ht.
  pose proof (parse_not_SyntaxError query (texts_flat query Hq)) as Hs.
  pose proof (parse_fuel query) as Hf.
  destruct (snd (parse query)) as [result|[]|]; try congruence.
  - left. now exists result.
  - now right.
Qed.

End Errors.

(** ** Tagged tokens *)

Lemma prefix_append (p r : string) : String.prefix p (p ++ r) = true.
Proof.
  induction p as [|a p IH]; cbn [append String.prefix]; [now destruct r|].
  destruct (ascii_dec a a); [exact IH | congruence].
Qed.

Lemma append_inj_r (p a b : string) : p ++ a = p ++ b -> a = b.
Proof.
  induction p as [|c p IH]; cbn [append]; [auto|]. intros H. injection H as H. auto.
Qed.

Lemma tag_parts (op v : string) :
  mem_char "}" op = false ->
  substring 1 (indexOf "}" (tag op ++ v)) (tag op ++ v) = op
  /\ substring_from (indexOf "}" (tag op ++ v) + 1) (tag op ++ v) = v.
Proof.
  intros Hop.
  destruct (tag_split op (tag op ++ v) Hop (prefix_append _ _)) as (r & E & E1 & E2).
  apply append_inj_r in E. subst r. auto.
Qed.

Lemma letters_no (c : ascii) (op : string) :
  all_chars is_letter op = true -> is_letter c = false -> mem_char c op = false.
Proof. apply all_chars_mem. Qed.

Lemma tag_no_json (op v : string) :
  op <> "" -> all_chars is_letter op = true -> json_container_prefix (tag op ++ v) = false.
Proof.
  intros Hn Ha. destruct op as [|c op]; [congruence|]. cbn [all_chars] in Ha.
  apply andb_true_iff in Ha as [Hc _]. apply letter_plain in Hc as (H1 & H2 & H3).
  unfold json_container_prefix, tag. cbn [append skip_ws].
  change (json_ws "{") with false. cbv iota.
  change (is_char "[" "{") with false. change (is_char "{" "{") with true.
  cbn [skip_ws orb andb]. rewrite H1, H2, H3. reflexivity.
Qed.

Lemma tag_mem (c : ascii) (op v : string) :
  all_chars is_letter op = true -> is_letter c = false -> c <> "{"%char -> c <> "}"%char ->
  mem_char c (tag op ++ v) = mem_char c v.
Proof.
  intros Ha Hl H1 H2. unfold tag. cbn [append mem_char].
  rewrite !mem_char_app. cbn [mem_char]. rewrite (letters_no c op Ha Hl).
  destruct (Ascii.eqb_spec "{" c); [congruence|].
  destruct (Ascii.eqb_spec "}" c); [congruence|]. reflexivity.
Qed.

(** A token of one tag and a value without brace and pipe is neither an OR
    filter nor an implicit AND. *)
Lemma tag_single (op v : string) :
  all_chars is_letter op = true -> mem_char "{" v = false -> mem_char "|" v = false ->
  isORFilter (tag op ++ v) = false /\ isANDFilter (tag op ++ v) = false.
Proof.
  intros Ha Hb Hp. split.
  - unfold isORFilter. rewrite indexOf_mem, (tag_mem "|" op v Ha); try easy.
    now rewrite Hp.
  - unfold isANDFilter. destruct (_ =? _)%Z; [reflexivity|].
    unfold tag. cbn [append split]. rewrite Ascii.eqb_refl.
    rewrite split_no.
    + cbn [List.filter non_empty String.eqb negb]. destruct (non_empty _); reflexivity.
    + rewrite !mem_char_app. cbn [mem_char]. rewrite Hb, (letters_no "{" op Ha eq_refl).
      reflexivity.
Qed.

Section Rules.

(** ** The rules of the classifier *)

Context {host : Host}.

Hypothesis JSON_parse_container :
  forall s v, JSON_parse s = Some v -> isObjectLike v = true ->
              json_container_prefix s = true.

Hypothesis URLSearchParams_length :
  forall s k v, In (k, v) (URLSearchParams s) -> String.length v <= String.length s.

(** The predicates on a token with a given tag. *)
Ltac tag_facts :=
  first [ discriminate
        | unfold isElementMatchFilter, isLogicalOperator, isComparisonFilter,
            isElementFilter, startsWith, logical, tag;
          simpl;
          try match goal with |- context [String.prefix "" ?v] => destruct v end;
          reflexivity ].

(** What the classifier finds at the head of a tagged token. *)
Lemma tag_head (op v : string) :
  op <> "" -> all_chars is_letter op = true ->
  (tag op ++ v =? "") = false
  /\ isJson (tag op ++ v) = false
  /\ substring 1 (indexOf "}" (tag op ++ v)) (tag op ++ v) = op
  /\ substring_from (indexOf "}" (tag op ++ v) + 1) (tag op ++ v) = v.
Proof.
  intros Hn Ha. split; [reflexivity|]. split.
  - apply (isJson_prefix JSON_parse_container). now apply tag_no_json.
  - apply tag_parts. now apply (letters_no "}" op Ha).
Qed.

Lemma body_logical (f : string -> Outcome Value) (op v : string) :
  In op ["and"; "not"; "nor"; "or"] ->
  getSimpleFilterValue_body f (tag op ++ v) = (x <- f v ;; Ok (VObj [("$" ++ op, x)])).
Proof.
  intros Hin. unfold getSimpleFilterValue_body.
  assert (Hop : op <> "" /\ all_chars is_letter op = true
                /\ isElementMatchFilter (tag op ++ v) = false
                /\ isLogicalOperator (tag op ++ v) = true).
  { destruct Hin as [<-|[<-|[<-|[<-|[]]]]]; repeat split; tag_facts. }
  destruct Hop as (Hn & Ha & Em & El).
  destruct (tag_head op v Hn Ha) as (E0 & Ej & Eop & Ev).
  rewrite E0, Ej, Em, El, Eop, Ev. reflexivity.
Qed.

(** X10: the logical operators.  A token that starts with [{and}], [{not}],
    [{nor}] or [{or}] is classified to the object with the operator as its
    only key and, under it, what the rest of the token is classified to,
    whatever the rest is: an empty rest gives [null] under the operator. *)
Theorem X10_classify_logical (operator value : string) :
  In operator logical ->
  classify (tag_of operator ++ value)
  = (v <- classify value ;; Ok (VObj [(operator, v)])).
Proof.
  intros Hin. rewrite (classify_unfold URLSearchParams_length).
  destruct Hin as [<-|[<-|[<-|[<-|[]]]]];
    [apply (body_logical classify "and") | apply (body_logical classify "not")
     | apply (body_logical classify "nor") | apply (body_logical classify "or")];
    cbn [In]; auto.
Qed.

Lemma body_comparison (f : string -> Outcome Value) (op v : string) :
  In op ["eq"; "gt"; "gte"; "in"; "lt"; "lte"; "ne"; "nin"] ->
  mem_char "{" v = false -> mem_char "|" v = false ->
  getSimpleFilterValue_body f (tag op ++ v)
  = if v =? "" then Ok VNull else (x <- f v ;; Ok (VObj [("$" ++ op, x)])).
Proof.
  intros Hin Hb Hp. unfold getSimpleFilterValue_body.
  assert (Hop : op <> "" /\ all_chars is_letter op = true
                /\ isElementMatchFilter (tag op ++ v) = false
                /\ isLogicalOperator (tag op ++ v) = false
                /\ isComparisonFilter (tag op ++ v) = true).
  { destruct Hin as [<-|[<-|[<-|[<-|[<-|[<-|[<-|[<-|[]]]]]]]]]; repeat split; tag_facts. }
  destruct Hop as (Hn & Ha & Em & El & Ec).
  destruct (tag_head op v Hn Ha) as (E0 & Ej & Eop & Ev).
  destruct (tag_single op v Ha Hb Hp) as (Eor & Eand).
  rewrite E0, Ej, Em, El, Eor, Eand, Ec, Eop, Ev. reflexivity.
Qed.

(** X11: the comparison operators.  A token made of one of the tags [{eq}],
    [{gt}], [{gte}], [{in}], [{lt}], [{lte}], [{ne}] and [{nin}] and of an
    operand that is not empty and holds no brace and no pipe is classified to
    the object with the operator as its only key and, under it, what the
    operand is classified to; the operand is one token, commas and all. *)
Theorem X11_classify_comparison (operator value : string) :
  In operator comparison ->
  value <> "" -> mem_char "{" value = false -> mem_char "|" value = false ->
  classify (tag_of operator ++ value)
  = (v <- classify value ;; Ok (VObj [(operator, v)])).
Proof.
  intros Hin Hn Hb Hp. rewrite (classify_unfold URLSearchParams_length).
  assert (E : (value =? "") = false) by now apply String.eqb_neq.
  destruct Hin as [<-|[<-|[<-|[<-|[<-|[<-|[<-|[<-|[]]]]]]]]];
    [rewrite (body_comparison classify "eq") | rewrite (body_comparison classify "gt")
     | rewrite (body_comparison classify "gte") | rewrite (body_comparison classify "in")
     | rewrite (body_comparison classify "lt") | rewrite (body_comparison classify "lte")
     | rewrite (body_comparison classify "ne") | rewrite (body_comparison classify "nin")];
    cbn [In]; auto 10; now rewrite E.
Qed.

Lemma body_element (f : string -> Outcome Value) (op v : string) :
  In op ["exists"; "type"] ->
  mem_char "{" v = false -> mem_char "|" v = false ->
  getSimpleFilterValue_body f (tag op ++ v)
  = if v =? "" then Ok VNull
    else if op =? "exists" then Ok (getElementExists v) else Ok (getElementType v).
Proof.
  intros Hin Hb Hp. unfold getSimpleFilterValue_body.
  assert (Hop : op <> "" /\ all_chars is_letter op = true
                /\ isElementMatchFilter (tag op ++ v) = false
                /\ isLogicalOperator (tag op ++ v) = false
                /\ isComparisonFilter (tag op ++ v) = false
                /\ isElementFilter (tag op ++ v) = true).
  { destruct Hin as [<-|[<-|[]]]; repeat split; tag_facts. }
  destruct Hop as (Hn & Ha & Em & El & Ec & Ee).
  destruct (tag_head op v Hn Ha) as (E0 & Ej & Eop & Ev).
  destruct (tag_single op v Ha Hb Hp) as (Eor & Eand).
  rewrite E0, Ej, Em, El, Eor, Eand, Ec, Ee, Eop, Ev. reflexivity.
Qed.

(** X12: the element operators.  For an operand without brace and pipe,
    [{exists}] gives [$exists] with the boolean for the operands [true] and
    [false] and [null] for every other one, and [{type}] gives [$type] with
    the operand for the seventeen type names and [null] for every other
    one; the comparison is exact, so [TRUE] and [String] give [null]. *)
Theorem X12_classify_element (value : string) :
  mem_char "{" value = false -> mem_char "|" value = false ->
  classify ("{exists}" ++ value)
  = Ok (if (value =? "true") || (value =? "false")
        then VObj [("$exists", VBool (value =? "true"))] else VNull)
  /\ classify ("{type}" ++ value)
     = Ok (if existsb (String.eqb value) validTypes
           then VObj [("$type", VStr value)] else VNull).
Proof.
  intros Hb Hp. rewrite !(classify_unfold URLSearchParams_length). split.
  - rewrite (body_element classify "exists" value); cbn [In]; auto.
    destruct (String.eqb_spec value "") as [->|_]; [reflexivity|].
    unfold getElementExists. cbn [existsb String.eqb Ascii.eqb Bool.eqb].
    rewrite orb_false_r. now destruct (_ || _).
  - rewrite (body_element classify "type" value); cbn [In]; auto.
    destruct (String.eqb_spec value "") as [->|_]; [reflexivity|].
    unfold getElementType. cbn [String.eqb Ascii.eqb Bool.eqb].
    now destruct (existsb _ _).
Qed.

Lemma join_mem_sep (sep : ascii) (l : list string) :
  2 <= List.length l -> mem_char sep (join (String sep "") l) = true.
Proof.
  destruct l as [|s [|s' l]]; cbn [List.length]; try lia. intros _.
  change (join (String sep "") (s :: s' :: l))
    with (s ++ String sep (join (String sep "") (s' :: l))).
  rewrite mem_char_app. cbn [mem_char]. rewrite Ascii.eqb_refl. apply orb_true_r.
Qed.

(** The predicates on a token without a brace. *)
Lemma no_brace_no_tag (t : string) :
  mem_char "{" t = false ->
  isElementMatchFilter t = false /\ isLogicalOperator t = false
  /\ isComparisonFilter t = false /\ isElementFilter t = false
  /\ isANDFilter t = false /\ startsWith "{regex}" t = false.
Proof.
  intros Hb.
  unfold isElementMatchFilter, isLogicalOperator, isComparisonFilter, isElementFilter.
  cbn [existsb logical replaceFirst Ascii.eqb Bool.eqb append].
  rewrite !(startsWith_first "{" _ t Hb). repeat split.
  unfold isANDFilter. now rewrite indexOf_mem, Hb.
Qed.

(** X13: alternatives.  A token made of two segments or more with a pipe
    between them is classified to [$or] with the list of what the segments
    are classified to, in their order, when it has two characters or more,
    each of them white space or a character from [.] to [}], does not end
    with white space, does not begin as a JSON array or object does, and
    starts neither with [{elemMatch}] nor with a logical operator.  The
    segments may be tagged: a pipe splits before a comparison tag is
    looked at. *)
Theorem X13_classify_or (segments : list string) :
  2 <= List.length segments ->
  Forall (fun s => mem_char "|" s = false) segments ->
  chars_then_last or_char (in_range "." "}") (join "|" segments) = true ->
  json_container_prefix (join "|" segments) = false ->
  isElementMatchFilter (join "|" segments) = false ->
  isLogicalOperator (join "|" segments) = false ->
  classify (join "|" segments)
  = (values <- mapM classify segments ;; Ok (VObj [("$or", VArr values)])).
Proof.
  intros Hlen Hseg Hch Hj Em El.
  assert (Hp : mem_char "|" (join "|" segments) = true) by now apply join_mem_sep.
  assert (Hsplit : split "|" (join "|" segments) = segments).
  { apply split_join; [destruct segments; [cbn in Hlen; lia | discriminate] | exact Hseg]. }
  rewrite (classify_unfold URLSearchParams_length). unfold getSimpleFilterValue_body.
  assert (E0 : (join "|" segments =? "") = false)
    by (destruct (join "|" segments); [discriminate Hp | reflexivity]).
  assert (Eor : isORFilter (join "|" segments) = true).
  { unfold isORFilter, StringUtils.testString. now rewrite indexOf_mem, Hp, or_pattern_chars. }
  rewrite E0, (isJson_prefix JSON_parse_container _ Hj), Em, El, Eor.
  unfold getMapOfOperatorsWithValues. now rewrite Hsplit.
Qed.

(** X14: plain texts.  A token that is not empty, holds no brace, bracket,
    pipe and star, and is no date, no number and neither [true] nor [false]
    is classified to itself, character by character. *)
Theorem X14_classify_plain (token : string) :
  plain_text token = true -> classify token = Ok (VStr token).
Proof.
  unfold plain_text. rewrite !andb_true_iff, !negb_true_iff.
  intros [[[[[[[Hn Hb] Hk] Hp] Hs] Hd] Hnum] Hbool].
  rewrite (classify_unfold URLSearchParams_length). unfold getSimpleFilterValue_body.
  unfold non_empty in Hn. apply negb_true_iff in Hn.
  destruct (no_brace_no_tag _ Hb) as (Em & El & Ec & Ee & Eand & Er).
  assert (Eor : isORFilter token = false).
  { unfold isORFilter. now rewrite indexOf_mem, Hp. }
  rewrite Hn, (isJson_prefix JSON_parse_container _ (no_bracket_no_json _ Hb Hk)),
    Em, El, Eor, Eand, Ec, Ee, Hd, Hnum, Hbool, Er, indexOf_mem, Hs.
  reflexivity.
Qed.

Lemma split_on_no (c : ascii) (sep p : string) :
  mem_char c p = false -> split_on_aux (String c sep) 0 p = [p].
Proof.
  induction p as [|a p IH]; cbn [mem_char split_on_aux]; [reflexivity|].
  intros H. apply orb_false_iff in H as [Ha Hp].
  assert (E : String.prefix (String c sep) (String a p) = false).
  { apply (startsWith_first c). cbn [mem_char]. now rewrite Ha, Hp. }
  rewrite E, (IH Hp). reflexivity.
Qed.

Lemma split_on_regex (p : string) :
  mem_char "{" p = false -> nth 1 (split_on "{regex}" ("{regex}" ++ p)) "" = p.
Proof.
  intros Hb. unfold split_on.
  change ("{regex}" ++ p) with (String "{" ("regex}" ++ p)). cbn [split_on_aux].
  replace (String.prefix "{regex}" (String "{" ("regex}" ++ p))) with true
    by (symmetry; apply (prefix_append "{regex}" p)).
  cbn [String.length Nat.sub append split_on_aux]. now rewrite split_on_no.
Qed.

(** X15: the tag [{regex}].  A token made of [{regex}] and of a pattern
    without brace and pipe is classified to the case-insensitive regex node
    of the pattern, treated as a wildcard token is: without the characters
    outside word characters, white space, [@] and the range from [.] to [}]
    (so without [$], [(], [)], [*], [+], [,] and [-]), and anchored by its
    leading and trailing stars only. *)
Theorem X15_classify_regex_tag (pattern : string) :
  mem_char "{" pattern = false -> mem_char "|" pattern = false ->
  classify ("{regex}" ++ pattern) = Ok (regex_node (anchored pattern)).
Proof.
  intros Hb Hp. rewrite (classify_unfold URLSearchParams_length).
  change ("{regex}" ++ pattern) with (tag "regex" ++ pattern).
  unfold getSimpleFilterValue_body.
  assert (Hop : isElementMatchFilter (tag "regex" ++ pattern) = false
                /\ isLogicalOperator (tag "regex" ++ pattern) = false
                /\ isComparisonFilter (tag "regex" ++ pattern) = false
                /\ isElementFilter (tag "regex" ++ pattern) = false)
    by (repeat split; tag_facts).
  destruct Hop as (Em & El & Ec & Ee).
  destruct (tag_head "regex" pattern) as (E0 & Ej & _); [discriminate | reflexivity|].
  destruct (tag_single "regex" pattern eq_refl Hb Hp) as (Eor & Eand).
  assert (Hm : mem_char "{" (tag "regex" ++ pattern) = true) by reflexivity.
  rewrite E0, Ej, Em, El, Eor, Eand, Ec, Ee.
  unfold StringValidator.isISODate, StringValidator.isISODateTime,
    StringValidator.isNumberString.
  rewrite !(fun r H => no_match_outside r _ "{" Hm H) by reflexivity.
  cbn [orb].
  replace (tag "regex" ++ pattern =? "true") with false by reflexivity.
  replace (tag "regex" ++ pattern =? "false") with false by reflexivity.
  replace (startsWith "{regex}" (tag "regex" ++ pattern)) with true
    by (symmetry; apply (prefix_append "{regex}" pattern)).
  rewrite andb_false_r. cbn [orb negb].
  change (tag "regex" ++ pattern) with ("{regex}" ++ pattern).
  rewrite (split_on_regex pattern Hb).
  unfold regex_node, anchored, wildcard_body.
  destruct (startsWith "*" pattern); [|reflexivity].
  destruct (endsWith "*" pattern); [|reflexivity].
  cbn [append]. now rewrite substring_from_1.
Qed.

(** X16: element match.  For an operand that is not empty, a token that
    starts with [{elemMatch}] is classified to [$elemMatch] with the filter
    compiled from the parameters of the operand, read with [#] for [&]: no
    condition of it is [null], and every key of it is the sanitized key of a
    parameter that is not a reserved one. *)
Theorem X16_classify_elemMatch (value : string) (result : Value) :
  value <> "" ->
  classify ("{elemMatch}" ++ value) = Ok result ->
  exists sub,
    result = VObj [("$elemMatch", VObj sub)]
    /\ snd (getFilter classify
              (params_object (URLSearchParams (replaceAll "#" "&" value))) []) = Ok sub
    /\ forall k v, In (k, v) sub ->
         v <> VNull
         /\ exists key text,
              In (key, text) (URLSearchParams (replaceAll "#" "&" value))
              /\ existsb (String.eqb key) reserved = false /\ k = cleanKey key.
Proof.
  intros Hn. rewrite (classify_unfold URLSearchParams_length).
  change ("{elemMatch}" ++ value) with (tag "elemMatch" ++ value).
  unfold getSimpleFilterValue_body.
  assert (Em : isElementMatchFilter (tag "elemMatch" ++ value) = true) by tag_facts.
  destruct (tag_head "elemMatch" value) as (E0 & Ej & Eop & Ev);
    [discriminate | reflexivity|].
  apply String.eqb_neq in Hn. rewrite E0, Ej, Em, Eop, Ev, Hn.
  fold (params_object (URLSearchParams (replaceAll "#" "&" value))).
  destruct (getFilter classify (params_object _) []) as [q' r] eqn:E. cbn [snd].
  destruct r as [sub| |]; try discriminate. cbn [bind]. intros H. injection H as <-.
  exists sub. split; [reflexivity|]. split; [reflexivity|]. intros k v Hin. split.
  - exact (proj1 (getFilter_defined _ _ _ _ _ E k v Hin)).
  - destruct (getFilter_keys _ _ _ _ _ E k v Hin) as (key & raw & Hq & Hr & ->).
    unfold params_object in Hq. apply params_object_In in Hq as [[]|(text & -> & Hq)].
    exists key, text. repeat split; auto.
    unfold not_reserved in Hr. cbn [fst] in Hr. now apply negb_true_iff in Hr.
Qed.

(** X17: JSON texts.  A value of the query that is the text of a JSON array
    or object is compiled to what [JSON.parse] makes of it, as it is: under
    the sanitized key stand the keys and the values of the text, operators
    among them, neither sanitized nor classified. *)
Theorem X17_getFilter_json (key text : string) (v : Value) :
  existsb (String.eqb key) reserved = false ->
  text <> "" -> JSON_parse text = Some v -> isObjectLike v = true ->
  snd (getFilter classify [(key, RStr text)] []) = Ok (obj_set [] (cleanKey key) v).
Proof.
  intros Hk Hn Hj Hv. rewrite (getFilter_one_string _ _ _ _ Hk). cbn [snd].
  rewrite (classify_unfold URLSearchParams_length). unfold getSimpleFilterValue_body.
  apply String.eqb_neq in Hn. unfold isJson. rewrite Hn, Hj, Hv. cbn [bind].
  now destruct v.
Qed.


End Rules.

(** ** Arrays of values without keys *)

Lemma mapM_Forall {A B} (P : B -> Prop) (f : A -> Outcome B) (l : list A) :
  (forall a, In a l -> exists b, f a = Ok b /\ P b) ->
  exists bs, mapM f l = Ok bs /\ Forall P bs.
Proof.
  induction l as [|a l IH]; cbn [mapM]; intros H; [now exists []|].
  destruct (H a (or_introl eq_refl)) as (b & -> & Hb).
  destruct IH as (bs & -> & Hbs); [intros; apply H; now right|].
  exists (b :: bs). cbn [bind]. auto.
Qed.

Lemma merge_keyless (values : list Value) (acc : Obj Value) :
  Forall (fun v => keyless v = true) values ->
  foldM (fun acc filterValue =>
           operatorArray <- own_entries filterValue ;;
           Ok (fold_left (fun acc kv => obj_set acc (fst kv) (snd kv)) operatorArray acc))
        values acc
  = Ok acc.
Proof.
  induction 1 as [|v values Hv _ IH]; cbn [foldM]; [reflexivity|].
  unfold keyless in Hv. destruct (own_entries v) as [[|e es]| |]; try discriminate.
  cbn [bind fold_left]. exact IH.
Qed.

(** X19: an array of values without keys.  When every element of a
    repeated parameter is classified to a value without own properties (a
    number, a boolean, an empty text, array or object), the parameter
    compiles to the empty object under its sanitized key: the elements leave
    no trace in the condition. *)
Theorem X19_getFilter_array_keyless {host : Host} (key : string) (tokens : list string) :
  existsb (String.eqb key) reserved = false ->
  (forall t, In t tokens -> exists v, classify t = Ok v /\ keyless v = true) ->
  snd (getFilter classify [(key, RArr tokens)] []) = Ok (obj_set [] (cleanKey key) (VObj [])).
Proof.
  intros Hk Ht. rewrite (getFilter_one_array _ _ _ _ Hk). cbn [snd].
  unfold getImplicitANDValue, getMapOfOperatorsWithValues.
  destruct (mapM_Forall (fun v => keyless v = true) classify tokens Ht) as (values & -> & Hv).
  cbn [bind]. now rewrite (merge_keyless values [] Hv).
Qed.

(** ** One more parameter *)

Lemma obj_get_key {A} (o : Obj A) (k : string) :
  In k (obj_keys o) -> exists v, obj_get o k = Some v.
Proof.
  induction o as [|[k' v'] o IH]; cbn [obj_keys map fst In obj_get]; [intros []|].
  intros [->|Hin].
  - rewrite String.eqb_refl. now exists v'.
  - destruct (k' =? k); [now exists v' | now apply IH].
Qed.

(** X20: one more parameter.  Let a property be defined in the query
    under a key that is new, not reserved and no array index: it is the
    last of the query, after the others in the order of their keys.  Then
    [getFilter] leaves the conditions of the others as they are and compiles
    the new one after them: it sets its sanitized key in the filter of the
    others, over a condition that is already there under that key, and sets
    nothing for a value classified to [null].  (An array index would come
    before the keys that are none, wherever it is written.) *)
Theorem X20_getFilter_snoc {host : Host} (f : string -> Outcome Value) (q : RawQuery)
        (key : string) (raw : RawValue) (def : Obj Value) :
  obj_get q key = None ->
  array_index key = None ->
  existsb (String.eqb key) reserved = false ->
  obj_define q key raw = (q ++ [(key, raw)])%list
  /\ snd (getFilter f (obj_define q key raw) def)
     = (obj <- snd (getFilter f q def) ;;
        match raw with
        | RArr queryValue =>
            v <- getImplicitANDValue f queryValue ;; Ok (obj_set obj (cleanKey key) v)
        | RStr queryValue =>
            value <- f queryValue ;;
            match value with
            | VNull => Ok obj
            | _ => Ok (obj_set obj (cleanKey key) value)
            end
        | RObj _ =>
            value <- getSimpleFilterValue_mapping ;;
            match value with
            | VNull => Ok obj
            | _ => Ok (obj_set obj (cleanKey key) value)
            end
        end).
Proof.
  intros Hq Hi Hk.
  assert (Hd : obj_define q key raw = (q ++ [(key, raw)])%list)
    by (unfold obj_define; now rewrite Hq, Hi).
  split; [exact Hd|]. rewrite Hd.
  unfold getFilter. cbn [snd]. rewrite !obj_delete_all_filter.
  rewrite filter_app. cbn [List.filter fst]. rewrite Hk. cbn [negb].
  set (q' := List.filter _ q).
  assert (Hq' : obj_get q' key = None).
  { unfold q'.
    rewrite (obj_get_filter (fun k => negb (existsb (String.eqb k) reserved)) q key).
    now rewrite Hk. }
  unfold obj_keys. rewrite map_app, foldM_app. cbn [map fst].
  match goal with
  | |- context [foldM ?step (map fst q') []] =>
      rewrite (foldM_ext step
                 (fun (obj : Obj Value) (key : string) =>
                    let cleanKey := cleanKey key in
                    match obj_get q' key with
                    | Some (RArr queryValue) =>
                        v <- getImplicitANDValue f queryValue ;;
                        Ok (obj_set obj cleanKey v)
                    | Some (RStr queryValue) =>
                        value <- f queryValue ;;
                        match value with
                        | VNull => Ok obj
                        | _ => Ok (obj_set obj cleanKey value)
                        end
                    | Some (RObj _) =>
                        value <- getSimpleFilterValue_mapping ;;
                        match value with
                        | VNull => Ok obj
                        | _ => Ok (obj_set obj cleanKey value)
                        end
                    | None => Ok obj
                    end) (map fst q') [])
  end.
  - destruct (foldM _ (map fst q') ([] : Obj Value)) as [obj| |]; cbn [bind foldM];
      try reflexivity.
    rewrite obj_get_app, Hq'. cbn [obj_get]. rewrite String.eqb_refl.
    destruct raw as [s|l|m].
    + destruct (f s) as [[]| |]; reflexivity.
    + destruct (getImplicitANDValue f l); reflexivity.
    + destruct getSimpleFilterValue_mapping as [[]| |]; reflexivity.
  - intros obj k Hin. apply obj_get_key in Hin as [v Hv].
    cbv zeta. now rewrite obj_get_app, Hv.
Qed.

(** ** The tokens of an implicit AND *)

Lemma count_non_empty_app (l l' : list string) :
  count_non_empty (l ++ l') = count_non_empty l + count_non_empty l'.
Proof. unfold count_non_empty. now rewrite filter_app, length_app. Qed.

Lemma count_non_empty_cons_head (a : ascii) (l : list string) :
  1 <= count_non_empty (cons_head a l).
Proof.
  destruct l; unfold count_non_empty, cons_head, non_empty;
    cbn [List.filter String.eqb negb List.length]; lia.
Qed.

(** The pieces of a text that are not empty: there is one exactly when the
    text holds a character other than the separator. *)
Lemma pieces_other (c : ascii) (s : string) :
  has_other c s = negb (count_non_empty (split c s) =? 0)%nat.
Proof.
  unfold has_other. induction s as [|a s IH]; [reflexivity|].
  cbn [all_chars split]. unfold is_char at 1. rewrite Ascii.eqb_sym.
  destruct (Ascii.eqb a c) eqn:E; cbn [andb negb].
  - exact IH.
  - pose proof (count_non_empty_cons_head a (split c s)) as H. revert H.
    destruct (count_non_empty (cons_head a (split c s))); [intros H; lia | reflexivity].
Qed.

Lemma pieces_two (c : ascii) (s : string) :
  2 <= count_non_empty (split c s) ->
  exists x y, s = x ++ String c y /\ has_other c x = true /\ has_other c y = true.
Proof.
  induction s as [|a s IH]; [unfold count_non_empty; cbn; lia|].
  cbn [split]. destruct (Ascii.eqb_spec a c) as [->|Hac].
  - intros H. destruct (IH H) as (x & y & -> & Hx & Hy).
    exists (String c x), y. repeat split; auto.
    unfold has_other in *. cbn [all_chars]. unfold is_char at 1.
    now rewrite Ascii.eqb_refl.
  - assert (Ha : forall x, has_other c (String a x) = true).
    { intros x. unfold has_other. cbn [all_chars]. unfold is_char at 1.
      destruct (Ascii.eqb_spec c a); [congruence | reflexivity]. }
    destruct s as [|b s].
    { unfold count_non_empty; cbn; lia. }
    cbn [split] in *. destruct (Ascii.eqb_spec b c) as [->|Hbc].
    + cbn [cons_head]. intros H. exists (String a ""), s. repeat split; auto.
      rewrite pieces_other. unfold count_non_empty in *. cbn in H.
      destruct (List.length _); [lia | reflexivity].
    + intros H.
      assert (H' : 2 <= count_non_empty (cons_head b (split c s))).
      { pose proof (split_not_nil c s) as Hn.
        destruct (split c s) as [|h tl]; [congruence|].
        unfold count_non_empty in *. cbn in *. lia. }
      destruct (IH H') as (x & y & E & Hx & Hy).
      exists (String a x), y. rewrite E. repeat split; auto.
Qed.

(** X21: the tokens [isANDFilter] accepts.  A token is an implicit AND
    exactly when it holds a [{] with a character other than [{] somewhere
    before it and one somewhere after it; the groups need not be
    operators, and one tag with its operand is no implicit AND. *)
Theorem X21_isANDFilter_pieces (filter : string) :
  isANDFilter filter = true
  <-> exists x y, filter = x ++ "{" ++ y
                  /\ has_other "{" x = true /\ has_other "{" y = true.
Proof.
  unfold isANDFilter. split.
  - destruct (_ =? _)%Z; [discriminate|]. intros H. apply Nat.ltb_lt in H.
    now apply pieces_two.
  - intros (x & y & -> & Hx & Hy).
    rewrite indexOf_mem, mem_char_app. cbn [append mem_char].
    rewrite Ascii.eqb_refl, orb_true_r. cbn [negb].
    apply Nat.ltb_lt. fold (count_non_empty (split "{" (x ++ String "{" y))).
    rewrite split_app_sep, count_non_empty_app.
    rewrite pieces_other in Hx, Hy.
    destruct (count_non_empty (split "{" x)); [discriminate|].
    destruct (count_non_empty (split "{" y)); [discriminate|]. lia.
Qed.

(** ** The functions [parse] does not call *)

Lemma obj_define_empty {A} (k : string) (v : A) : obj_define [] k v = [(k, v)].
Proof. unfold obj_define. cbn [obj_get]. now destruct (array_index k). Qed.

(** X22: [getArrayValue].  The result has one object for each element of
    the array, in the order of the elements: the object has the sanitized
    key as its only key, whatever the key is, and under it what the
    element is classified to, a [null] as well. *)
Theorem X22_getArrayValue_items (f : string -> Outcome Value) (key : string)
        (filter : list string) (values : list Value) :
  getArrayValue f key filter = Ok values ->
  Forall2 (fun item v => exists x, f item = Ok x /\ v = VObj [(cleanKey key, x)])
          filter values.
Proof.
  unfold getArrayValue.
  assert (H : forall values,
             mapM (fun item => v <- f item ;; Ok (VObj (obj_define [] (cleanKey key) v)))
                  filter = Ok values ->
             Forall2 (fun item v => exists x, f item = Ok x /\ v = VObj [(cleanKey key, x)])
                     filter values).
  { induction filter as [|item filter IH]; cbn [mapM]; intros vs Hvs.
    - injection Hvs as <-. constructor.
    - destruct (f item) as [x| |] eqn:Ex; try discriminate. cbn [bind] in Hvs.
      destruct (mapM _ filter) as [vs'| |]; try discriminate. cbn [bind] in Hvs.
      injection Hvs as <-. constructor; [|now apply IH].
      exists x. now rewrite obj_define_empty. }
  destruct filter as [|item filter]; [|apply H].
  intros E. injection E as <-. constructor.
Qed.

(** X23: [getPopulate] on a path and a projection.  A descriptor without
    [;] is the path, as it is written; in [path;select], both without [;],
    the second part is compiled as a projection is and stands under
    [select], unless it is empty or [all].  The default is not looked at. *)
Theorem X23_getPopulate_path_select {host : Host} (url_query : string -> RawQuery)
        (path select : string) (def : list Value) :
  mem_char ";" path = false -> mem_char ";" select = false ->
  (path <> "" ->
   getPopulate_string url_query path def = Ok (VObj [("path", VStr path)]))
  /\ exists projection,
       getSelect [("select", RStr select)] [] = Ok projection
       /\ getPopulate_string url_query (path ++ ";" ++ select) def
          = Ok (VObj (if (select =? "") || (select =? "all")
                      then [("path", VStr path)]
                      else [("path", VStr path); ("select", VObj projection)])).
Proof.
  intros Hp Hs. split.
  - intros Hn. unfold getPopulate_string. apply String.eqb_neq in Hn.
    rewrite Hn, (split_no ";" path Hp). reflexivity.
  - assert (E0 : (path ++ ";" ++ select =? "") = false) by now destruct path.
    assert (Esplit : split ";" (path ++ ";" ++ select) = [path; select]).
    { rewrite (split_app_no ";" path _ Hp). cbn [append split]. rewrite Ascii.eqb_refl.
      now rewrite (split_no ";" select Hs), append_nil_r. }
    unfold getPopulate_string. rewrite E0, Esplit. cbn [nth nth_error].
    unfold getSelect. cbn [obj_get String.eqb Ascii.eqb Bool.eqb falsy].
    destruct (select =? "") eqn:Ee; cbn [negb andb orb bind].
    + eexists. split; reflexivity.
    + destruct (select =? "all"); cbn [negb bind]; eexists; split; reflexivity.
Qed.

(** X24: [getPopulate] on a path and a filter.  In [path;;filter], both
    without [;] and the filter not empty, the empty second part gives no
    [select], and the third is read as a query string and compiled as a
    filter is, to stand under [match]. *)
Theorem X24_getPopulate_match {host : Host} (url_query : string -> RawQuery)
        (path filter : string) (def : list Value) :
  mem_char ";" path = false -> mem_char ";" filter = false -> filter <> "" ->
  getPopulate_string url_query (path ++ ";;" ++ filter) def
  = (matched <- snd (getFilter classify (url_query filter) []) ;;
     Ok (VObj [("path", VStr path); ("match", VObj matched)])).
Proof.
  intros Hp Hf Hn.
  assert (E0 : (path ++ ";;" ++ filter =? "") = false) by now destruct path.
  assert (Esplit : split ";" (path ++ ";;" ++ filter) = [path; ""; filter]).
  { rewrite (split_app_no ";" path _ Hp). cbn [append split]. rewrite !Ascii.eqb_refl.
    now rewrite (split_no ";" filter Hf), append_nil_r. }
  unfold getPopulate_string. rewrite E0, Esplit. cbn [nth nth_error].
  apply String.eqb_neq in Hn. rewrite Hn. cbn [String.eqb negb andb bind].
  destruct (snd (getFilter classify (url_query filter) [])); reflexivity.
Qed.

Lemma mapM_map {A B} (f : A -> Outcome B) (g : A -> B) (l : list A) :
  (forall a, In a l -> f a = Ok (g a)) -> mapM f l = Ok (map g l).
Proof.
  induction l as [|a l IH]; cbn [mapM map]; intros H; [reflexivity|].
  rewrite (H a) by now left. rewrite IH by (intros; apply H; now right). reflexivity.
Qed.

(** X25: [getPopulate] on a repeated parameter.  When [populate] is an
    array of paths, each of them not empty and without [;], the result is
    the array of their descriptors, in the order of the paths, each with
    its path and nothing else: the default is not among them. *)
Theorem X25_getPopulate_paths {host : Host} (url_query : string -> RawQuery)
        (query : RawQuery) (paths : list string) (def : list Value) :
  obj_get query "populate" = Some (RArr paths) ->
  Forall (fun path => path <> "" /\ mem_char ";" path = false) paths ->
  getPopulate url_query query def
  = Ok (VArr (map (fun path => VObj [("path", VStr path)]) paths)).
Proof.
  intros Hq Hp. unfold getPopulate. rewrite Hq.
  rewrite (mapM_map _ (fun path => VObj [("path", VStr path)])); [reflexivity|].
  intros path Hin. rewrite Forall_forall in Hp. destruct (Hp path Hin) as [Hn Hs].
  unfold getPopulate_string. apply String.eqb_neq in Hn.
  rewrite Hn, (split_no ";" path Hs). reflexivity.
Qed.

(** ** The further properties on the reference host *)

Lemma X1_witness :
  exists o,
    getSelect [("select", RStr "name,-age")] [] = Ok o
    /\ (forall neg name, In (neg, name) [(false, "name"); (true, "age")] ->
          obj_get o name = Some (VNum (if neg then 0%Q else 1%Q)))
    /\ (forall k v, In (k, v) o ->
          exists neg, In (neg, k) [(false, "name"); (true, "age")]
                      /\ v = VNum (if neg then 0%Q else 1%Q)).
Proof.
  apply (X1_getSelect_fields [("select", RStr "name,-age")] []
           [(false, "name"); (true, "age")]).
  - reflexivity.
  - discriminate.
  - repeat constructor.
  - repeat constructor; simpl; intuition discriminate.
Defined.

Lemma X2_witness :
  exists o,
    getSort [("sort", RStr "-created,name")] [] = Ok o
    /\ (forall neg name, In (neg, name) [(true, "created"); (false, "name")] ->
          obj_get o name = Some (VNum (if neg then (-1)%Q else 1%Q)))
    /\ (forall k v, In (k, v) o ->
          exists neg, In (neg, k) [(true, "created"); (false, "name")]
                      /\ v = VNum (if neg then (-1)%Q else 1%Q)).
Proof.
  apply (X2_getSort_fields [("sort", RStr "-created,name")] []
           [(true, "created"); (false, "name")]).
  - reflexivity.
  - discriminate.
  - repeat constructor.
  - repeat constructor; simpl; intuition discriminate.
Defined.

Lemma X3_witness :
  exists o,
    getSelect [("select", RStr "a-b,-$c,__proto__")] [] = Ok o
    /\ forall k v, In (k, v) o ->
         k <> "__proto__" /\ all_chars key_char k = true
         /\ exists segment,
              In segment (split "," "a-b,-$c,__proto__") /\ k = cleanKey segment
              /\ v = VNum (if startsWith "-" segment then 0%Q else 1%Q).
Proof.
  refine (proj1 (X3_getSelect_getSort_entries [("select", RStr "a-b,-$c,__proto__")] []
                   "a-b,-$c,__proto__" _) _).
  - discriminate.
  - reflexivity.
Defined.

Lemma X4_witness :
  VStr "jo" <> VNull /\ "name" <> "__proto__" /\ all_chars key_char "name" = true
  /\ exists key raw,
       In (key, raw) [("limit", RStr "5"); ("$na-me", RStr "jo")]
       /\ not_reserved (key, raw) = true /\ "name" = cleanKey key.
Proof.
  apply (@X4_getFilter_entries reference_host (@classify reference_host)
           [("limit", RStr "5"); ("$na-me", RStr "jo")] [("$na-me", RStr "jo")]
           [] [("name", VStr "jo")] "name" (VStr "jo")).
  - vm_compute. reflexivity.
  - simpl. auto.
Defined.

Lemma X5_witness :
  skip {| limit := 10; skip := 0; select := []; sort := []; filter := [] |} = 0%float.
Proof.
  apply (@X5_parse_page_not_above_one reference_host
           [("limit", RStr "10"); ("skip", RStr "40"); ("page", RArr ["1"])]).
  - reflexivity.
  - intros page E. injection E as <-. intros _. vm_compute. reflexivity.
  - vm_compute. reflexivity.
Defined.


Lemma X9_witness :
  (exists result,
     snd (@parse reference_host [("name", RStr "jo|al"); ("born", RStr "2020-02-30")])
     = Ok result)
  \/ snd (@parse reference_host [("name", RStr "jo|al"); ("born", RStr "2020-02-30")])
     = Throw RangeError.
Proof.
  apply (@X9_parse_scalar_outcome reference_host URLSearchParams_ref_length).
  intros key raw [E|[E|[]]]; injection E as <- <-; eexists; split; reflexivity.
Defined.

Lemma X10_witness :
  @classify reference_host (tag_of "$not" ++ "{gt}5")
  = (v <- @classify reference_host "{gt}5" ;; Ok (VObj [("$not", v)])).
Proof.
  apply (@X10_classify_logical reference_host JSON_parse_ref_container
           URLSearchParams_ref_length "$not" "{gt}5").
  simpl. auto.
Defined.

Lemma X11_witness :
  @classify reference_host (tag_of "$in" ++ "a,b")
  = (v <- @classify reference_host "a,b" ;; Ok (VObj [("$in", v)])).
Proof.
  apply (@X11_classify_comparison reference_host JSON_parse_ref_container
           URLSearchParams_ref_length "$in" "a,b").
  - simpl. auto.
  - discriminate.
  - reflexivity.
  - reflexivity.
Defined.

Lemma X12_witness :
  @classify reference_host ("{exists}" ++ "TRUE")
  = Ok (if ("TRUE" =? "true") || ("TRUE" =? "false")
        then VObj [("$exists", VBool ("TRUE" =? "true"))] else VNull)
  /\ @classify reference_host ("{type}" ++ "TRUE")
     = Ok (if existsb (String.eqb "TRUE") validTypes
           then VObj [("$type", VStr "TRUE")] else VNull).
Proof.
  apply (@X12_classify_element reference_host JSON_parse_ref_container
           URLSearchParams_ref_length "TRUE"); reflexivity.
Defined.

Lemma X13_witness :
  @classify reference_host (join "|" ["{gt}5"; "b c"; ""])
  = (values <- mapM (@classify reference_host) ["{gt}5"; "b c"; ""] ;;
     Ok (VObj [("$or", VArr values)])).
Proof.
  apply (@X13_classify_or reference_host JSON_parse_ref_container
           URLSearchParams_ref_length ["{gt}5"; "b c"; ""]).
  - simpl. lia.
  - repeat constructor.
  - vm_compute. reflexivity.
  - reflexivity.
  - reflexivity.
  - reflexivity.
Defined.

Lemma X14_witness :
  @classify reference_host "foo-bar, baz" = Ok (VStr "foo-bar, baz").
Proof.
  apply (@X14_classify_plain reference_host JSON_parse_ref_container
           URLSearchParams_ref_length "foo-bar, baz").
  vm_compute. reflexivity.
Defined.

Lemma X15_witness :
  @classify reference_host ("{regex}" ++ "^a+b$") = Ok (regex_node (anchored "^a+b$")).
Proof.
  apply (@X15_classify_regex_tag reference_host JSON_parse_ref_container
           URLSearchParams_ref_length "^a+b$"); reflexivity.
Defined.

Lemma X16_witness :
  exists sub,
    VObj [("$elemMatch", VObj [("a", VObj [("$gt", VNum 5)])])]
    = VObj [("$elemMatch", VObj sub)]
    /\ snd (@getFilter reference_host (@classify reference_host)
              (params_object (@URLSearchParams reference_host
                                (replaceAll "#" "&" "a={gt}5#limit=3"))) []) = Ok sub
    /\ forall k v, In (k, v) sub ->
         v <> VNull
         /\ exists key text,
              In (key, text) (@URLSearchParams reference_host
                                (replaceAll "#" "&" "a={gt}5#limit=3"))
              /\ existsb (String.eqb key) reserved = false /\ k = cleanKey key.
Proof.
  apply (@X16_classify_elemMatch reference_host JSON_parse_ref_container
           URLSearchParams_ref_length "a={gt}5#limit=3").
  - discriminate.
  - vm_compute. reflexivity.
Defined.

Lemma X17_witness :
  snd (@getFilter reference_host (@classify reference_host) [("tags", RStr "[1,2]")] [])
  = Ok (obj_set [] (cleanKey "tags") (VArr [VNum 1; VNum 2])).
Proof.
  apply (@X17_getFilter_json reference_host URLSearchParams_ref_length "tags" "[1,2]").
  - reflexivity.
  - discriminate.
  - vm_compute. reflexivity.
  - reflexivity.
Defined.


Lemma X19_witness :
  snd (@getFilter reference_host (@classify reference_host) [("age", RArr ["18"; "true"])] [])
  = Ok (obj_set [] (cleanKey "age") (VObj [])).
Proof.
  apply (@X19_getFilter_array_keyless reference_host "age" ["18"; "true"]).
  - reflexivity.
  - intros t [<-|[<-|[]]]; eexists; split; vm_compute; reflexivity.
Defined.

Lemma X20_witness :
  obj_define [("a.b", RStr "1")] "ab" (RStr "x")
  = ([("a.b", RStr "1")] ++ [("ab", RStr "x")])%list
  /\ snd (@getFilter reference_host (@classify reference_host)
            (obj_define [("a.b", RStr "1")] "ab" (RStr "x")) [])
     = (obj <- snd (@getFilter reference_host (@classify reference_host)
                      [("a.b", RStr "1")] []) ;;
        value <- @classify reference_host "x" ;;
        match value with
        | VNull => Ok obj
        | _ => Ok (obj_set obj (cleanKey "ab") value)
        end).
Proof.
  apply (@X20_getFilter_snoc reference_host (@classify reference_host)
           [("a.b", RStr "1")] "ab" (RStr "x") []);
    reflexivity.
Defined.

Lemma X22_witness :
  Forall2 (fun item v => exists x, @classify reference_host item = Ok x
                                   /\ v = VObj [(cleanKey "a-b", x)])
          ["1"; ""] [VObj [("ab", VNum 1)]; VObj [("ab", VNull)]].
Proof.
  apply (X22_getArrayValue_items (@classify reference_host) "a-b" ["1"; ""]).
  vm_compute. reflexivity.
Defined.

Lemma X23_witness :
  ("au-thor" <> "" ->
   @getPopulate_string reference_host (fun _ => []) "au-thor" []
   = Ok (VObj [("path", VStr "au-thor")]))
  /\ exists projection,
       getSelect [("select", RStr "name,-age")] [] = Ok projection
       /\ @getPopulate_string reference_host (fun _ => []) ("au-thor" ++ ";" ++ "name,-age") []
          = Ok (VObj (if ("name,-age" =? "") || ("name,-age" =? "all")
                      then [("path", VStr "au-thor")]
                      else [("path", VStr "au-thor"); ("select", VObj projection)])).
Proof.
  apply (@X23_getPopulate_path_select reference_host (fun _ => []) "au-thor" "name,-age" []);
    reflexivity.
Defined.

Lemma X24_witness :
  @getPopulate_string reference_host
    (fun filter => params_object (@URLSearchParams reference_host filter))
    ("author" ++ ";;" ++ "age={gt}5") []
  = (matched <- snd (@getFilter reference_host (@classify reference_host)
                       (params_object (@URLSearchParams reference_host "age={gt}5")) []) ;;
     Ok (VObj [("path", VStr "author"); ("match", VObj matched)])).
Proof.
  apply (@X24_getPopulate_match reference_host
           (fun filter => params_object (@URLSearchParams reference_host filter))
           "author" "age={gt}5" []);
    first [discriminate | reflexivity].
Defined.

Lemma X25_witness :
  @getPopulate reference_host (fun _ => [])
    [("populate", RArr ["author"; "comments.user"])] [VStr "x"]
  = Ok (VArr (map (fun path => VObj [("path", VStr path)]) ["author"; "comments.user"])).
Proof.
  apply (@X25_getPopulate_paths reference_host (fun _ => [])
           [("populate", RArr ["author"; "comments.user"])] ["author"; "comments.user"]
           [VStr "x"]).
  - reflexivity.
  - repeat constructor; discriminate.
Defined.
